(** * AgriSense cloud sync service: a shallow embedding of
      [src/raspberry_pi/cloud_sync.py] and the properties of its offline
      queue, dispatch, batching and drain logic.

    Conventions of the embedding.
    - A Python [str] is the list of its Unicode code points, [bytes] a list
      of bytes.
    - Python values are the values [json.loads] produces; the carrier [F] of
      floats is a parameter, and [json.dumps] / [json.loads] are the two
      methods of the class [JsonCodec], so that the service is modelled over
      any JSON codec.  The codec of CPython's [json] package is given in
      module [PyJson], over the float arithmetic of the class [PyFloat].
    - An exception that a [try] of the source catches is the [None] of an
      [option]; what the [except] clause does is written out at the match.
    - Clock readings and the outcome of every network publish are inputs:
      [clock] and [network].  The calls made to the two MQTT clients are
      recorded in the state, oldest first.
    - The SQLite table is the list of its rows in rowid order; the store is
      taken to be reliable (no I/O error of the database file is modelled). *)

From Stdlib Require Import ZArith NArith QArith List String Ascii Bool Lia.
From Stdlib Require Import Permutation Sorted.
From Stdlib Require DecimalFacts DecimalPos.
Import ListNotations.

Local Open Scope Z_scope.

(* ================================================================== *)
(** * Python data *)

Definition str := list N.
Definition bytes := list Byte.byte.

(** A literal of the source as a Python [str]. *)
Definition pystr (s : string) : str :=
  List.map Byte.to_N (list_byte_of_string s).

Fixpoint str_eqb (a b : str) : bool :=
  match a, b with
  | [], [] => true
  | x :: a', y :: b' => N.eqb x y && str_eqb a' b'
  | _, _ => false
  end.

#[local] Unset Elimination Schemes.
Inductive pyval (F : Type) : Type :=
| PNone
| PBool (b : bool)
| PInt (z : Z)
| PFloat (f : F)
| PStr (s : str)
| PList (l : list (pyval F))
| PDict (d : list (str * pyval F)).
#[local] Set Elimination Schemes.

Arguments PNone {F}.
Arguments PBool {F} b.
Arguments PInt {F} z.
Arguments PFloat {F} f.
Arguments PStr {F} s.
Arguments PList {F} l.
Arguments PDict {F} d.

(** [json.dumps] and [json.loads] of the Python standard library. [None] is
    a raised [JSONDecodeError] (or [ValueError]). *)
Class JsonCodec (F : Type) := {
  json_dumps : pyval F -> str;
  json_loads : str -> option (pyval F)
}.

Section PyDict.
Context {F : Type}.

(** [d[k]] lookup in an insertion-ordered dict. *)
Fixpoint dict_get (d : list (str * pyval F)) (k : str) : option (pyval F) :=
  match d with
  | [] => None
  | (k', v) :: r => if str_eqb k' k then Some v else dict_get r k
  end.

(** [d[k] = v]: an existing key keeps its position, a new one goes last. *)
Fixpoint dict_set (d : list (str * pyval F)) (k : str) (v : pyval F)
  : list (str * pyval F) :=
  match d with
  | [] => [(k, v)]
  | (k', v') :: r =>
      if str_eqb k' k then (k', v) :: r else (k', v') :: dict_set r k v
  end.

(** [obj[k] = v]; on anything but a dict Python raises [TypeError]. *)
Definition py_setitem (obj : pyval F) (k : str) (v : pyval F)
  : option (pyval F) :=
  match obj with
  | PDict d => Some (PDict (dict_set d k v))
  | _ => None
  end.

(** [obj.get(k, default)]; only a dict has the method
    ([AttributeError] otherwise). *)
Definition py_get (obj : pyval F) (k : str) (default : pyval F)
  : option (pyval F) :=
  match obj with
  | PDict d =>
      Some (match dict_get d k with Some v => v | None => default end)
  | _ => None
  end.

Definition dict_keys (d : list (str * pyval F)) : list str :=
  List.map fst d.
End PyDict.

(* ================================================================== *)
(** * [bytes.decode()]: strict UTF-8 *)

Definition is_cont (b : N) : bool := (128 <=? b)%N && (b <? 192)%N.

Fixpoint utf8_decode_N (fuel : nat) (bs : list N) : option str :=
  match fuel with
  | O => match bs with [] => Some [] | _ => None end
  | S fuel' =>
      match bs with
      | [] => Some []
      | b0 :: r0 =>
          if (b0 <? 128)%N then
            option_map (cons b0) (utf8_decode_N fuel' r0)
          else if (b0 <? 194)%N then None
          else if (b0 <? 224)%N then
            match r0 with
            | b1 :: r1 =>
                if is_cont b1 then
                  option_map (cons ((b0 - 192) * 64 + (b1 - 128))%N)
                             (utf8_decode_N fuel' r1)
                else None
            | _ => None
            end
          else if (b0 <? 240)%N then
            match r0 with
            | b1 :: b2 :: r2 =>
                let c := ((b0 - 224) * 4096 + (b1 - 128) * 64 + (b2 - 128))%N in
                if is_cont b1 && is_cont b2 && (2048 <=? c)%N
                   && negb ((55296 <=? c)%N && (c <? 57344)%N) then
                  option_map (cons c) (utf8_decode_N fuel' r2)
                else None
            | _ => None
            end
          else if (b0 <? 245)%N then
            match r0 with
            | b1 :: b2 :: b3 :: r3 =>
                let c := ((b0 - 240) * 262144 + (b1 - 128) * 4096
                          + (b2 - 128) * 64 + (b3 - 128))%N in
                if is_cont b1 && is_cont b2 && is_cont b3
                   && (65536 <=? c)%N && (c <? 1114112)%N then
                  option_map (cons c) (utf8_decode_N fuel' r3)
                else None
            | _ => None
            end
          else None
      end
  end.

(** [payload.decode()]; [None] is [UnicodeDecodeError]. *)
Definition bytes_decode (b : bytes) : option str :=
  utf8_decode_N (List.length b) (List.map Byte.to_N b).

(* ================================================================== *)
(** * Configuration *)

Record Config := {
  LOCAL_TOPIC : str;
  CLOUD_TOPIC : str;
  CLOUD_ALARMS_TOPIC : str;
  REALTIME_MODE : bool;
  BATCH_SIZE : Z;
  BATCH_TIMEOUT : Z;
  RETRY_INTERVAL : Z;
  EDGE_ID : str;
  EDGE_NAME : str;
  EDGE_LOCATION : str
}.

Definition default_config : Config := {|
  LOCAL_TOPIC := pystr "agrisense/sensors/data";
  CLOUD_TOPIC := pystr "agrisense/sensors/data";
  CLOUD_ALARMS_TOPIC := pystr "agrisense/alarms";
  REALTIME_MODE := true;
  BATCH_SIZE := 1;
  BATCH_TIMEOUT := 2;
  RETRY_INTERVAL := 5;
  EDGE_ID := pystr "edge-rpi-001";
  EDGE_NAME := pystr "AgriSense Gateway";
  EDGE_LOCATION := pystr "Greenhouse-A"
|}.

(* ================================================================== *)
(** * The environment: clocks and brokers *)

(** One reading of the three clocks the source consults. *)
Record clock := {
  time_time : Q;            (* time.time() *)
  now_isoformat : str;      (* datetime.now().isoformat() *)
  current_timestamp : Z     (* SQLite CURRENT_TIMESTAMP, in seconds *)
}.

(** What one [client.publish(...)] does: it returns a result whose [rc] is
    given, or it raises. *)
Inductive pub_outcome := Returned (rc : Z) | Raised.

Definition MQTT_ERR_SUCCESS : Z := 0.

(** The outcome of the n-th publish on each client, n counting from 0. *)
Record network := {
  cloud_outcome : nat -> pub_outcome;
  local_outcome : nat -> pub_outcome
}.

(* ================================================================== *)
(** * Offline queue (SQLite) *)

Record row := {
  row_id : Z;
  row_data : str;
  row_created_at : Z;
  row_status : str
}.

Record OfflineQueue := {
  reading_queue : list row;     (* the table, in rowid order *)
  sqlite_sequence : Z           (* largest rowid AUTOINCREMENT has given out *)
}.

Definition status_pending : str := pystr "pending".

Definition is_pending (r : row) : bool := str_eqb (row_status r) status_pending.

Definition max_rowid (rows : list row) : Z :=
  fold_right (fun r m => Z.max (row_id r) m) 0 rows.

(** AUTOINCREMENT: one more than every rowid that ever existed. *)
Definition next_rowid (q : OfflineQueue) : Z :=
  Z.max (max_rowid (reading_queue q)) (sqlite_sequence q) + 1.

(** [ORDER BY created_at ASC]: rows of equal [created_at] stay in the order
    of the table scan, which is rowid order. *)
Fixpoint insert_by_created_at (r : row) (l : list row) : list row :=
  match l with
  | [] => [r]
  | x :: t =>
      if row_created_at r <=? row_created_at x then r :: l
      else x :: insert_by_created_at r t
  end.

Definition order_by_created_at (l : list row) : list row :=
  fold_right insert_by_created_at [] l.

(** [LIMIT n]: a negative [n] is no limit. *)
Definition sql_limit {A} (n : Z) (l : list A) : list A :=
  if n <? 0 then l else firstn (Z.to_nat n) l.

Definition fits_int64 (n : Z) : bool :=
  (- 2 ^ 63 <=? n) && (n <? 2 ^ 63).

(** One element of the list [get_pending] returns:
    [{'id': row[0], 'data': json.loads(row[1])}]. *)
Record item (F : Type) := {
  item_id : Z;
  item_data : pyval F
}.
Arguments item_id {F} i.
Arguments item_data {F} i.

Section Queue.
Context {F : Type} {codec : JsonCodec F}.

Definition enqueue (q : OfflineQueue) (data : pyval F) (created : Z)
  : Z * OfflineQueue :=
  let queue_id := next_rowid q in
  (queue_id,
   {| reading_queue :=
        reading_queue q ++
        [ {| row_id := queue_id;
             row_data := json_dumps data;
             row_created_at := created;
             row_status := status_pending |} ];
      sqlite_sequence := queue_id |}).

Definition select_pending (q : OfflineQueue) (limit : Z) : list row :=
  sql_limit limit (order_by_created_at (filter is_pending (reading_queue q))).

Fixpoint load_rows (rows : list row) : option (list (item F)) :=
  match rows with
  | [] => Some []
  | r :: t =>
      match json_loads (row_data r) with
      | None => None
      | Some d =>
          match load_rows t with
          | None => None
          | Some res => Some ({| item_id := row_id r; item_data := d |} :: res)
          end
      end
  end.

(** [None]: the call raises ([OverflowError] on a limit SQLite cannot
    hold, or the error of [json.loads] on a stored text).  The queue is
    not an output: the call writes nothing. *)
Definition get_pending (q : OfflineQueue) (limit : Z)
  : option (list (item F)) :=
  if fits_int64 limit then load_rows (select_pending q limit) else None.

(** What [sqlite3] binds to the placeholders of one statement: 64-bit
    integers ([OverflowError] on any other, before the statement runs),
    and no more of them than [SQLITE_MAX_VARIABLE_NUMBER] (999 in the
    builds before SQLite 3.32, 32766 since).  The one caller, the drain,
    passes ids it has read from the table, at most 50 a turn; a call
    outside these bounds raises and deletes nothing, and is not a call the
    function below describes. *)
Definition SQLITE_MAX_VARIABLE_NUMBER : nat := 999.

Definition mark_sent (q : OfflineQueue) (ids : list Z) : OfflineQueue :=
  match ids with
  | [] => q
  | _ =>
      {| reading_queue :=
           filter (fun r => negb (existsb (Z.eqb (row_id r)) ids))
                  (reading_queue q);
         sqlite_sequence := sqlite_sequence q |}
  end.

Definition get_count (q : OfflineQueue) : Z :=
  Z.of_nat (List.length (filter is_pending (reading_queue q))).
End Queue.

(* ================================================================== *)
(** * Cloud sync service *)

Inductive log_level := DEBUG | INFO | WARNING | ERROR.

Record stats_t := {
  readings_received : Z;
  readings_sent : Z;
  readings_queued : Z;
  connection_errors : Z;
  last_sync : option str
}.

(** An inbound MQTT message. *)
Record message := {
  msg_topic : str;
  msg_payload : bytes
}.

(** The fields of [CloudSyncService], and the observable effects: the calls
    made to [cloud_client.publish] and [local_client.publish] (topic and
    payload text, oldest first) and the log lines (level and the fixed part
    of the message). *)
Record CloudSyncService (F : Type) := {
  offline_queue : OfflineQueue;
  cloud_connected : bool;
  local_connected : bool;
  running : bool;
  batch_buffer : list (pyval F);
  last_batch_time : Q;
  stats : stats_t;
  cloud_published : list (str * str);
  local_published : list (str * str);
  log : list (log_level * string)
}.
Arguments offline_queue {F} c.
Arguments cloud_connected {F} c.
Arguments local_connected {F} c.
Arguments running {F} c.
Arguments batch_buffer {F} c.
Arguments last_batch_time {F} c.
Arguments stats {F} c.
Arguments cloud_published {F} c.
Arguments local_published {F} c.
Arguments log {F} c.

Definition ALARMS_TOPIC : str := pystr "agrisense/alarms".
Definition COMMANDS_TOPIC : str := pystr "agrisense/commands".

Section Service.
Context {F : Type} {codec : JsonCodec F}.
Variable cfg : Config.
Variable net : network.

Abbreviation service := (CloudSyncService F).

(** ** Field updates *)

Definition set_offline_queue (q : OfflineQueue) (s : service) : service :=
  {| offline_queue := q; cloud_connected := cloud_connected s;
     local_connected := local_connected s; running := running s;
     batch_buffer := batch_buffer s; last_batch_time := last_batch_time s;
     stats := stats s; cloud_published := cloud_published s;
     local_published := local_published s; log := log s |}.

Definition set_cloud_connected (b : bool) (s : service) : service :=
  {| offline_queue := offline_queue s; cloud_connected := b;
     local_connected := local_connected s; running := running s;
     batch_buffer := batch_buffer s; last_batch_time := last_batch_time s;
     stats := stats s; cloud_published := cloud_published s;
     local_published := local_published s; log := log s |}.

Definition set_local_connected (b : bool) (s : service) : service :=
  {| offline_queue := offline_queue s; cloud_connected := cloud_connected s;
     local_connected := b; running := running s;
     batch_buffer := batch_buffer s; last_batch_time := last_batch_time s;
     stats := stats s; cloud_published := cloud_published s;
     local_published := local_published s; log := log s |}.

Definition set_batch (buf : list (pyval F)) (t : Q) (s : service) : service :=
  {| offline_queue := offline_queue s; cloud_connected := cloud_connected s;
     local_connected := local_connected s; running := running s;
     batch_buffer := buf; last_batch_time := t;
     stats := stats s; cloud_published := cloud_published s;
     local_published := local_published s; log := log s |}.

Definition set_stats (st : stats_t) (s : service) : service :=
  {| offline_queue := offline_queue s; cloud_connected := cloud_connected s;
     local_connected := local_connected s; running := running s;
     batch_buffer := batch_buffer s; last_batch_time := last_batch_time s;
     stats := st; cloud_published := cloud_published s;
     local_published := local_published s; log := log s |}.

Definition set_cloud_published (l : list (str * str)) (s : service) : service :=
  {| offline_queue := offline_queue s; cloud_connected := cloud_connected s;
     local_connected := local_connected s; running := running s;
     batch_buffer := batch_buffer s; last_batch_time := last_batch_time s;
     stats := stats s; cloud_published := l;
     local_published := local_published s; log := log s |}.

Definition set_local_published (l : list (str * str)) (s : service) : service :=
  {| offline_queue := offline_queue s; cloud_connected := cloud_connected s;
     local_connected := local_connected s; running := running s;
     batch_buffer := batch_buffer s; last_batch_time := last_batch_time s;
     stats := stats s; cloud_published := cloud_published s;
     local_published := l; log := log s |}.

Definition logger (lvl : log_level) (text : string) (s : service) : service :=
  {| offline_queue := offline_queue s; cloud_connected := cloud_connected s;
     local_connected := local_connected s; running := running s;
     batch_buffer := batch_buffer s; last_batch_time := last_batch_time s;
     stats := stats s; cloud_published := cloud_published s;
     local_published := local_published s;
     log := log s ++ [(lvl, text)] |}.

Definition incr_received (st : stats_t) : stats_t :=
  {| readings_received := readings_received st + 1;
     readings_sent := readings_sent st;
     readings_queued := readings_queued st;
     connection_errors := connection_errors st;
     last_sync := last_sync st |}.

Definition incr_sent (st : stats_t) : stats_t :=
  {| readings_received := readings_received st;
     readings_sent := readings_sent st + 1;
     readings_queued := readings_queued st;
     connection_errors := connection_errors st;
     last_sync := last_sync st |}.

Definition incr_queued (st : stats_t) : stats_t :=
  {| readings_received := readings_received st;
     readings_sent := readings_sent st;
     readings_queued := readings_queued st + 1;
     connection_errors := connection_errors st;
     last_sync := last_sync st |}.

Definition incr_connection_errors (st : stats_t) : stats_t :=
  {| readings_received := readings_received st;
     readings_sent := readings_sent st;
     readings_queued := readings_queued st;
     connection_errors := connection_errors st + 1;
     last_sync := last_sync st |}.

Definition set_last_sync (t : str) (st : stats_t) : stats_t :=
  {| readings_received := readings_received st;
     readings_sent := readings_sent st;
     readings_queued := readings_queued st;
     connection_errors := connection_errors st;
     last_sync := Some t |}.

(** ** The two MQTT clients *)

Definition cloud_client_publish (s : service) (topic payload : str)
  : pub_outcome * service :=
  (cloud_outcome net (List.length (cloud_published s)),
   set_cloud_published (cloud_published s ++ [(topic, payload)]) s).

Definition local_client_publish (s : service) (topic payload : str)
  : pub_outcome * service :=
  (local_outcome net (List.length (local_published s)),
   set_local_published (local_published s ++ [(topic, payload)]) s).

(** ** [_send_to_cloud] *)

(** [{'topic': topic, 'payload': payload}] *)
Definition queued_record (topic : str) (payload : pyval F) : pyval F :=
  PDict [(pystr "topic", PStr topic); (pystr "payload", payload)].

(** [self.offline_queue.enqueue({...}); self.stats['readings_queued'] += 1] *)
Definition queue_for_later (clk : clock) (topic : str) (payload : pyval F)
           (s : service) : service :=
  let q := snd (enqueue (offline_queue s) (queued_record topic payload)
                        (current_timestamp clk)) in
  set_stats (incr_queued (stats s)) (set_offline_queue q s).

Definition _send_to_cloud (clk : clock) (s : service) (topic : str)
           (payload : pyval F) : bool * service :=
  if negb (cloud_connected s) then
    (false,
     logger WARNING "Cloud offline - queued reading"
            (queue_for_later clk topic payload s))
  else
    match cloud_client_publish s topic (json_dumps payload) with
    | (Returned rc, s1) =>
        if rc =? MQTT_ERR_SUCCESS then
          (true,
           set_stats (set_last_sync (now_isoformat clk)
                                    (incr_sent (stats s1))) s1)
        else
          (false, queue_for_later clk topic payload s1)
    | (Raised, s1) =>
        (false,
         queue_for_later clk topic payload
                         (logger ERROR "Error sending to cloud" s1))
    end.

(** ** [_handle_local_message] *)

(** [json.loads(msg.payload.decode())] *)
Definition decode_message (msg : message) : option (pyval F) :=
  match bytes_decode (msg_payload msg) with
  | None => None
  | Some text => json_loads text
  end.

(** The four item assignments; [None] is the [TypeError] of the first one
    on a payload that is not a dict. *)
Definition add_edge_metadata (clk : clock) (payload : pyval F)
  : option (pyval F) :=
  match py_setitem payload (pystr "edge_id") (PStr (EDGE_ID cfg)) with
  | None => None
  | Some p1 =>
  match py_setitem p1 (pystr "edge_name") (PStr (EDGE_NAME cfg)) with
  | None => None
  | Some p2 =>
  match py_setitem p2 (pystr "edge_location") (PStr (EDGE_LOCATION cfg)) with
  | None => None
  | Some p3 =>
      py_setitem p3 (pystr "received_at") (PStr (now_isoformat clk))
  end end end.

Definition _handle_local_message (clk : clock) (s : service) (msg : message)
  : service :=
  match bytes_decode (msg_payload msg) with
  | None =>
      (* UnicodeDecodeError: except Exception *)
      logger ERROR "Error handling local message" s
  | Some text =>
  match json_loads text with
  | None =>
      (* except json.JSONDecodeError *)
      logger ERROR "Invalid JSON from local broker" s
  | Some payload0 =>
      let s1 := set_stats (incr_received (stats s)) s in
      match add_edge_metadata clk payload0 with
      | None =>
          (* TypeError: except Exception *)
          logger ERROR "Error handling local message" s1
      | Some payload =>
          if str_eqb (msg_topic msg) ALARMS_TOPIC then
            let '(success, s2) :=
              _send_to_cloud clk s1 (CLOUD_ALARMS_TOPIC cfg) payload in
            if success then logger WARNING "ALARM sent to cloud" s2
            else logger ERROR "ALARM queued (cloud offline)" s2
          else if REALTIME_MODE cfg then
            let '(success, s2) :=
              _send_to_cloud clk s1 (CLOUD_TOPIC cfg) payload in
            if success then
              logger INFO "    Air Quality"
                (logger INFO "    Light"
                  (logger INFO "    Temp"
                    (logger INFO "Sent ALL sensor data to cloud" s2)))
            else logger WARNING "Queued (cloud offline)" s2
          else
            logger DEBUG "Buffered reading"
              (set_batch (batch_buffer s1 ++ [payload])
                         (last_batch_time s1) s1)
      end
  end end.

(** ** [_handle_cloud_message] *)

Definition _handle_cloud_message (s : service) (msg : message) : service :=
  match decode_message msg with
  | None => logger ERROR "Error handling cloud message" s
  | Some payload =>
      let s1 := logger INFO "Received command from cloud" s in
      if local_connected s1 then
        match local_client_publish s1 COMMANDS_TOPIC (json_dumps payload) with
        | (Returned _, s2) => s2
        | (Raised, s2) => logger ERROR "Error handling cloud message" s2
        end
      else s1
  end.

(** ** [_batch_sender_loop] and [_send_batch] *)

(** The test the loop makes under [batch_lock], [now] being [time.time()]. *)
Definition should_send (s : service) (now : Q) : bool :=
  if BATCH_SIZE cfg <=? Z.of_nat (List.length (batch_buffer s)) then true
  else if 0 <? Z.of_nat (List.length (batch_buffer s)) then
    Qle_bool (inject_Z (BATCH_TIMEOUT cfg)) (now - last_batch_time s)
  else false.

Definition batch_payload (clk : clock) (batch : list (pyval F)) : pyval F :=
  PDict [ (pystr "edge_id", PStr (EDGE_ID cfg));
          (pystr "edge_name", PStr (EDGE_NAME cfg));
          (pystr "batch_size", PInt (Z.of_nat (List.length batch)));
          (pystr "batch_time", PStr (now_isoformat clk));
          (pystr "readings", PList batch) ].

Definition _send_batch (clk : clock) (s : service) : service :=
  match batch_buffer s with
  | [] => s
  | batch =>
      let s1 := set_batch [] (time_time clk) s in
      let '(success, s2) :=
        _send_to_cloud clk s1 (CLOUD_TOPIC cfg) (batch_payload clk batch) in
      if success then logger INFO "Sent batch of readings to cloud" s2
      else logger WARNING "Failed to send batch - queued readings" s2
  end.

(** One turn of the loop, after its [time.sleep(1)]. *)
Definition _batch_sender_iteration (clk : clock) (s : service) : service :=
  if should_send s (time_time clk) then _send_batch clk s else s.

(** [_batch_sender_loop], run on its own: the loop goes on while [running]
    holds; [clocks] are the readings of the clock after each
    [time.sleep(1)]. *)
Fixpoint _batch_sender_loop (clocks : list clock) (s : service) : service :=
  match clocks with
  | [] => s
  | clk :: later =>
      if running s then _batch_sender_loop later (_batch_sender_iteration clk s)
      else s
  end.

(** ** [_offline_queue_processor] *)

(** The body of [for item in pending]; the result is the state and
    [sent_ids] when the loop is left, by exhaustion or by [break]. *)
Fixpoint drain_items (s : service) (pending : list (item F))
         (sent_ids : list Z) : service * list Z :=
  match pending with
  | [] => (s, sent_ids)
  | it :: rest =>
      let stop (s' : service) :=
        (logger ERROR "Error processing queued item" s', sent_ids) in
      match py_get (item_data it) (pystr "topic") (PStr (CLOUD_TOPIC cfg)) with
      | None => stop s
      | Some topic =>
      match py_get (item_data it) (pystr "payload") (item_data it) with
      | None => stop s
      | Some payload =>
      match topic with
      | PStr t =>
          match cloud_client_publish s t (json_dumps payload) with
          | (Returned rc, s1) =>
              if rc =? MQTT_ERR_SUCCESS then
                drain_items (set_stats (incr_sent (stats s1)) s1) rest
                            (sent_ids ++ [item_id it])
              else
                drain_items s1 rest sent_ids
          | (Raised, s1) => stop s1
          end
      | _ =>
          (* the client rejects a topic that is not a str by raising *)
          stop s
      end end end
  end.

(** One turn of the loop, after its [time.sleep(RETRY_INTERVAL)].
    [None]: [get_pending] raised, which nothing catches. *)
Definition _offline_queue_cycle (s : service) : option service :=
  if negb (cloud_connected s) then Some s
  else
    match get_pending (offline_queue s) 50 with
    | None => None
    | Some [] => Some s
    | Some pending =>
        let s0 := logger INFO "Processing queued readings..." s in
        let '(s1, sent_ids) := drain_items s0 pending [] in
        match sent_ids with
        | [] => Some s1
        | _ =>
            Some (logger INFO "Cleared readings from offline queue"
                    (set_offline_queue
                       (mark_sent (offline_queue s1) sent_ids) s1))
        end
    end.

(** [_offline_queue_processor], run on its own for at most [turns] turns of
    its loop. *)
Fixpoint _offline_queue_processor (turns : nat) (s : service)
  : option service :=
  match turns with
  | O => Some s
  | S n =>
      if running s then
        match _offline_queue_cycle s with
        | Some s' => _offline_queue_processor n s'
        | None => None
        end
      else Some s
  end.

(** ** Connection callbacks *)

Definition cloud_on_connect (rc : Z) (s : service) : service :=
  if rc =? 0 then
    logger INFO "Connected to cloud MQTT broker" (set_cloud_connected true s)
  else
    set_stats (incr_connection_errors (stats s))
              (logger ERROR "Cloud MQTT connection failed" s).

Definition cloud_on_disconnect (s : service) : service :=
  logger WARNING "Disconnected from cloud MQTT broker"
         (set_cloud_connected false s).

Definition local_on_connect (rc : Z) (s : service) : service :=
  if rc =? 0 then
    logger INFO "  Subscribed to: agrisense/alarms (Node-RED alarms)"
      (logger INFO "  Subscribed to"
        (logger INFO "Connected to local MQTT broker"
                (set_local_connected true s)))
  else logger ERROR "Local MQTT connection failed" s.

Definition local_on_disconnect (s : service) : service :=
  logger WARNING "Disconnected from local MQTT broker"
         (set_local_connected false s).

(** ** The service as a transition system *)

(** What the threads of the service do, one atomic step each. *)
Inductive event :=
| LocalMessage (msg : message)
| CloudMessage (msg : message)
| BatchTick
| DrainTick
| CloudConnect (rc : Z)
| CloudDisconnect
| LocalConnect (rc : Z)
| LocalDisconnect.

(** A drain turn that raises ends its thread and leaves the state as it
    was. *)
Definition step (s : service) (e : clock * event) : service :=
  let '(clk, ev) := e in
  match ev with
  | LocalMessage msg => _handle_local_message clk s msg
  | CloudMessage msg => _handle_cloud_message s msg
  | BatchTick => _batch_sender_iteration clk s
  | DrainTick =>
      match _offline_queue_cycle s with Some s' => s' | None => s end
  | CloudConnect rc => cloud_on_connect rc s
  | CloudDisconnect => cloud_on_disconnect s
  | LocalConnect rc => local_on_connect rc s
  | LocalDisconnect => local_on_disconnect s
  end.

Definition run (s : service) (es : list (clock * event)) : service :=
  fold_left step es s.
End Service.

(** [CloudSyncService.__init__] over a queue file as found on disk, at
    clock reading [t0]. *)
Definition init_service {F : Type} (q : OfflineQueue) (t0 : Q)
  : CloudSyncService F :=
  {| offline_queue := q;
     cloud_connected := false;
     local_connected := false;
     running := false;
     batch_buffer := [];
     last_batch_time := t0;
     stats := {| readings_received := 0; readings_sent := 0;
                 readings_queued := 0; connection_errors := 0;
                 last_sync := None |};
     cloud_published := [];
     local_published := [];
     log := [] |}.

Definition empty_queue : OfflineQueue :=
  {| reading_queue := []; sqlite_sequence := 0 |}.

(* ================================================================== *)
(** * Floats

    The float arithmetic of the interpreter is an input of the model, like
    the clock and the brokers.  The code reaches it through the [json]
    package only: [float_repr] is [float.__repr__], which [json.dumps]
    calls on a float, and [float_of_str] is [float(text)], which
    [json.loads] calls on the text of a number with a fraction or an
    exponent and, for the constants [NaN], [Infinity] and [-Infinity], on
    [nan], [inf] and [-inf]; on these texts [float] does not raise. *)

Class PyFloat (F : Type) := {
  float_repr : F -> str;
  float_of_str : str -> F
}.

(* ================================================================== *)
(** * The codec: CPython's [json]

    [dumps] follows [json.dumps] with its defaults ([ensure_ascii=True],
    [allow_nan=True], separators [", "] and [": "], keys in insertion
    order); [loads] follows [json.loads] ([JSONDecoder.decode],
    [scanner.py_make_scanner], [decoder.JSONObject], [JSONArray],
    [py_scanstring] in strict mode).  The recursion limit of the
    interpreter and the limit on the number of digits of an [int] are not
    modelled.  The scanner recurses on a fuel that [loads] sets high enough
    never to run out. *)

Module PyJson.
Local Open Scope N_scope.

(** ** [json.dumps] *)

Definition hex_digit (n : N) : N := if n <? 10 then 48 + n else 87 + n.

(** ['{0:04x}'.format(n)] *)
Definition hex4 (n : N) : str :=
  [ hex_digit ((n / 4096) mod 16); hex_digit ((n / 256) mod 16);
    hex_digit ((n / 16) mod 16); hex_digit (n mod 16) ].

(** [\uXXXX] *)
Definition u_escape (n : N) : str := 92 :: 117 :: hex4 n.

(** The replacement [encode_basestring_ascii] makes for one character:
    [ESCAPE_DCT], the character itself when it is printable ASCII, a
    [\uXXXX] escape, or a surrogate pair of escapes. *)
Definition escape_char (c : N) : str :=
  if c =? 34 then [92; 34]
  else if c =? 92 then [92; 92]
  else if c =? 10 then [92; 110]
  else if c =? 13 then [92; 114]
  else if c =? 9 then [92; 116]
  else if c =? 8 then [92; 98]
  else if c =? 12 then [92; 102]
  else if (32 <=? c) && (c <=? 126) then [c]
  else if c <? 65536 then u_escape c
  else
    let n := c - 65536 in
    u_escape (N.lor 55296 (N.land (N.shiftr n 10) 1023))
    ++ u_escape (N.lor 56320 (N.land n 1023)).

Definition encode_basestring_ascii (s : str) : str :=
  34 :: flat_map escape_char s ++ [34].

Fixpoint uint_chars (d : Decimal.uint) : str :=
  match d with
  | Decimal.Nil => []
  | Decimal.D0 u => 48 :: uint_chars u
  | Decimal.D1 u => 49 :: uint_chars u
  | Decimal.D2 u => 50 :: uint_chars u
  | Decimal.D3 u => 51 :: uint_chars u
  | Decimal.D4 u => 52 :: uint_chars u
  | Decimal.D5 u => 53 :: uint_chars u
  | Decimal.D6 u => 54 :: uint_chars u
  | Decimal.D7 u => 55 :: uint_chars u
  | Decimal.D8 u => 56 :: uint_chars u
  | Decimal.D9 u => 57 :: uint_chars u
  end.

(** [int.__repr__] *)
Definition int_repr (z : Z) : str :=
  match z with
  | Z0 => [48]
  | Zpos p => uint_chars (Pos.to_uint p)
  | Zneg p => 45 :: uint_chars (Pos.to_uint p)
  end.

(** [sep.join(parts)] *)
Fixpoint join (sep : str) (parts : list str) : str :=
  match parts with
  | [] => []
  | [p] => p
  | p :: ps => p ++ sep ++ join sep ps
  end.

Definition item_separator : str := [44; 32].
Definition key_separator : str := [58; 32].

Section Dumps.
Context {F : Type} {floats : PyFloat F}.

(** [floatstr]: [NaN] for a float that differs from itself, [Infinity] and
    [-Infinity] for the two infinities, [float.__repr__] otherwise.  The
    three are told by their [repr], which is [nan], [inf] and [-inf] for
    them and for no other float. *)
Definition floatstr (f : F) : str :=
  let text := float_repr f in
  if str_eqb text (pystr "nan") then pystr "NaN"
  else if str_eqb text (pystr "inf") then pystr "Infinity"
  else if str_eqb text (pystr "-inf") then pystr "-Infinity"
  else text.

Fixpoint dumps (v : pyval F) : str :=
  match v with
  | PNone => pystr "null"
  | PBool true => pystr "true"
  | PBool false => pystr "false"
  | PInt z => int_repr z
  | PFloat f => floatstr f
  | PStr s => encode_basestring_ascii s
  | PList l => 91 :: join item_separator (List.map dumps l) ++ [93]
  | PDict d =>
      123 ::
      join item_separator
        (List.map (fun kv => encode_basestring_ascii (fst kv)
                             ++ key_separator ++ dumps (snd kv)) d)
      ++ [125]
  end.
End Dumps.

(** ** [json.loads] *)

Definition is_ws (c : N) : bool :=
  (c =? 32) || (c =? 9) || (c =? 10) || (c =? 13).

(** [WHITESPACE.match(s, end).end()] *)
Fixpoint skip_ws (s : str) : str :=
  match s with
  | c :: r => if is_ws c then skip_ws r else s
  | [] => []
  end.

Definition is_digit (c : N) : bool := (48 <=? c) && (c <=? 57).

Definition hex_val (c : N) : option N :=
  if (48 <=? c) && (c <=? 57) then Some (c - 48)
  else if (97 <=? c) && (c <=? 102) then Some (c - 87)
  else if (65 <=? c) && (c <=? 70) then Some (c - 55)
  else None.

(** [_decode_uXXXX], on the text that follows [\u]. *)
Definition decode_uXXXX (s : str) : option (N * str) :=
  match s with
  | a :: b :: c :: d :: r =>
      match hex_val a, hex_val b, hex_val c, hex_val d with
      | Some x, Some y, Some z, Some w =>
          Some (((x * 16 + y) * 16 + z) * 16 + w, r)
      | _, _, _, _ => None
      end
  | _ => None
  end.

(** [BACKSLASH] *)
Definition backslash (e : N) : option N :=
  if e =? 34 then Some 34
  else if e =? 92 then Some 92
  else if e =? 47 then Some 47
  else if e =? 98 then Some 8
  else if e =? 102 then Some 12
  else if e =? 110 then Some 10
  else if e =? 114 then Some 13
  else if e =? 116 then Some 9
  else None.

(** A [\u] escape has been read as [uni], [s] follows it: a high surrogate
    followed by the escape of a low one is joined with it. *)
Definition join_surrogates (uni : N) (s : str) : option (N * str) :=
  if (55296 <=? uni) && (uni <=? 56319) then
    match s with
    | 92 :: 117 :: r =>
        match decode_uXXXX r with
        | None => None
        | Some (uni2, r2) =>
            if (56320 <=? uni2) && (uni2 <=? 57343) then
              Some (65536 + N.lor (N.shiftl (uni - 55296) 10) (uni2 - 56320),
                    r2)
            else Some (uni, s)
        end
    | _ => Some (uni, s)
    end
  else Some (uni, s).

(** [py_scanstring(s, end, strict=True)], on the text that follows the
    opening quote: the string and the text after the closing quote. *)
Fixpoint scanstring (fuel : nat) (s : str) : option (str * str) :=
  match fuel with
  | O => None
  | S fuel' =>
      match s with
      | [] => None
      | c :: r =>
          if c =? 34 then Some ([], r)
          else if c =? 92 then
            match r with
            | [] => None
            | e :: r1 =>
                if e =? 117 then
                  match decode_uXXXX r1 with
                  | None => None
                  | Some (uni, r2) =>
                      match join_surrogates uni r2 with
                      | None => None
                      | Some (ch, r3) =>
                          match scanstring fuel' r3 with
                          | None => None
                          | Some (t, rest) => Some (ch :: t, rest)
                          end
                      end
                  end
                else
                  match backslash e with
                  | None => None
                  | Some ch =>
                      match scanstring fuel' r1 with
                      | None => None
                      | Some (t, rest) => Some (ch :: t, rest)
                      end
                  end
            end
          else if c <? 32 then None
          else
            match scanstring fuel' r with
            | None => None
            | Some (t, rest) => Some (c :: t, rest)
            end
      end
  end.

Definition digit_of (c : N) (u : Decimal.uint) : Decimal.uint :=
  if c =? 48 then Decimal.D0 u
  else if c =? 49 then Decimal.D1 u
  else if c =? 50 then Decimal.D2 u
  else if c =? 51 then Decimal.D3 u
  else if c =? 52 then Decimal.D4 u
  else if c =? 53 then Decimal.D5 u
  else if c =? 54 then Decimal.D6 u
  else if c =? 55 then Decimal.D7 u
  else if c =? 56 then Decimal.D8 u
  else Decimal.D9 u.

(** The longest run of digits at the head of [s], and what follows. *)
Fixpoint scan_digits (s : str) : Decimal.uint * str :=
  match s with
  | c :: r =>
      if is_digit c then
        let '(u, rest) := scan_digits r in (digit_of c u, rest)
      else (Decimal.Nil, s)
  | [] => (Decimal.Nil, [])
  end.

(** The longest run of digits at the head of [s], as text, and what
    follows. *)
Fixpoint span_digits (s : str) : str * str :=
  match s with
  | c :: r =>
      if is_digit c then
        let '(ds, rest) := span_digits r in (c :: ds, rest)
      else ([], s)
  | [] => ([], [])
  end.

(** The fraction group of [NUMBER_RE] (a dot and digits) at the head of
    [s]: the text it matches, empty when it does not match, and what
    follows. *)
Definition scan_frac (s : str) : str * str :=
  match s with
  | 46 :: d :: r =>
      if is_digit d then
        let '(ds, rest) := span_digits (d :: r) in (46 :: ds, rest)
      else ([], s)
  | _ => ([], s)
  end.

(** The exponent group of [NUMBER_RE] (e or E, an optional sign, digits)
    at the head of [s], likewise. *)
Definition scan_exp (s : str) : str * str :=
  match s with
  | e :: r =>
      if (e =? 101) || (e =? 69) then
        match r with
        | sg :: r1 =>
            if (sg =? 43) || (sg =? 45) then
              match r1 with
              | d :: _ =>
                  if is_digit d then
                    let '(ds, rest) := span_digits r1 in (e :: sg :: ds, rest)
                  else ([], s)
              | [] => ([], s)
              end
            else if is_digit sg then
              let '(ds, rest) := span_digits r in (e :: ds, rest)
            else ([], s)
        | [] => ([], s)
        end
      else ([], s)
  | [] => ([], s)
  end.

(** The integer part of [NUMBER_RE] at the head of [s] (an optional minus
    sign, then a lone 0 or a digit 1-9 and any digits): its sign, its
    digits and what follows. *)
Definition scan_integer (s : str) : option (bool * Decimal.uint * str) :=
  let '(neg, s1) :=
    match s with
    | 45 :: r => (true, r)
    | _ => (false, s)
    end in
  match s1 with
  | c :: r =>
      if c =? 48 then Some (neg, Decimal.D0 Decimal.Nil, r)
      else if is_digit c then
        let '(u, rest) := scan_digits s1 in Some (neg, u, rest)
      else None
  | [] => None
  end.

(** The text [scan_integer] matched. *)
Definition integer_text (neg : bool) (u : Decimal.uint) : str :=
  (if neg then [45] else []) ++ uint_chars u.

(** The whole of [s] is the text of a number with a fraction or an
    exponent: what [float.__repr__] gives for a finite float. *)
Definition float_literal (s : str) : bool :=
  match scan_integer s with
  | None => false
  | Some (_, _, rest) =>
      let '(frac, rest1) := scan_frac rest in
      let '(exp, rest2) := scan_exp rest1 in
      match frac ++ exp, rest2 with
      | _ :: _, [] => true
      | _, _ => false
      end
  end.

(** [s.startswith(prefix)], with what follows the prefix. *)
Fixpoint strip_prefix (prefix s : str) : option str :=
  match prefix, s with
  | [], _ => Some s
  | p :: ps, c :: r => if p =? c then strip_prefix ps r else None
  | _ :: _, [] => None
  end.

Section Loads.
Context {F : Type} {floats : PyFloat F}.

(** A number at the head of [s]: [int(integer)] when neither fraction nor
    exponent follows the integer part, [float(integer + frac + exp)]
    otherwise. *)
Definition scan_number (s : str) : option (pyval F * str) :=
  match scan_integer s with
  | None => None
  | Some (neg, u, rest) =>
      let '(frac, rest1) := scan_frac rest in
      let '(exp, rest2) := scan_exp rest1 in
      match frac ++ exp with
      | [] =>
          let n := Z.of_N (N.of_uint u) in
          Some (PInt (if neg then (- n)%Z else n), rest)
      | _ :: _ =>
          Some (PFloat (float_of_str (integer_text neg u ++ frac ++ exp)),
                rest2)
      end
  end.

(** [dict(pairs)] *)
Definition dict_of_pairs (pairs : list (str * pyval F))
  : list (str * pyval F) :=
  fold_left (fun d kv => dict_set d (fst kv) (snd kv)) pairs [].

(** [scan_once] with [JSONArray] and [JSONObject].  [scan_elements] is the
    loop of [JSONArray], entered where a value is expected;
    [scan_pairs] is the loop of [JSONObject], entered after the opening
    quote of a key. *)
Fixpoint scan_once (fuel : nat) (s : str) {struct fuel}
  : option (pyval F * str) :=
  match fuel with
  | O => None
  | S fuel' =>
      match s with
      | [] => None
      | c :: r =>
          if c =? 34 then
            match scanstring (List.length r) r with
            | None => None
            | Some (t, rest) => Some (PStr t, rest)
            end
          else if c =? 123 then
            match skip_ws r with
            | c1 :: r1 =>
                if c1 =? 125 then Some (PDict [], r1)
                else if c1 =? 34 then
                  match scan_pairs fuel' r1 with
                  | None => None
                  | Some (pairs, rest) =>
                      Some (PDict (dict_of_pairs pairs), rest)
                  end
                else None
            | [] => None
            end
          else if c =? 91 then
            match skip_ws r with
            | c1 :: r1 =>
                if c1 =? 93 then Some (PList [], r1)
                else
                  match scan_elements fuel' (c1 :: r1) with
                  | None => None
                  | Some (vs, rest) => Some (PList vs, rest)
                  end
            | [] => None
            end
          else
            match strip_prefix (pystr "null") s with
            | Some rest => Some (PNone, rest)
            | None =>
            match strip_prefix (pystr "true") s with
            | Some rest => Some (PBool true, rest)
            | None =>
            match strip_prefix (pystr "false") s with
            | Some rest => Some (PBool false, rest)
            | None =>
            match scan_number s with
            | Some res => Some res
            | None =>
            match strip_prefix (pystr "NaN") s with
            | Some rest => Some (PFloat (float_of_str (pystr "nan")), rest)
            | None =>
            match strip_prefix (pystr "Infinity") s with
            | Some rest => Some (PFloat (float_of_str (pystr "inf")), rest)
            | None =>
            match strip_prefix (pystr "-Infinity") s with
            | Some rest => Some (PFloat (float_of_str (pystr "-inf")), rest)
            | None => None
            end end end end end end end
      end
  end

with scan_elements (fuel : nat) (s : str) {struct fuel}
  : option (list (pyval F) * str) :=
  match fuel with
  | O => None
  | S fuel' =>
      match scan_once fuel' s with
      | None => None
      | Some (v, r) =>
          match skip_ws r with
          | c :: r1 =>
              if c =? 93 then Some ([v], r1)
              else if c =? 44 then
                match scan_elements fuel' (skip_ws r1) with
                | None => None
                | Some (vs, rest) => Some (v :: vs, rest)
                end
              else None
          | [] => None
          end
      end
  end

with scan_pairs (fuel : nat) (s : str) {struct fuel}
  : option (list (str * pyval F) * str) :=
  match fuel with
  | O => None
  | S fuel' =>
      match scanstring (List.length s) s with
      | None => None
      | Some (key, r) =>
          match skip_ws r with
          | c :: r1 =>
              if c =? 58 then
                match scan_once fuel' (skip_ws r1) with
                | None => None
                | Some (v, r2) =>
                    match skip_ws r2 with
                    | c2 :: r3 =>
                        if c2 =? 125 then Some ([(key, v)], r3)
                        else if c2 =? 44 then
                          match skip_ws r3 with
                          | c3 :: r4 =>
                              if c3 =? 34 then
                                match scan_pairs fuel' r4 with
                                | None => None
                                | Some (ps, rest) =>
                                    Some ((key, v) :: ps, rest)
                                end
                              else None
                          | [] => None
                          end
                        else None
                    | [] => None
                    end
                end
              else None
          | [] => None
          end
      end
  end.

(** [s.startswith(u'\ufeff')] *)
Definition starts_with_bom (s : str) : bool :=
  match s with
  | c :: _ => c =? 65279
  | [] => false
  end.

(** [json.loads(s)] for a [str]: no byte order mark, one value between
    optional whitespace, nothing after it. *)
Definition loads (s : str) : option (pyval F) :=
  if starts_with_bom s then None
  else
    match scan_once (2 * List.length s + 1) (skip_ws s) with
    | None => None
    | Some (v, rest) =>
        match skip_ws rest with
        | [] => Some v
        | _ :: _ => None
        end
    end.

#[global] Instance codec : JsonCodec F :=
  {| json_dumps := dumps; json_loads := loads |}.
End Loads.

(** ** Documents that are JSON-representable *)

(** A Unicode scalar value: a code point that is not a surrogate. *)
Definition scalar_value (c : N) : bool :=
  (c <? 55296) || ((57344 <=? c) && (c <? 1114112)).

(** A [str] that is well-formed Unicode text. *)
Definition text_ok (s : str) : bool := forallb scalar_value s.

Fixpoint keys_distinct (ks : list str) : bool :=
  match ks with
  | [] => true
  | k :: r => negb (existsb (str_eqb k) r) && keys_distinct r
  end.

(** What may follow a value in the output of [dumps]: nothing, a comma or a
    closing bracket. *)
Definition follow_ok (rest : str) : Prop :=
  match rest with
  | [] => True
  | c :: _ => c = 44 \/ c = 93 \/ c = 125
  end.

Section Representable.
Context {F : Type} {floats : PyFloat F}.

(** Every string is well-formed text, no dict has a key twice (which a
    Python dict cannot have) and every float is finite (JSON has no text
    for the others). *)
Fixpoint representable (v : pyval F) : bool :=
  match v with
  | PFloat f => float_literal (float_repr f)
  | PStr s => text_ok s
  | PList l => forallb representable l
  | PDict d =>
      keys_distinct (List.map fst d)
      && forallb (fun kv => text_ok (fst kv) && representable (snd kv)) d
  | _ => true
  end.

(** Every float of the document is read back by [float] from its [repr],
    as CPython guarantees of its floats. *)
Fixpoint floats_read_back (v : pyval F) : Prop :=
  match v with
  | PFloat f => float_of_str (float_repr f) = f
  | PList l => fold_right (fun x P => floats_read_back x /\ P) True l
  | PDict d => fold_right (fun kv P => floats_read_back (snd kv) /\ P) True d
  | _ => True
  end.

(** A value whose text, followed by anything that may follow a value, is
    scanned back to the value. *)
Definition scans_back (v : pyval F) : Prop :=
  forall (rest : str) (fuel : nat),
    follow_ok rest ->
    (2 * List.length (dumps v ++ rest) < fuel)%nat ->
    scan_once fuel (dumps v ++ rest) = Some (v, rest).

(** The text of the entries of a dict, from just after the quote that
    opens the first key. *)
Definition entries_tail (d : list (str * pyval F)) (rest : str) : str :=
  match d with
  | [] => rest
  | (k, v) :: d' =>
      flat_map escape_char k ++ 34 :: key_separator ++ dumps v
      ++ match d' with
         | [] => 125 :: rest
         | _ =>
             item_separator
             ++ join item_separator
                  (List.map (fun kv => encode_basestring_ascii (fst kv)
                                       ++ key_separator ++ dumps (snd kv)) d')
             ++ 125 :: rest
         end
  end.
End Representable.
End PyJson.

(* ================================================================== *)
(** * Vocabulary of the statements *)

(** The dict a payload dict [d] has become after the four item assignments
    of [_handle_local_message]. *)
Definition edge_metadata_dict {F : Type} (cfg : Config) (clk : clock)
           (d : list (str * pyval F)) : list (str * pyval F) :=
  dict_set
    (dict_set
       (dict_set
          (dict_set d (pystr "edge_id") (PStr (EDGE_ID cfg)))
          (pystr "edge_name") (PStr (EDGE_NAME cfg)))
       (pystr "edge_location") (PStr (EDGE_LOCATION cfg)))
    (pystr "received_at") (PStr (now_isoformat clk)).

(** Two states that differ at most in the log lines written. *)
Definition same_but_log {F : Type} (a b : CloudSyncService F) : Prop :=
  offline_queue a = offline_queue b
  /\ cloud_connected a = cloud_connected b
  /\ local_connected a = local_connected b
  /\ running a = running b
  /\ batch_buffer a = batch_buffer b
  /\ last_batch_time a = last_batch_time b
  /\ stats a = stats b
  /\ cloud_published a = cloud_published b
  /\ local_published a = local_published b.

(** Rows in [ORDER BY created_at ASC] order. *)
Definition created_le (a b : row) : Prop :=
  row_created_at a <= row_created_at b.

(** The table of a queue whose clock never stepped back between two
    inserts: along the table, rowids increase and [created_at] does not
    decrease. *)
Definition rowid_order_is_time_order (q : OfflineQueue) : Prop :=
  StronglySorted
    (fun a b => row_id a < row_id b /\ row_created_at a <= row_created_at b)
    (reading_queue q).

(** The topic and text the drain loop hands to the cloud client for an
    item; [None] when the loop raises before it can publish. *)
Definition publication_of {F : Type} {codec : JsonCodec F} (cfg : Config)
           (it : item F) : option (str * str) :=
  match py_get (item_data it) (pystr "topic") (PStr (CLOUD_TOPIC cfg)),
        py_get (item_data it) (pystr "payload") (item_data it) with
  | Some (PStr t), Some payload => Some (t, json_dumps payload)
  | _, _ => None
  end.

(** The batch sender has something to flush at clock reading [now]: the
    buffer is not empty, and it is full or the timeout has run out since
    [last_batch_time]. *)
Definition flush_due {F : Type} (cfg : Config) (s : CloudSyncService F)
           (now : Q) : Prop :=
  batch_buffer s <> []
  /\ (BATCH_SIZE cfg <= Z.of_nat (List.length (batch_buffer s))
      \/ (inject_Z (BATCH_TIMEOUT cfg) <= now - last_batch_time s)%Q).

(* ================================================================== *)
(** * More of the offline queue: histories of operations *)

(** A write to the queue: [enqueue(data)] at a reading of the database
    clock, or [mark_sent(ids)]. *)
Inductive queue_op (F : Type) : Type :=
| Enqueue (data : pyval F) (created : Z)
| MarkSent (ids : list Z).
Arguments Enqueue {F} data created.
Arguments MarkSent {F} ids.

(** The queue after the writes, and the ids the calls of [enqueue]
    returned, oldest first. *)
Fixpoint queue_run {F : Type} {codec : JsonCodec F} (q : OfflineQueue)
         (ops : list (queue_op F)) : OfflineQueue * list Z :=
  match ops with
  | [] => (q, [])
  | Enqueue data created :: rest =>
      let '(id, q1) := enqueue q data created in
      let '(q2, ids) := queue_run q1 rest in
      (q2, id :: ids)
  | MarkSent ids :: rest => queue_run (mark_sent q ids) rest
  end.

(** The clock readings of the inserts of a history, oldest first. *)
Fixpoint insert_clocks {F : Type} (ops : list (queue_op F)) : list Z :=
  match ops with
  | [] => []
  | Enqueue _ created :: rest => created :: insert_clocks rest
  | MarkSent _ :: rest => insert_clocks rest
  end.

(** The data of the inserts of a history. *)
Fixpoint insert_data {F : Type} (ops : list (queue_op F)) : list (pyval F) :=
  match ops with
  | [] => []
  | Enqueue data _ :: rest => data :: insert_data rest
  | MarkSent _ :: rest => insert_data rest
  end.

(** The AUTOINCREMENT sequence is not below any rowid of the table, as
    SQLite keeps it. *)
Definition sequence_covers (q : OfflineQueue) : Prop :=
  forall r, In r (reading_queue q) -> row_id r <= sqlite_sequence q.

(** The clock never stepped back between the inserts of a history, nor
    since the rows already stored. *)
Definition clock_never_back {F : Type} (q : OfflineQueue)
           (ops : list (queue_op F)) : Prop :=
  StronglySorted Z.le (insert_clocks ops)
  /\ forall r t, In r (reading_queue q) -> In t (insert_clocks ops) ->
                 row_created_at r <= t.

(** No counter of [b] is below the one of [a], and a [last_sync] that [a]
    has is not lost in [b]. *)
Definition stats_le (a b : stats_t) : Prop :=
  readings_received a <= readings_received b
  /\ readings_sent a <= readings_sent b
  /\ readings_queued a <= readings_queued b
  /\ connection_errors a <= connection_errors b
  /\ (last_sync a <> None -> last_sync b <> None).

(** The connection callbacks of the cloud client, and those of the local
    client. *)
Definition cloud_link_event (e : event) : bool :=
  match e with
  | CloudConnect _ | CloudDisconnect => true
  | _ => false
  end.

Definition local_link_event (e : event) : bool :=
  match e with
  | LocalConnect _ | LocalDisconnect => true
  | _ => false
  end.

(* ================================================================== *)
(** * [str.encode('utf-8')], as the MQTT client applies it to a payload
      that is a [str] *)

Definition utf8_encode_char (c : N) : option (list N) :=
  (if c <? 128 then Some [c]
   else if c <? 2048 then Some [192 + c / 64; 128 + c mod 64]
   else if (55296 <=? c) && (c <? 57344) then None
   else if c <? 65536 then
     Some [224 + c / 4096; 128 + (c / 64) mod 64; 128 + c mod 64]
   else if c <? 1114112 then
     Some [240 + c / 262144; 128 + (c / 4096) mod 64;
           128 + (c / 64) mod 64; 128 + c mod 64]
   else None)%N.

Fixpoint utf8_encode_N (s : str) : option (list N) :=
  match s with
  | [] => Some []
  | c :: r =>
      match utf8_encode_char c, utf8_encode_N r with
      | Some bs, Some rest => Some (bs ++ rest)
      | _, _ => None
      end
  end.

Definition byte_of_N (n : N) : Byte.byte :=
  match Byte.of_N n with
  | Some b => b
  | None => Byte.x00
  end.

(** [None] is [UnicodeEncodeError] (a surrogate in the text). *)
Definition str_encode (s : str) : option bytes :=
  option_map (List.map byte_of_N) (utf8_encode_N s).

(* ================================================================== *)
(** * BLE gateway ([src/raspberry_pi/ble_gateway.py])

    The part of the gateway between a BLE notification and the local
    broker: [notification_handler] and [save_to_database], with the MQTT
    callbacks.  The table [sensor_readings] is the list of the parameter
    tuples of its INSERTs, oldest first (the conversions of SQLite's column
    affinity are not applied); the database file is taken to be reliable. *)

Definition MQTT_TOPIC : str := pystr "agrisense/sensors/data".

(** One INSERT into [sensor_readings]. *)
Record sensor_row (F : Type) := {
  sr_timestamp : str;
  sr_node_id : pyval F;
  sr_location : pyval F;
  sr_temperature : pyval F;
  sr_humidity : pyval F;
  sr_soil : pyval F;
  sr_soil_raw : pyval F;
  sr_light : pyval F;
  sr_light_raw : pyval F;
  sr_air_quality : pyval F;
  sr_air_raw : pyval F;
  sr_received_at : pyval F
}.
Arguments sr_timestamp {F} s.
Arguments sr_node_id {F} s.
Arguments sr_location {F} s.
Arguments sr_temperature {F} s.
Arguments sr_humidity {F} s.
Arguments sr_soil {F} s.
Arguments sr_soil_raw {F} s.
Arguments sr_light {F} s.
Arguments sr_light_raw {F} s.
Arguments sr_air_quality {F} s.
Arguments sr_air_raw {F} s.
Arguments sr_received_at {F} s.

(** The module state of the gateway: [mqtt_connected], [db_connection]
    ([None] before [init_database], then the table), and the effects: the
    calls of [mqtt_client.publish] and the log lines. *)
Record Gateway (F : Type) := {
  mqtt_connected : bool;
  db_connection : option (list (sensor_row F));
  gw_published : list (str * str);
  gw_log : list (log_level * string)
}.
Arguments mqtt_connected {F} g.
Arguments db_connection {F} g.
Arguments gw_published {F} g.
Arguments gw_log {F} g.

Section GatewayModel.
Context {F : Type} {codec : JsonCodec F}.

(** [del d[k]] *)
Definition dict_del (d : list (str * pyval F)) (k : str)
  : list (str * pyval F) :=
  filter (fun kv => negb (str_eqb (fst kv) k)) d.

(** [d.get(k)] *)
Definition dict_get_or_none (d : list (str * pyval F)) (k : str) : pyval F :=
  match dict_get d k with
  | Some v => v
  | None => PNone
  end.

(** [for key, value in inner.items(): outer[key] = value] *)
Definition dict_update (outer inner : list (str * pyval F))
  : list (str * pyval F) :=
  fold_left (fun acc kv => dict_set acc (fst kv) (snd kv)) inner outer.

(** A value the [sqlite3] module binds as a parameter: [None], a bool, an
    int of 64 bits, a float, a str that encodes as UTF-8.  On a list or a
    dict it raises. *)
Definition sqlite_bindable (v : pyval F) : bool :=
  match v with
  | PNone | PBool _ | PFloat _ => true
  | PInt z => fits_int64 z
  | PStr s => forallb PyJson.scalar_value s
  | PList _ | PDict _ => false
  end.

Definition gw_logger (lvl : log_level) (text : string) (g : Gateway F)
  : Gateway F :=
  {| mqtt_connected := mqtt_connected g;
     db_connection := db_connection g;
     gw_published := gw_published g;
     gw_log := gw_log g ++ [(lvl, text)] |}.

Definition set_db_connection (db : option (list (sensor_row F)))
           (g : Gateway F) : Gateway F :=
  {| mqtt_connected := mqtt_connected g;
     db_connection := db;
     gw_published := gw_published g;
     gw_log := gw_log g |}.

Definition set_mqtt_connected (b : bool) (g : Gateway F) : Gateway F :=
  {| mqtt_connected := b;
     db_connection := db_connection g;
     gw_published := gw_published g;
     gw_log := gw_log g |}.

Definition set_gw_published (l : list (str * str)) (g : Gateway F)
  : Gateway F :=
  {| mqtt_connected := mqtt_connected g;
     db_connection := db_connection g;
     gw_published := l;
     gw_log := gw_log g |}.

Definition on_mqtt_connect (rc : Z) (g : Gateway F) : Gateway F :=
  if rc =? 0 then
    gw_logger INFO "Connected to MQTT broker" (set_mqtt_connected true g)
  else gw_logger ERROR "MQTT connection failed" g.

Definition on_mqtt_disconnect (g : Gateway F) : Gateway F :=
  gw_logger WARNING "Disconnected from MQTT broker"
            (set_mqtt_connected false g).

(** [init_database]: the table is created if it does not exist. *)
Definition init_database (on_disk : list (sensor_row F)) (g : Gateway F)
  : Gateway F :=
  gw_logger INFO "Database initialized" (set_db_connection (Some on_disk) g).

(** The parameters of the INSERT of [save_to_database]. *)
Definition sensor_row_of (clk : clock) (sensor_data : list (str * pyval F))
  : sensor_row F :=
  {| sr_timestamp := now_isoformat clk;
     sr_node_id := dict_get_or_none sensor_data (pystr "node_id");
     sr_location := dict_get_or_none sensor_data (pystr "location");
     sr_temperature := dict_get_or_none sensor_data (pystr "temperature");
     sr_humidity := dict_get_or_none sensor_data (pystr "humidity");
     sr_soil := dict_get_or_none sensor_data (pystr "soil");
     sr_soil_raw := dict_get_or_none sensor_data (pystr "soil_raw");
     sr_light := dict_get_or_none sensor_data (pystr "light");
     sr_light_raw := dict_get_or_none sensor_data (pystr "light_raw");
     sr_air_quality := dict_get_or_none sensor_data (pystr "air_quality");
     sr_air_raw := dict_get_or_none sensor_data (pystr "air_raw");
     sr_received_at := dict_get_or_none sensor_data (pystr "received_at") |}.

Definition row_bindable (r : sensor_row F) : bool :=
  forallb PyJson.scalar_value (sr_timestamp r)
  && sqlite_bindable (sr_node_id r) && sqlite_bindable (sr_location r)
  && sqlite_bindable (sr_temperature r) && sqlite_bindable (sr_humidity r)
  && sqlite_bindable (sr_soil r) && sqlite_bindable (sr_soil_raw r)
  && sqlite_bindable (sr_light r) && sqlite_bindable (sr_light_raw r)
  && sqlite_bindable (sr_air_quality r) && sqlite_bindable (sr_air_raw r)
  && sqlite_bindable (sr_received_at r).

Definition save_to_database (clk : clock)
           (sensor_data : list (str * pyval F)) (g : Gateway F) : Gateway F :=
  match db_connection g with
  | None => gw_logger WARNING "Database not initialized - data not saved" g
  | Some table =>
      let r := sensor_row_of clk sensor_data in
      if row_bindable r then set_db_connection (Some (table ++ [r])) g
      else
        (* except Exception *)
        gw_logger ERROR "Failed to save to database" g
  end.

(** The flattening of [notification_handler]: the entries of a nested
    ['data'] dict are assigned into the record, then ['data'] is deleted.
    [None]: ['data'] holds something without [.items()]
    ([AttributeError]). *)
Definition flatten_data (sensor_data : list (str * pyval F))
  : option (list (str * pyval F)) :=
  match dict_get sensor_data (pystr "data") with
  | None => Some sensor_data
  | Some (PDict inner) =>
      Some (dict_del (dict_update sensor_data inner) (pystr "data"))
  | Some _ => None
  end.

(** [notification_handler(sender, data)]; [outcome] tells what the n-th
    call of [mqtt_client.publish] does. *)
Definition notification_handler (outcome : nat -> pub_outcome) (clk : clock)
           (g : Gateway F) (data : bytes) : Gateway F :=
  match bytes_decode data with
  | None => gw_logger ERROR "Error handling notification" g
  | Some payload =>
  match json_loads payload with
  | None => gw_logger ERROR "Invalid JSON" g
  | Some v =>
  match py_setitem v (pystr "received_at") (PStr (now_isoformat clk)) with
  | Some (PDict d) =>
      match flatten_data d with
      | None => gw_logger ERROR "Error handling notification" g
      | Some sensor_data =>
          let g1 := save_to_database clk sensor_data g in
          if mqtt_connected g1 then
            let g2 :=
              set_gw_published
                (gw_published g1
                 ++ [(MQTT_TOPIC, json_dumps (PDict sensor_data))]) g1 in
            match outcome (List.length (gw_published g1)) with
            | Returned _ => gw_logger INFO "Published" g2
            | Raised => gw_logger ERROR "Error handling notification" g2
            end
          else gw_logger WARNING "MQTT not connected - data not published" g1
      end
  | _ => gw_logger ERROR "Error handling notification" g
  end end end.
End GatewayModel.

(* ================================================================== *)
(** * Cloud worker ([src/cloud_setup/server.py])

    [save_to_db] and [on_message].  The table [tagrisense] is the list of
    the committed parameter tuples; whether the server accepts a connection
    and a row is an input.  The first line of the file, [nano
    mqtt_worker.py], is not Python; the functions are modelled as they
    are written below it. *)

Definition MQTT_TOPIC_SENSORS : str := pystr "agrisense/sensors/data".
Definition MQTT_TOPIC_ALARM : str := pystr "agrisense/alarms".

(** One INSERT into [tagrisense]. *)
Record metric_row (F : Type) := {
  mr_node_id : pyval F;
  mr_location : pyval F;
  mr_timestamp : pyval F;
  mr_edge_id : pyval F;
  mr_edge_name : pyval F;
  mr_edge_location : pyval F;
  mr_metric : str;
  mr_value : pyval F
}.
Arguments mr_node_id {F} m.
Arguments mr_location {F} m.
Arguments mr_timestamp {F} m.
Arguments mr_edge_id {F} m.
Arguments mr_edge_name {F} m.
Arguments mr_edge_location {F} m.
Arguments mr_metric {F} m.
Arguments mr_value {F} m.

(** The table and what the worker printed, oldest first. *)
Record Worker (F : Type) := {
  tagrisense : list (metric_row F);
  printed : list string
}.
Arguments tagrisense {F} w.
Arguments printed {F} w.

(** What the database server does on one call to [save_to_db]. *)
Record postgres (F : Type) := {
  connects : bool;                    (* psycopg2.connect succeeds *)
  accepts : metric_row F -> bool      (* cursor.execute of the row succeeds *)
}.
Arguments connects {F} p.
Arguments accepts {F} p.

Definition ignore_keys : list str :=
  [ pystr "node_id"; pystr "location"; pystr "received_at";
    pystr "edge_id"; pystr "edge_name"; pystr "edge_location" ].

Section WorkerModel.
Context {F : Type} {codec : JsonCodec F}.

(** [d.get(k, default)] on a dict. *)
Definition dict_get_default (d : list (str * pyval F)) (k : str)
           (default : pyval F) : pyval F :=
  match dict_get d k with
  | Some v => v
  | None => default
  end.

Definition is_None (v : pyval F) : bool :=
  match v with PNone => true | _ => false end.

(** [value == "N/A"] *)
Definition is_not_available (v : pyval F) : bool :=
  match v with
  | PStr s => str_eqb s (pystr "N/A")
  | _ => false
  end.

(** The test of the loop of [save_to_db]:
    [key not in ignore_keys and value is not None and value != "N/A"]. *)
Definition is_metric (kv : str * pyval F) : bool :=
  negb (existsb (fun k => str_eqb k (fst kv)) ignore_keys)
  && negb (is_None (snd kv))
  && negb (is_not_available (snd kv)).

(** The rows [save_to_db] inserts for a record, in the order of its
    keys. *)
Definition metric_rows (clk : clock) (d : list (str * pyval F))
  : list (metric_row F) :=
  List.map
    (fun kv =>
       {| mr_node_id :=
            dict_get_default d (pystr "node_id") (PStr (pystr "unknown_device"));
          mr_location :=
            dict_get_default d (pystr "location")
                             (PStr (pystr "unknown_location"));
          mr_timestamp :=
            dict_get_default d (pystr "received_at")
                             (PStr (now_isoformat clk));
          mr_edge_id :=
            dict_get_default d (pystr "edge_id") (PStr (pystr "unknown_edge_id"));
          mr_edge_name :=
            dict_get_default d (pystr "edge_name")
                             (PStr (pystr "unknown_edge_name"));
          mr_edge_location :=
            dict_get_default d (pystr "edge_location")
                             (PStr (pystr "unknown_edge_location"));
          mr_metric := fst kv;
          mr_value := snd kv |})
    (filter is_metric d).

Definition print (text : string) (w : Worker F) : Worker F :=
  {| tagrisense := tagrisense w; printed := printed w ++ [text] |}.

(** [save_to_db(data)]: the rows are committed together after the loop; an
    exception before the commit (no connection, [data] without [.get], a
    row the server refuses) leaves the table as it was. *)
Definition save_to_db (pg : postgres F) (clk : clock) (data : pyval F)
           (w : Worker F) : Worker F :=
  if connects pg then
    match data with
    | PDict d =>
        if forallb (accepts pg) (metric_rows clk d) then
          print "Saved data from"
                {| tagrisense := tagrisense w ++ metric_rows clk d;
                   printed := printed w |}
        else print "Database Error" w
    | _ => print "Database Error" w
    end
  else print "Database Error" w.

(** [on_message(client, userdata, msg)] *)
Definition on_message (pg : postgres F) (clk : clock) (w : Worker F)
           (msg : message) : Worker F :=
  match bytes_decode (msg_payload msg) with
  | None => print "Error processing message" w
  | Some payload =>
      if str_eqb (msg_topic msg) MQTT_TOPIC_ALARM then
        print "==="
              (print "ALARM RECEIVED" (print "===" w))
      else if str_eqb (msg_topic msg) MQTT_TOPIC_SENSORS then
        match json_loads payload with
        | None => print "Error processing message" w
        | Some data => save_to_db pg clk data w
        end
      else w
  end.
End WorkerModel.

(* ================================================================== *)
(** * Sample inputs *)

Module Sample.

(** The float arithmetic of the sample inputs.  A float is the number a
    decimal literal denotes, [(-1)^neg * mant * 10^exp] with [mant] not a
    multiple of ten (or zero, with [exp] zero), or one of the three floats
    that are not numbers.  This is what a double does on a literal of at
    most fifteen significant digits within the range of the normal
    doubles, which sensor readings are; on longer literals a double
    rounds, and beyond its range it overflows, where this arithmetic does
    neither. *)
Inductive dfloat :=
| Dnan
| Dinf (neg : bool)
| Dnum (neg : bool) (mant : N) (exp : Z).

Fixpoint strip_zeros (fuel : nat) (m : N) (e : Z) : N * Z :=
  match fuel with
  | O => (m, e)
  | S k =>
      if (m =? 0)%N then (0%N, 0)
      else if (m mod 10 =? 0)%N then strip_zeros k (m / 10)%N (e + 1)
      else (m, e)
  end.

(** The number a run of digits denotes. *)
Definition digits_value (ds : str) : N :=
  N.of_uint (fst (PyJson.scan_digits ds)).

(** The number the exponent group denotes. *)
Definition exp_value (exp : str) : Z :=
  match exp with
  | _ :: 45%N :: ds => - Z.of_N (digits_value ds)
  | _ :: 43%N :: ds => Z.of_N (digits_value ds)
  | _ :: ds => Z.of_N (digits_value ds)
  | [] => 0
  end.

Definition dfloat_of_str (s : str) : dfloat :=
  if str_eqb s (pystr "nan") then Dnan
  else if str_eqb s (pystr "inf") then Dinf false
  else if str_eqb s (pystr "-inf") then Dinf true
  else
    match PyJson.scan_integer s with
    | None => Dnan
    | Some (neg, u, rest) =>
        let '(frac, rest1) := PyJson.scan_frac rest in
        let '(exp, _) := PyJson.scan_exp rest1 in
        let fd := List.tl frac in
        let m := digits_value (PyJson.uint_chars u ++ fd) in
        let e := exp_value exp - Z.of_nat (List.length fd) in
        let '(m', e') := strip_zeros (S (N.to_nat (N.log2 m))) m e in
        Dnum neg m' e'
    end.

(** The exponent as [repr] prints it: a sign and at least two digits. *)
Definition exp_text (x : Z) : str :=
  let ds := PyJson.uint_chars (N.to_uint (Z.abs_N x)) in
  (if x <? 0 then 45%N else 43%N)
    :: (if (List.length ds <? 2)%nat then 48%N :: ds else ds).

(** [float.__repr__]: the digits with the point where it falls, and in
    exponent notation when the point falls more than four places before
    the digits or more than sixteen places after the first. *)
Definition dfloat_repr (f : dfloat) : str :=
  match f with
  | Dnan => pystr "nan"
  | Dinf false => pystr "inf"
  | Dinf true => pystr "-inf"
  | Dnum neg m e =>
      (if neg then [45%N] else [])
      ++ (if (m =? 0)%N then pystr "0.0"
          else
            let ds := PyJson.uint_chars (N.to_uint m) in
            let n := Z.of_nat (List.length ds) in
            let decpt := n + e in
            if (decpt <=? -4) || (16 <? decpt) then
              match ds with
              | d :: r =>
                  d :: (match r with [] => [] | _ => 46%N :: r end)
                  ++ 101%N :: exp_text (decpt - 1)
              | [] => []
              end
            else if decpt <=? 0 then
              pystr "0." ++ repeat 48%N (Z.to_nat (- decpt)) ++ ds
            else if n <=? decpt then
              ds ++ repeat 48%N (Z.to_nat (decpt - n)) ++ pystr ".0"
            else
              firstn (Z.to_nat decpt) ds ++ 46%N :: skipn (Z.to_nat decpt) ds)
  end.

#[global] Instance sample_floats : PyFloat dfloat :=
  {| float_repr := dfloat_repr; float_of_str := dfloat_of_str |}.

Abbreviation jval := (pyval dfloat).
Abbreviation service := (CloudSyncService dfloat).

(** Every publish succeeds. *)
Definition net_ok : network :=
  {| cloud_outcome := fun _ => Returned MQTT_ERR_SUCCESS;
     local_outcome := fun _ => Returned MQTT_ERR_SUCCESS |}.

(** The second publish on the cloud client returns [MQTT_ERR_NO_CONN]. *)
Definition net_second_fails : network :=
  {| cloud_outcome :=
       fun n => if Nat.eqb n 1 then Returned 4 else Returned MQTT_ERR_SUCCESS;
     local_outcome := fun _ => Returned MQTT_ERR_SUCCESS |}.

(** The second publish on the cloud client raises. *)
Definition net_second_raises : network :=
  {| cloud_outcome :=
       fun n => if Nat.eqb n 1 then Raised else Returned MQTT_ERR_SUCCESS;
     local_outcome := fun _ => Returned MQTT_ERR_SUCCESS |}.

Definition clock_at (t : Z) (iso : string) : clock :=
  {| time_time := inject_Z t;
     now_isoformat := pystr iso;
     current_timestamp := t |}.

Definition noon : clock := clock_at 1000 "2024-05-01T12:00:00".
Definition noon_and_a_second : clock := clock_at 1001 "2024-05-01T12:00:01".

(** [{'node_id': n}] *)
Definition reading (n : Z) : jval :=
  PDict [(pystr "node_id", PInt n)].

(** [{'topic': CLOUD_TOPIC, 'payload': {'node_id': n}}] *)
Definition queued (n : Z) : jval :=
  queued_record (CLOUD_TOPIC default_config) (reading n).

(** A JSON text, written with an apostrophe for each double quote. *)
Definition json_text (s : string) : str :=
  List.map (fun c => if (c =? 39)%N then 34%N else c) (pystr s).

(** [{'node_id': 'node-1', 'temperature': 21.5, 'humidity': 40.0}] *)
Definition float_record : list (str * jval) :=
  [ (pystr "node_id", PStr (pystr "node-1"));
    (pystr "temperature", PFloat (Dnum false 215 (-1)));
    (pystr "humidity", PFloat (Dnum false 4 1)) ].

Definition float_reading : jval := PDict float_record.

(** The reading above as [_send_to_cloud] queues it. *)
Definition queued_float_reading : jval :=
  queued_record (CLOUD_TOPIC default_config) float_reading.

(** The text of a value as the bytes of an MQTT payload. *)
Definition payload_bytes (text : str) : bytes :=
  List.map (fun c => match Byte.of_N c with
                     | Some b => b
                     | None => Byte.x3f
                     end) text.

Definition data_msg (n : Z) : message :=
  {| msg_topic := LOCAL_TOPIC default_config;
     msg_payload := payload_bytes (PyJson.dumps (reading n)) |}.

(** The reading with floats, as a sensor node publishes it. *)
Definition float_msg : message :=
  {| msg_topic := LOCAL_TOPIC default_config;
     msg_payload := payload_bytes (PyJson.dumps float_reading) |}.

Definition alarm_msg : message :=
  {| msg_topic := ALARMS_TOPIC;
     msg_payload :=
       payload_bytes
         (PyJson.dumps (PDict [(pystr "violations", PInt 2)])) |}.

(** The payload [{oops] is not JSON. *)
Definition malformed_msg : message :=
  {| msg_topic := LOCAL_TOPIC default_config;
     msg_payload := list_byte_of_string "{oops" |}.

(** The payload [[1]] is JSON, and not an object. *)
Definition list_msg : message :=
  {| msg_topic := LOCAL_TOPIC default_config;
     msg_payload := list_byte_of_string "[1]" |}.

(** A command as a cloud client sends it, without spaces: the seven
    bytes of [{"a":1}]. *)
Definition command_text : str := [123; 34; 97; 34; 58; 49; 125]%N.

Definition command_msg : message :=
  {| msg_topic := pystr "agrisense/commands/edge-rpi-001";
     msg_payload := payload_bytes command_text |}.

(** A service just created over the queue [q], and one whose cloud link
    is up. *)
Definition fresh (q : OfflineQueue) : service := init_service q 0.
Definition online (q : OfflineQueue) : service :=
  set_cloud_connected true (fresh q).

(** Readings 1, 2 and 3 queued at seconds 100, 101 and 102. *)
Definition three_pending : OfflineQueue :=
  snd (enqueue
         (snd (enqueue (snd (enqueue empty_queue (queued 1) 100))
                       (queued 2) 101))
         (queued 3) 102).

(** Reading 1 queued at second 200, then the clock is set back and
    reading 2 is queued at second 100. *)
Definition clock_set_back : OfflineQueue :=
  snd (enqueue (snd (enqueue empty_queue (queued 1) 200)) (queued 2) 100).

(** A table whose only row holds a text that is not JSON. *)
Definition unreadable : OfflineQueue :=
  {| reading_queue :=
       [ {| row_id := 1; row_data := pystr "{oops";
            row_created_at := 100; row_status := status_pending |} ];
     sqlite_sequence := 1 |}.

(** Batched mode with the given size and timeout. *)
Definition batched (size timeout : Z) : Config :=
  {| LOCAL_TOPIC := LOCAL_TOPIC default_config;
     CLOUD_TOPIC := CLOUD_TOPIC default_config;
     CLOUD_ALARMS_TOPIC := CLOUD_ALARMS_TOPIC default_config;
     REALTIME_MODE := false;
     BATCH_SIZE := size;
     BATCH_TIMEOUT := timeout;
     RETRY_INTERVAL := RETRY_INTERVAL default_config;
     EDGE_ID := EDGE_ID default_config;
     EDGE_NAME := EDGE_NAME default_config;
     EDGE_LOCATION := EDGE_LOCATION default_config |}.

(** A service that has been started, its cloud link up. *)
Definition started (q : OfflineQueue) : service :=
  {| offline_queue := q;
     cloud_connected := true;
     local_connected := true;
     running := true;
     batch_buffer := [];
     last_batch_time := 0;
     stats := stats (fresh q);
     cloud_published := [];
     local_published := [];
     log := [] |}.

(** Readings 1 and 2 queued in the same second, reading 1 deleted,
    reading 3 queued five seconds later. *)
Definition history : list (queue_op dfloat) :=
  [ Enqueue (queued 1) 100; Enqueue (queued 2) 100; MarkSent [1];
    Enqueue (queued 3) 105 ].

(** A table whose only row holds a JSON list. *)
Definition holds_a_list : OfflineQueue :=
  {| reading_queue :=
       [ {| row_id := 1; row_data := PyJson.dumps (PList [PInt 1]);
            row_created_at := 100; row_status := status_pending |} ];
     sqlite_sequence := 1 |}.

(** The gateway with its broker connected and an empty table. *)
Definition gateway_up : Gateway dfloat :=
  {| mqtt_connected := true;
     db_connection := Some [];
     gw_published := [];
     gw_log := [] |}.

(** [{'node_id': 'node-1', 'data': {'temperature': 21}}] *)
Definition nested_reading : list (str * jval) :=
  [ (pystr "node_id", PStr (pystr "node-1"));
    (pystr "data", PDict [(pystr "temperature", PInt 21)]) ].

(** The record above, stamped at noon and flattened. *)
Definition flattened_reading : list (str * jval) :=
  [ (pystr "node_id", PStr (pystr "node-1"));
    (pystr "received_at", PStr (now_isoformat noon));
    (pystr "temperature", PInt 21) ].

(** [{'data': 5}] *)
Definition bad_nested_reading : list (str * jval) :=
  [ (pystr "data", PInt 5) ].

(** A BLE notification carrying the record [d]. *)
Definition notification (d : list (str * jval)) : bytes :=
  payload_bytes (PyJson.dumps (PDict d)).

(** A database server that is up and accepts every row. *)
Definition pg_ok : postgres dfloat :=
  {| connects := true; accepts := fun _ => true |}.

Definition worker0 : Worker dfloat :=
  {| tagrisense := []; printed := [] |}.

(** [{'node_id': 'node-1', 'temperature': 21, 'humidity': None}] *)
Definition sensor_record : list (str * jval) :=
  [ (pystr "node_id", PStr (pystr "node-1"));
    (pystr "temperature", PInt 21);
    (pystr "humidity", PNone) ].
End Sample.

(* ================================================================== *)
(** * Properties *)

Local Open Scope Z_scope.

(** ** Strings and dicts *)

Lemma str_eqb_refl (a : str) : str_eqb a a = true.
Proof.
  induction a as [|x a IH]; simpl; [reflexivity|].
  now rewrite N.eqb_refl, IH.
Qed.

Lemma str_eqb_eq (a b : str) : str_eqb a b = true <-> a = b.
Proof.
  split.
  - revert b. induction a as [|x a IH]; destruct b as [|y b]; simpl;
      try discriminate; [reflexivity|].
    intros H. apply andb_true_iff in H as [Hx Hr].
    apply N.eqb_eq in Hx. f_equal; auto.
  - intros ->. apply str_eqb_refl.
Qed.

Lemma str_eqb_neq (a b : str) : str_eqb a b = false <-> a <> b.
Proof.
  rewrite <- str_eqb_eq. destruct (str_eqb a b); split; congruence.
Qed.

Lemma str_eqb_sym (a b : str) : str_eqb a b = str_eqb b a.
Proof.
  destruct (str_eqb a b) eqn:E.
  - apply str_eqb_eq in E. subst. symmetry. apply str_eqb_refl.
  - symmetry. apply str_eqb_neq. apply str_eqb_neq in E. congruence.
Qed.

Section DictFacts.
Context {F : Type}.
Implicit Types (d : list (str * pyval F)) (k : str) (v : pyval F).

Lemma dict_get_set_same d k v : dict_get (dict_set d k v) k = Some v.
Proof.
  induction d as [|[k' v'] d IH]; simpl.
  - now rewrite str_eqb_refl.
  - destruct (str_eqb k' k) eqn:E; simpl; rewrite E; auto.
Qed.

Lemma dict_get_set_other d k k' v :
  k <> k' -> dict_get (dict_set d k v) k' = dict_get d k'.
Proof.
  intros Hne. induction d as [|[k0 v0] d IH]; simpl.
  - apply str_eqb_neq in Hne. now rewrite Hne.
  - destruct (str_eqb k0 k) eqn:E; simpl.
    + apply str_eqb_eq in E. subst k0.
      apply str_eqb_neq in Hne. now rewrite Hne.
    + destruct (str_eqb k0 k'); auto.
Qed.

(** Item assignment neither drops nor reorders the keys already there. *)
Lemma dict_keys_set d k v :
  dict_keys (dict_set d k v) =
  if existsb (str_eqb k) (dict_keys d) then dict_keys d
  else dict_keys d ++ [k].
Proof.
  induction d as [|[k0 v0] d IH]; simpl; [reflexivity|].
  rewrite (str_eqb_sym k k0).
  destruct (str_eqb k0 k) eqn:E; simpl; [reflexivity|].
  unfold dict_keys in *. rewrite IH.
  destruct (existsb (str_eqb k) (List.map fst d)); reflexivity.
Qed.
End DictFacts.

(** ** The offline queue *)

Lemma max_rowid_ge (rows : list row) (r : row) :
  In r rows -> row_id r <= max_rowid rows.
Proof.
  induction rows as [|x rows IH]; simpl; [tauto|].
  intros [->|Hin]; [lia|]. specialize (IH Hin). lia.
Qed.

Lemma next_rowid_fresh (q : OfflineQueue) (r : row) :
  In r (reading_queue q) -> row_id r < next_rowid q.
Proof.
  intros Hin. apply max_rowid_ge in Hin. unfold next_rowid. lia.
Qed.

Section ServiceFacts.
Context {F : Type} {codec : JsonCodec F}.
Implicit Types (s : CloudSyncService F) (payload : pyval F).

(** What [queue_for_later] does to the store: one new pending row, last
    in the table, holding the serialised record. *)
Lemma queue_for_later_rows clk topic payload s :
  reading_queue (offline_queue (queue_for_later clk topic payload s)) =
  reading_queue (offline_queue s) ++
  [ {| row_id := next_rowid (offline_queue s);
       row_data := json_dumps (queued_record topic payload);
       row_created_at := current_timestamp clk;
       row_status := status_pending |} ].
Proof. reflexivity. Qed.

(** C3. Connected, and the publish returns success: the call returns
    [True], the text of the payload has been handed to the cloud client
    once, and the offline queue is exactly what it was. *)
Theorem send_to_cloud_success_leaves_queue
        (net : network) (clk : clock) s (topic : str) payload :
  cloud_connected s = true ->
  cloud_outcome net (List.length (cloud_published s))
    = Returned MQTT_ERR_SUCCESS ->
  fst (_send_to_cloud net clk s topic payload) = true
  /\ offline_queue (snd (_send_to_cloud net clk s topic payload))
     = offline_queue s
  /\ cloud_published (snd (_send_to_cloud net clk s topic payload))
     = cloud_published s ++ [(topic, json_dumps payload)]
  /\ batch_buffer (snd (_send_to_cloud net clk s topic payload))
     = batch_buffer s.
Proof.
  intros Hc Hout. unfold _send_to_cloud, cloud_client_publish.
  rewrite Hc, Hout. simpl. repeat split.
Qed.

(** C4. Not connected: failure, and no call to the cloud client is made.
    On each of the three failure outcomes (not connected, a return code
    other than success, an exception) the call returns [False] and the
    store has gained exactly one row, the serialised
    [{'topic': topic, 'payload': payload}], pending, last in the table. *)
Theorem send_to_cloud_failure_enqueues_once
        (net : network) (clk : clock) s (topic : str) payload :
  cloud_connected s = false
  \/ cloud_outcome net (List.length (cloud_published s))
     <> Returned MQTT_ERR_SUCCESS ->
  fst (_send_to_cloud net clk s topic payload) = false
  /\ offline_queue (snd (_send_to_cloud net clk s topic payload))
     = snd (enqueue (offline_queue s) (queued_record topic payload)
                    (current_timestamp clk))
  /\ reading_queue (offline_queue (snd (_send_to_cloud net clk s topic payload)))
     = reading_queue (offline_queue s) ++
       [ {| row_id := next_rowid (offline_queue s);
            row_data := json_dumps (queued_record topic payload);
            row_created_at := current_timestamp clk;
            row_status := status_pending |} ]
  /\ (cloud_connected s = false ->
      cloud_published (snd (_send_to_cloud net clk s topic payload))
      = cloud_published s).
Proof.
  intros H. unfold _send_to_cloud, cloud_client_publish.
  destruct (cloud_connected s) eqn:Hc; simpl.
  - destruct H as [H|H]; [discriminate|].
    destruct (cloud_outcome net (List.length (cloud_published s)))
      as [rc|] eqn:Hout; simpl.
    + destruct (rc =? MQTT_ERR_SUCCESS) eqn:Hrc.
      * apply Z.eqb_eq in Hrc. subst rc. congruence.
      * simpl. repeat split; discriminate.
    + repeat split; discriminate.
  - repeat split.
Qed.

(** C7. A local message whose payload does not decode ([bytes.decode] or
    [json.loads] raises) is dropped: queue, batch buffer, counters and
    both publish records are what they were, and one ERROR line is
    logged. *)
Theorem undecodable_local_message_dropped
        (cfg : Config) (net : network) (clk : clock) s (msg : message) :
  decode_message msg = None ->
  offline_queue (_handle_local_message cfg net clk s msg) = offline_queue s
  /\ batch_buffer (_handle_local_message cfg net clk s msg) = batch_buffer s
  /\ last_batch_time (_handle_local_message cfg net clk s msg)
     = last_batch_time s
  /\ stats (_handle_local_message cfg net clk s msg) = stats s
  /\ cloud_published (_handle_local_message cfg net clk s msg)
     = cloud_published s
  /\ local_published (_handle_local_message cfg net clk s msg)
     = local_published s
  /\ exists text,
      log (_handle_local_message cfg net clk s msg)
      = log s ++ [(ERROR, text)].
Proof.
  unfold decode_message, _handle_local_message. intros H.
  destruct (bytes_decode (msg_payload msg)) as [text|].
  - rewrite H. simpl. repeat split. eexists. reflexivity.
  - simpl. repeat split. eexists. reflexivity.
Qed.
End ServiceFacts.

(** ** Dispatch of a local message *)

Lemma same_but_log_refl {F : Type} (a : CloudSyncService F) : same_but_log a a.
Proof. unfold same_but_log. tauto. Qed.

Lemma same_but_log_logger {F : Type} lvl text (a b : CloudSyncService F) :
  same_but_log a b -> same_but_log (logger lvl text a) b.
Proof. unfold same_but_log. simpl. tauto. Qed.

Lemma add_edge_metadata_dict {F : Type} (cfg : Config) (clk : clock)
      (d : list (str * pyval F)) :
  add_edge_metadata cfg clk (PDict d) = Some (PDict (edge_metadata_dict cfg clk d)).
Proof. reflexivity. Qed.

Lemma add_edge_metadata_Some {F : Type} (cfg : Config) (clk : clock)
      (p p' : pyval F) :
  add_edge_metadata cfg clk p = Some p' ->
  exists d, p = PDict d /\ p' = PDict (edge_metadata_dict cfg clk d).
Proof.
  destruct p; simpl; try discriminate.
  intros H. injection H as <-. eauto.
Qed.

Section Dispatch.
Context {F : Type} {codec : JsonCodec F}.
Variables (cfg : Config) (net : network).
Implicit Types (s : CloudSyncService F) (msg : message).

Lemma send_to_cloud_batch_buffer clk s topic (payload : pyval F) :
  batch_buffer (snd (_send_to_cloud net clk s topic payload)) = batch_buffer s
  /\ last_batch_time (snd (_send_to_cloud net clk s topic payload))
     = last_batch_time s.
Proof.
  unfold _send_to_cloud, cloud_client_publish.
  destruct (cloud_connected s); simpl; [|split; reflexivity].
  destruct (cloud_outcome net (List.length (cloud_published s))) as [rc|];
    [destruct (rc =? MQTT_ERR_SUCCESS)|]; simpl; split; reflexivity.
Qed.

Lemma decode_message_Some msg (v : pyval F) :
  decode_message msg = Some v ->
  exists text, bytes_decode (msg_payload msg) = Some text
               /\ json_loads text = Some v.
Proof.
  unfold decode_message.
  destruct (bytes_decode (msg_payload msg)) as [text|]; [|discriminate].
  eauto.
Qed.

(** Where a decoded dict goes: to [_send_to_cloud] on the alarms topic,
    to [_send_to_cloud] on the data topic, or onto the batch buffer. *)
Lemma handle_local_dict clk s msg (d : list (str * pyval F)) :
  decode_message msg = Some (PDict d) ->
  let s1 := set_stats (incr_received (stats s)) s in
  let payload := PDict (edge_metadata_dict cfg clk d) in
  same_but_log
    (_handle_local_message cfg net clk s msg)
    (if str_eqb (msg_topic msg) ALARMS_TOPIC then
       snd (_send_to_cloud net clk s1 (CLOUD_ALARMS_TOPIC cfg) payload)
     else if REALTIME_MODE cfg then
       snd (_send_to_cloud net clk s1 (CLOUD_TOPIC cfg) payload)
     else
       set_batch (batch_buffer s ++ [payload]) (last_batch_time s) s1).
Proof.
  intros Hd s1 payload.
  apply decode_message_Some in Hd as (text & Hb & Hj).
  unfold _handle_local_message. rewrite Hb, Hj.
  rewrite add_edge_metadata_dict. fold s1. fold payload.
  destruct (str_eqb (msg_topic msg) ALARMS_TOPIC).
  - destruct (_send_to_cloud net clk s1 (CLOUD_ALARMS_TOPIC cfg) payload)
      as [[|] s2]; simpl; apply same_but_log_logger, same_but_log_refl.
  - destruct (REALTIME_MODE cfg).
    + destruct (_send_to_cloud net clk s1 (CLOUD_TOPIC cfg) payload)
        as [[|] s2]; simpl;
        repeat apply same_but_log_logger; apply same_but_log_refl.
    + apply same_but_log_logger, same_but_log_refl.
Qed.

(** A decoded payload that is not a dict: counted as received, then
    dropped at the first item assignment. *)
Lemma handle_local_not_dict clk s msg (v : pyval F) :
  decode_message msg = Some v ->
  (forall d, v <> PDict d) ->
  _handle_local_message cfg net clk s msg
  = logger ERROR "Error handling local message"
           (set_stats (incr_received (stats s)) s).
Proof.
  intros Hd Hnd.
  apply decode_message_Some in Hd as (text & Hb & Hj).
  unfold _handle_local_message. rewrite Hb, Hj.
  destruct v; try reflexivity. now destruct (Hnd d).
Qed.

(** No message on the alarms topic changes the batch buffer. *)
Lemma alarm_keeps_batch_buffer clk s msg :
  msg_topic msg = ALARMS_TOPIC ->
  batch_buffer (_handle_local_message cfg net clk s msg) = batch_buffer s.
Proof.
  intros Ht. unfold _handle_local_message.
  destruct (bytes_decode (msg_payload msg)) as [text|]; [|reflexivity].
  destruct (json_loads text) as [v|]; [|reflexivity].
  destruct (add_edge_metadata cfg clk v) as [payload|]; [|reflexivity].
  rewrite Ht, str_eqb_refl.
  pose proof (send_to_cloud_batch_buffer clk
                (set_stats (incr_received (stats s)) s)
                (CLOUD_ALARMS_TOPIC cfg) payload) as [Hb _].
  destruct (_send_to_cloud net clk (set_stats (incr_received (stats s)) s)
              (CLOUD_ALARMS_TOPIC cfg) payload) as [[|] s2];
    simpl in *; exact Hb.
Qed.

End Dispatch.

(** ** Edge metadata *)

Section Metadata.
Context {F : Type} {codec : JsonCodec F}.
Variables (cfg : Config) (net : network).

Lemma edge_metadata_fields (clk : clock) (d : list (str * pyval F)) :
  let d' := edge_metadata_dict cfg clk d in
  dict_get d' (pystr "edge_id") = Some (PStr (EDGE_ID cfg))
  /\ dict_get d' (pystr "edge_name") = Some (PStr (EDGE_NAME cfg))
  /\ dict_get d' (pystr "edge_location") = Some (PStr (EDGE_LOCATION cfg))
  /\ dict_get d' (pystr "received_at") = Some (PStr (now_isoformat clk)).
Proof.
  unfold edge_metadata_dict. repeat split.
  - rewrite !dict_get_set_other by (cbv; discriminate).
    apply dict_get_set_same.
  - rewrite !dict_get_set_other by (cbv; discriminate).
    apply dict_get_set_same.
  - rewrite !dict_get_set_other by (cbv; discriminate).
    apply dict_get_set_same.
  - apply dict_get_set_same.
Qed.

Lemma edge_metadata_other_fields (clk : clock) (d : list (str * pyval F))
      (k : str) :
  k <> pystr "edge_id" -> k <> pystr "edge_name" ->
  k <> pystr "edge_location" -> k <> pystr "received_at" ->
  dict_get (edge_metadata_dict cfg clk d) k = dict_get d k.
Proof.
  intros H1 H2 H3 H4. unfold edge_metadata_dict.
  rewrite !dict_get_set_other by congruence. reflexivity.
Qed.

(** C10, as the code has it. A local message that decodes to a JSON
    object, on either topic: [edge_id], [edge_name] and [edge_location]
    are set to the configured values and [received_at] to the reading of
    the clock, whatever the payload held under these names; every other
    field reads as before; and it is this stamped record that is handed
    to [_send_to_cloud] or appended to the batch buffer. *)
Theorem local_message_stamped (clk : clock) (s : CloudSyncService F)
        (msg : message) (d : list (str * pyval F)) :
  decode_message msg = Some (PDict d) ->
  let d' := edge_metadata_dict cfg clk d in
  let s1 := set_stats (incr_received (stats s)) s in
  (dict_get d' (pystr "edge_id") = Some (PStr (EDGE_ID cfg))
   /\ dict_get d' (pystr "edge_name") = Some (PStr (EDGE_NAME cfg))
   /\ dict_get d' (pystr "edge_location") = Some (PStr (EDGE_LOCATION cfg))
   /\ dict_get d' (pystr "received_at") = Some (PStr (now_isoformat clk)))
  /\ (forall k : str,
        k <> pystr "edge_id" -> k <> pystr "edge_name" ->
        k <> pystr "edge_location" -> k <> pystr "received_at" ->
        dict_get d' k = dict_get d k)
  /\ same_but_log
       (_handle_local_message cfg net clk s msg)
       (if str_eqb (msg_topic msg) ALARMS_TOPIC then
          snd (_send_to_cloud net clk s1 (CLOUD_ALARMS_TOPIC cfg) (PDict d'))
        else if REALTIME_MODE cfg then
          snd (_send_to_cloud net clk s1 (CLOUD_TOPIC cfg) (PDict d'))
        else
          set_batch (batch_buffer s ++ [PDict d']) (last_batch_time s) s1).
Proof.
  intros Hd d' s1. split; [apply edge_metadata_fields|].
  split; [intros k; apply edge_metadata_other_fields|].
  apply (handle_local_dict cfg net clk s msg d Hd).
Qed.
End Metadata.

(** ** Commands from the cloud *)

Section Commands.
Context {F : Type} {codec : JsonCodec F}.
Variable net : network.

(** C9, as the code has it. A command is forwarded only when it decodes
    and the local link is connected; what is published on
    [agrisense/commands] is the re-serialisation of the decoded payload,
    which reads back as the same value whenever the codec round-trips on
    it.  Nothing but the local publish record and the log changes. *)
Theorem cloud_command_forwarding (s : CloudSyncService F) (msg : message) :
  local_published (_handle_cloud_message net s msg)
  = match decode_message msg with
    | Some payload =>
        if local_connected s then
          local_published s ++ [(COMMANDS_TOPIC, json_dumps payload)]
        else local_published s
    | None => local_published s
    end
  /\ (forall payload : pyval F,
        decode_message msg = Some payload ->
        json_loads (json_dumps payload) = Some payload ->
        local_connected s = true ->
        exists text,
          local_published (_handle_cloud_message net s msg)
          = local_published s ++ [(COMMANDS_TOPIC, text)]
          /\ json_loads text = Some payload)
  /\ offline_queue (_handle_cloud_message net s msg) = offline_queue s
  /\ batch_buffer (_handle_cloud_message net s msg) = batch_buffer s
  /\ stats (_handle_cloud_message net s msg) = stats s
  /\ cloud_published (_handle_cloud_message net s msg) = cloud_published s.
Proof.
  unfold _handle_cloud_message, local_client_publish.
  destruct (decode_message msg) as [payload|]; simpl.
  - destruct (local_connected s) eqn:Hl; simpl.
    + destruct (local_outcome net (List.length (local_published s)));
        simpl; (split; [reflexivity|]);
        (split; [|repeat split]);
        intros p Hp Hrt _; injection Hp as <-;
        eexists; split; reflexivity || exact Hrt.
    + split; [reflexivity|]. split; [|repeat split].
      intros p _ _ H. discriminate.
  - split; [reflexivity|]. split; [|repeat split].
    intros p H. discriminate.
Qed.
End Commands.

(** ** [ORDER BY created_at] and [LIMIT] *)

Lemma insert_by_created_at_perm (r : row) (l : list row) :
  Permutation (insert_by_created_at r l) (r :: l).
Proof.
  induction l as [|x t IH]; simpl; [reflexivity|].
  destruct (row_created_at r <=? row_created_at x); [reflexivity|].
  rewrite IH. apply perm_swap.
Qed.

Lemma order_by_created_at_perm (l : list row) :
  Permutation (order_by_created_at l) l.
Proof.
  induction l as [|x t IH]; simpl; [reflexivity|].
  rewrite insert_by_created_at_perm. now constructor.
Qed.

Lemma insert_by_created_at_sorted (r : row) (l : list row) :
  StronglySorted created_le l ->
  StronglySorted created_le (insert_by_created_at r l).
Proof.
  induction 1 as [|x t Hs IH Hx]; simpl.
  - repeat constructor.
  - destruct (row_created_at r <=? row_created_at x) eqn:E.
    + apply Z.leb_le in E. constructor; [now constructor|].
      constructor; [exact E|].
      eapply Forall_impl; [|exact Hx]. unfold created_le. intros; lia.
    + apply Z.leb_gt in E. constructor; [exact IH|].
      eapply Permutation_Forall;
        [symmetry; apply insert_by_created_at_perm|].
      constructor; [unfold created_le; lia|exact Hx].
Qed.

Lemma order_by_created_at_sorted (l : list row) :
  StronglySorted created_le (order_by_created_at l).
Proof.
  induction l as [|x t IH]; simpl; [constructor|].
  now apply insert_by_created_at_sorted.
Qed.

(** Rows already in [created_at] order are left as they are: ties keep the
    order of the table. *)
Lemma order_by_created_at_stable (l : list row) :
  StronglySorted created_le l -> order_by_created_at l = l.
Proof.
  induction 1 as [|x t Hs IH Hx]; simpl; [reflexivity|].
  rewrite IH. destruct t as [|y t']; [reflexivity|]. simpl.
  apply Forall_inv in Hx. unfold created_le in Hx.
  apply Z.leb_le in Hx. now rewrite Hx.
Qed.

(** Rows of one [created_at] come out in the order they went in. *)
Lemma insert_by_created_at_ties (t : Z) (r : row) (l : list row) :
  filter (fun x => row_created_at x =? t) (insert_by_created_at r l)
  = filter (fun x => row_created_at x =? t) (r :: l).
Proof.
  induction l as [|x l IH]; [reflexivity|]. cbn [insert_by_created_at].
  destruct (row_created_at r <=? row_created_at x) eqn:E; [reflexivity|].
  apply Z.leb_gt in E. cbn [filter] in IH |- *. rewrite IH.
  destruct (row_created_at x =? t) eqn:Ex;
    destruct (row_created_at r =? t) eqn:Er; try reflexivity.
  apply Z.eqb_eq in Ex, Er. lia.
Qed.

Lemma order_by_created_at_ties (t : Z) (l : list row) :
  filter (fun x => row_created_at x =? t) (order_by_created_at l)
  = filter (fun x => row_created_at x =? t) l.
Proof.
  induction l as [|x l IH]; [reflexivity|].
  cbn [order_by_created_at fold_right].
  rewrite insert_by_created_at_ties. cbn [filter].
  fold (order_by_created_at l). now rewrite IH.
Qed.

Lemma StronglySorted_filter {A} (R : A -> A -> Prop) (f : A -> bool)
      (l : list A) :
  StronglySorted R l -> StronglySorted R (filter f l).
Proof.
  induction 1 as [|x t Hs IH Hx]; simpl; [constructor|].
  destruct (f x); [|exact IH]. constructor; [exact IH|].
  apply Forall_forall. intros y Hy. apply filter_In in Hy as [Hy _].
  rewrite Forall_forall in Hx. auto.
Qed.

Lemma StronglySorted_firstn {A} (R : A -> A -> Prop) (n : nat) (l : list A) :
  StronglySorted R l -> StronglySorted R (firstn n l).
Proof.
  intros H. revert n. induction H as [|x t Hs IH Hx]; intros [|n]; simpl;
    try constructor; [apply IH|].
  apply Forall_forall. intros y Hy.
  rewrite Forall_forall in Hx. apply Hx.
  rewrite <- (firstn_skipn n t). apply in_or_app. now left.
Qed.

Lemma StronglySorted_sql_limit {A} (R : A -> A -> Prop) (n : Z) (l : list A) :
  StronglySorted R l -> StronglySorted R (sql_limit n l).
Proof.
  intros H. unfold sql_limit. destruct (n <? 0); [exact H|].
  now apply StronglySorted_firstn.
Qed.

Lemma StronglySorted_weaken {A} (R R' : A -> A -> Prop) (l : list A) :
  (forall a b, R a b -> R' a b) ->
  StronglySorted R l -> StronglySorted R' l.
Proof.
  intros HR. induction 1 as [|x t Hs IH Hx]; constructor; [exact IH|].
  eapply Forall_impl; [|exact Hx]. auto.
Qed.

Lemma StronglySorted_map_row_id (l : list row) :
  StronglySorted (fun a b => row_id a < row_id b) l ->
  StronglySorted Z.lt (List.map row_id l).
Proof.
  induction 1 as [|x t Hs IH Hx]; simpl; constructor; [exact IH|].
  apply Forall_forall. intros y Hy. apply in_map_iff in Hy as (r & <- & Hr).
  rewrite Forall_forall in Hx. auto.
Qed.

Lemma sql_limit_incl {A} (n : Z) (l : list A) (x : A) :
  In x (sql_limit n l) -> In x l.
Proof.
  unfold sql_limit. destruct (n <? 0); [tauto|].
  intros H. rewrite <- (firstn_skipn (Z.to_nat n) l).
  apply in_or_app. now left.
Qed.

Lemma sql_limit_length {A} (n : Z) (l : list A) :
  0 <= n -> Z.of_nat (List.length (sql_limit n l)) <= n.
Proof.
  intros Hn. unfold sql_limit.
  destruct (n <? 0) eqn:E; [apply Z.ltb_lt in E; lia|].
  rewrite length_firstn. lia.
Qed.

Lemma sql_limit_all {A} (n : Z) (l : list A) :
  n < 0 \/ Z.of_nat (List.length l) <= n -> sql_limit n l = l.
Proof.
  intros H. unfold sql_limit. destruct (n <? 0) eqn:E; [reflexivity|].
  apply Z.ltb_ge in E. apply firstn_all2. lia.
Qed.

(** [LIMIT] keeps the head of the rows in their order: as many of them
    as the limit says, all of them when there are no more or the limit is
    negative. *)
Lemma sql_limit_prefix {A} (n : Z) (l : list A) :
  exists rest : list A,
    sql_limit n l ++ rest = l
    /\ List.length (sql_limit n l)
       = if n <? 0 then List.length l
         else Nat.min (Z.to_nat n) (List.length l).
Proof.
  unfold sql_limit. destruct (n <? 0).
  - exists []. split; [apply app_nil_r|reflexivity].
  - exists (skipn (Z.to_nat n) l). split; [apply firstn_skipn|].
    apply length_firstn.
Qed.

Section QueueFacts.
Context {F : Type} {codec : JsonCodec F}.

Lemma load_rows_ids (rows : list row) (items : list (item F)) :
  load_rows rows = Some items ->
  List.map item_id items = List.map row_id rows.
Proof.
  revert items. induction rows as [|r t IH]; simpl; intros items H.
  - now injection H as <-.
  - destruct (json_loads (row_data r)) as [d|]; [|discriminate].
    destruct (load_rows t) as [res|]; [|discriminate].
    injection H as <-. simpl. f_equal. now apply IH.
Qed.

(** Every item is a row with its text decoded, in the same position. *)
Lemma load_rows_Forall2 (rows : list row) (items : list (item F)) :
  load_rows rows = Some items ->
  Forall2 (fun r it => item_id it = row_id r
                       /\ json_loads (row_data r) = Some (item_data it))
          rows items.
Proof.
  revert items. induction rows as [|r t IH]; simpl; intros items H.
  - injection H as <-. constructor.
  - destruct (json_loads (row_data r)) as [d|] eqn:E; [|discriminate].
    destruct (load_rows t) as [res|]; [|discriminate].
    injection H as <-. constructor; [simpl; auto|]. now apply IH.
Qed.

Lemma load_rows_total (rows : list row) :
  (forall r, In r rows -> json_loads (row_data r) <> None) ->
  exists items, load_rows rows = Some items.
Proof.
  induction rows as [|r t IH]; simpl; intros H; [eauto|].
  destruct (json_loads (row_data r)) as [d|] eqn:E.
  - destruct IH as [res ->]; [intros; apply H; auto|]. eauto.
  - exfalso. apply (H r); auto.
Qed.

Lemma select_pending_in (q : OfflineQueue) (limit : Z) (r : row) :
  In r (select_pending q limit) ->
  In r (reading_queue q) /\ is_pending r = true.
Proof.
  unfold select_pending. intros H. apply sql_limit_incl in H.
  apply (Permutation_in _ (order_by_created_at_perm _)) in H.
  now apply filter_In in H.
Qed.

Lemma select_pending_sorted (q : OfflineQueue) (limit : Z) :
  StronglySorted created_le (select_pending q limit).
Proof.
  apply StronglySorted_sql_limit, order_by_created_at_sorted.
Qed.

(** With a clock that never stepped back, [ORDER BY created_at] is the
    order of the table, which is rowid order. *)
Lemma select_pending_time_order (q : OfflineQueue) (limit : Z) :
  rowid_order_is_time_order q ->
  select_pending q limit
  = sql_limit limit (filter is_pending (reading_queue q))
  /\ StronglySorted Z.lt (List.map row_id (select_pending q limit)).
Proof.
  intros H. unfold select_pending.
  assert (Hf : StronglySorted
                 (fun a b => row_id a < row_id b
                             /\ row_created_at a <= row_created_at b)
                 (filter is_pending (reading_queue q)))
    by now apply StronglySorted_filter.
  rewrite order_by_created_at_stable.
  - split; [reflexivity|]. apply StronglySorted_map_row_id.
    apply StronglySorted_sql_limit.
    eapply StronglySorted_weaken; [|exact Hf].
    intros a b [Hid _]. exact Hid.
  - eapply StronglySorted_weaken; [|exact Hf].
    intros a b [_ Ht]. exact Ht.
Qed.

(** Enqueueing at a clock reading no earlier than the rows already stored
    keeps rowid order and time order together. *)
Lemma enqueue_time_order (q : OfflineQueue) (data : pyval F) (t : Z) :
  rowid_order_is_time_order q ->
  (forall r, In r (reading_queue q) -> row_created_at r <= t) ->
  rowid_order_is_time_order (snd (enqueue q data t)).
Proof.
  unfold rowid_order_is_time_order. simpl. intros Hs Ht.
  pose proof (next_rowid_fresh q) as Hfresh.
  induction Hs as [|x l Hs IH Hx]; simpl.
  - repeat constructor.
  - constructor.
    + apply IH; intros; [apply Ht|apply Hfresh]; simpl; auto.
    + apply Forall_app. split; [exact Hx|].
      constructor; [|constructor]. simpl. split.
      * apply Hfresh. simpl. auto.
      * apply Ht. simpl. auto.
Qed.

Lemma mark_sent_rows (q : OfflineQueue) (ids : list Z) :
  reading_queue (mark_sent q ids)
  = filter (fun r => negb (existsb (Z.eqb (row_id r)) ids)) (reading_queue q).
Proof.
  destruct ids as [|i ids]; [|reflexivity]. simpl.
  induction (reading_queue q) as [|r t IH]; simpl; [reflexivity|].
  now rewrite <- IH.
Qed.
End QueueFacts.

(** ** The drain loop *)

Section Drain.
Context {F : Type} {codec : JsonCodec F}.
Variables (cfg : Config) (net : network).
Implicit Types (s : CloudSyncService F) (pending : list (item F)).

Ltac drain_cases it s :=
  unfold cloud_client_publish;
  destruct (py_get (item_data it) (pystr "topic") (PStr (CLOUD_TOPIC cfg)))
    as [[| | | |?t| |]|];
  try destruct (py_get (item_data it) (pystr "payload") (item_data it))
    as [?payload|];
  try (let rc := fresh "rc" in
       destruct (cloud_outcome net (List.length (cloud_published s)))
         as [rc|]; [destruct (rc =? MQTT_ERR_SUCCESS)|]).

(** The loop writes to the publish record, the sent counter and the log,
    and to nothing else. *)
Lemma drain_items_frame pending s ids :
  offline_queue (fst (drain_items cfg net s pending ids)) = offline_queue s
  /\ batch_buffer (fst (drain_items cfg net s pending ids)) = batch_buffer s
  /\ cloud_connected (fst (drain_items cfg net s pending ids))
     = cloud_connected s
  /\ local_published (fst (drain_items cfg net s pending ids))
     = local_published s.
Proof.
  revert s ids. induction pending as [|it rest IH]; intros s ids; simpl;
    [repeat split|].
  drain_cases it s; simpl; try (repeat split; fail).
  - match goal with |- context [drain_items cfg net ?s1 rest ?i] =>
      destruct (IH s1 i) as (-> & -> & -> & ->) end. repeat split.
  - match goal with |- context [drain_items cfg net ?s1 rest ?i] =>
      destruct (IH s1 i) as (-> & -> & -> & ->) end. repeat split.
Qed.

(** The publish record only grows. *)
Lemma drain_items_appends pending s ids :
  exists l,
    cloud_published (fst (drain_items cfg net s pending ids))
    = cloud_published s ++ l.
Proof.
  revert s ids. induction pending as [|it rest IH]; intros s ids; simpl.
  - exists []. now rewrite app_nil_r.
  - drain_cases it s; simpl;
      try (exists []; now rewrite app_nil_r);
      try (match goal with |- context [drain_items cfg net ?s1 rest ?i] =>
             destruct (IH s1 i) as [l ->] end;
           simpl; rewrite <- app_assoc; eexists; reflexivity).
    eexists. reflexivity.
Qed.

Lemma publication_of_Some (it : item F) (t text : str) :
  publication_of cfg it = Some (t, text) ->
  exists payload,
    py_get (item_data it) (pystr "topic") (PStr (CLOUD_TOPIC cfg))
    = Some (PStr t)
    /\ py_get (item_data it) (pystr "payload") (item_data it) = Some payload
    /\ text = json_dumps payload.
Proof.
  unfold publication_of.
  destruct (py_get (item_data it) (pystr "topic") (PStr (CLOUD_TOPIC cfg)))
    as [[| | | |t'| |]|]; try discriminate.
  destruct (py_get (item_data it) (pystr "payload") (item_data it))
    as [payload|]; [|discriminate].
  intros H. injection H as <- <-. eauto.
Qed.

(** One turn of the loop on an item that can be published, by outcome. *)
Lemma drain_items_step (it : item F) pending s ids (pub : str * str) :
  publication_of cfg it = Some pub ->
  let s1 := set_cloud_published (cloud_published s ++ [pub]) s in
  drain_items cfg net s (it :: pending) ids
  = match cloud_outcome net (List.length (cloud_published s)) with
    | Returned rc =>
        if rc =? MQTT_ERR_SUCCESS then
          drain_items cfg net (set_stats (incr_sent (stats s1)) s1) pending
                      (ids ++ [item_id it])
        else drain_items cfg net s1 pending ids
    | Raised => (logger ERROR "Error processing queued item" s1, ids)
    end.
Proof.
  destruct pub as [t text]. intros Hp.
  apply publication_of_Some in Hp as (payload & Ht & Hpl & ->).
  simpl. rewrite Ht, Hpl. unfold cloud_client_publish. reflexivity.
Qed.

(** An exception stops the loop: nothing after the item is attempted. *)
Lemma drain_items_stops_on_exception (it : item F) pending s ids pub :
  publication_of cfg it = Some pub ->
  cloud_outcome net (List.length (cloud_published s)) = Raised ->
  cloud_published (fst (drain_items cfg net s (it :: pending) ids))
  = cloud_published s ++ [pub]
  /\ snd (drain_items cfg net s (it :: pending) ids) = ids.
Proof.
  intros Hp Ho. rewrite (drain_items_step _ _ _ _ _ Hp), Ho. now split.
Qed.

(** A return code other than success does not stop it: the loop goes on
    with the items that follow. *)
Lemma drain_items_goes_on_after_error_code (it : item F) pending s ids pub rc :
  publication_of cfg it = Some pub ->
  cloud_outcome net (List.length (cloud_published s)) = Returned rc ->
  rc <> MQTT_ERR_SUCCESS ->
  drain_items cfg net s (it :: pending) ids
  = drain_items cfg net
      (set_cloud_published (cloud_published s ++ [pub]) s) pending ids.
Proof.
  intros Hp Ho Hrc. rewrite (drain_items_step _ _ _ _ _ Hp), Ho.
  apply Z.eqb_neq in Hrc. now rewrite Hrc.
Qed.

(** When every publish succeeds, the items are published one after the
    other in the order of the list, and all their ids are collected. *)
Lemma drain_items_all_success pending (pubs : list (str * str)) s ids :
  Forall2 (fun it pub => publication_of cfg it = Some pub) pending pubs ->
  (forall n, cloud_outcome net n = Returned MQTT_ERR_SUCCESS) ->
  cloud_published (fst (drain_items cfg net s pending ids))
  = cloud_published s ++ pubs
  /\ snd (drain_items cfg net s pending ids)
     = ids ++ List.map item_id pending.
Proof.
  intros H Hnet. revert s ids.
  induction H as [|it pub pending pubs Hp _ IH]; intros s ids.
  - simpl. now rewrite !app_nil_r.
  - rewrite (drain_items_step _ _ _ _ _ Hp), Hnet. simpl.
    match goal with |- context [drain_items cfg net ?s1 pending ?i] =>
      destruct (IH s1 i) as [-> ->] end.
    simpl. now rewrite <- !app_assoc.
Qed.

(** Only confirmed sends are collected: an id the loop adds to [sent_ids]
    is the id of a fetched item whose publish was made and returned
    success. *)
Lemma drain_items_only_confirmed pending s ids (id : Z) :
  In id (snd (drain_items cfg net s pending ids)) ->
  In id ids
  \/ exists it n,
      In it pending /\ item_id it = id
      /\ (List.length (cloud_published s) <= n)%nat
      /\ cloud_outcome net n = Returned MQTT_ERR_SUCCESS
      /\ nth_error
           (cloud_published (fst (drain_items cfg net s pending ids))) n
         = publication_of cfg it.
Proof.
  revert s ids. induction pending as [|it rest IH]; intros s ids;
    [simpl; auto|].
  destruct (publication_of cfg it) as [pub|] eqn:Hp.
  - rewrite (drain_items_step _ _ _ _ _ Hp).
    destruct (cloud_outcome net (List.length (cloud_published s)))
      as [rc|] eqn:Ho; [|simpl; auto].
    destruct (rc =? MQTT_ERR_SUCCESS) eqn:Hrc.
    + apply Z.eqb_eq in Hrc. subst rc. intros Hin.
      apply IH in Hin as [Hin|(it' & n & Hin & Hid & Hn & Hout & Hnth)].
      * apply in_app_or in Hin as [Hin|[<-|[]]]; [auto|].
        right. exists it, (List.length (cloud_published s)).
        repeat split; simpl; auto.
        match goal with |- context [drain_items cfg net ?s1 rest ?i] =>
          destruct (drain_items_appends rest s1 i) as [l ->] end.
        simpl. rewrite <- app_assoc, nth_error_app2 by lia.
        rewrite Nat.sub_diag. simpl. now rewrite Hp.
      * right. exists it', n. simpl in Hn. rewrite length_app in Hn.
        simpl in Hn. repeat split; simpl; auto. lia.
    + intros Hin.
      apply IH in Hin as [Hin|(it' & n & Hin & Hid & Hn & Hout & Hnth)];
        [auto|].
      right. exists it', n. simpl in Hn. rewrite length_app in Hn.
      simpl in Hn. repeat split; simpl; auto. lia.
  - assert (Hstop : snd (drain_items cfg net s (it :: rest) ids) = ids).
    { unfold publication_of in Hp. cbn [drain_items].
      destruct (py_get (item_data it) (pystr "topic") (PStr (CLOUD_TOPIC cfg)))
        as [[| | | |t| |]|];
        destruct (py_get (item_data it) (pystr "payload") (item_data it))
          as [payload|]; try reflexivity; discriminate. }
    rewrite Hstop. auto.
Qed.

(** What a turn of the processor leaves in the table: the rows whose ids
    the loop collected are gone, all others stay. *)
Lemma offline_queue_cycle_rows s pending :
  cloud_connected s = true ->
  get_pending (offline_queue s) 50 = Some pending ->
  exists s',
    _offline_queue_cycle cfg net s = Some s'
    /\ reading_queue (offline_queue s')
       = filter
           (fun r =>
              negb (existsb (Z.eqb (row_id r))
                      (snd (drain_items cfg net
                              (logger INFO "Processing queued readings..." s)
                              pending []))))
           (reading_queue (offline_queue s)).
Proof.
  intros Hc Hg. unfold _offline_queue_cycle. rewrite Hc, Hg. simpl.
  destruct pending as [|it rest].
  - eexists. split; [reflexivity|]. simpl.
    induction (reading_queue (offline_queue s)) as [|r t IH];
      simpl; [reflexivity|]. now rewrite <- IH.
  - pose proof (drain_items_frame (it :: rest)
                  (logger INFO "Processing queued readings..." s) [])
      as (Hq & _).
    destruct (drain_items cfg net
                (logger INFO "Processing queued readings..." s)
                (it :: rest) []) as [s1 sent] eqn:E.
    simpl in Hq |- *.
    destruct sent as [|i sent]; eexists; (split; [reflexivity|]).
    + rewrite Hq. simpl.
      induction (reading_queue (offline_queue s)) as [|r t IH];
        simpl; [reflexivity|]. now rewrite <- IH.
    + simpl. now rewrite Hq.
Qed.
End Drain.

(** ** Reading the queue *)

Section GetPending.
Context {F : Type} {codec : JsonCodec F}.

(** C2, as the code has it. For a limit SQLite can hold and pending
    texts that decode, [get_pending] returns the decoded head of the
    pending rows taken in ascending [created_at] order, rows of equal
    [created_at] in the order of the table: with [kept] the rows returned
    and [later] the pending rows left out, [kept ++ later] is the pending
    rows in that order, and [kept] has [limit] rows, or all of them when
    there are fewer or the limit is negative.  So the rows left out are
    never older than a row returned.  It is the order of the table, and
    ascending id order, when rowid order and time order agree on the
    table.  A drain loop in which every publish succeeds publishes the
    fetched items in the order of that list. *)
Theorem get_pending_created_at_order (q : OfflineQueue) (limit : Z) :
  fits_int64 limit = true ->
  (forall r, In r (reading_queue q) -> is_pending r = true ->
             json_loads (row_data r) <> None) ->
  let pending := filter is_pending (reading_queue q) in
  exists (items : list (item F)) (kept later : list row),
    get_pending q limit = Some items
    /\ Forall2 (fun r it => item_id it = row_id r
                           /\ json_loads (row_data r) = Some (item_data it))
               kept items
    /\ Permutation (kept ++ later) pending
    /\ StronglySorted created_le (kept ++ later)
    /\ (forall t : Z,
          filter (fun r => row_created_at r =? t) (kept ++ later)
          = filter (fun r => row_created_at r =? t) pending)
    /\ List.length kept
       = (if limit <? 0 then List.length pending
          else Nat.min (Z.to_nat limit) (List.length pending))
    /\ (rowid_order_is_time_order q ->
        kept ++ later = pending
        /\ StronglySorted Z.lt (List.map item_id items))
    /\ (forall (cfg : Config) (net : network) (s : CloudSyncService F)
               (pubs : list (str * str)),
          Forall2 (fun it pub => publication_of cfg it = Some pub) items pubs ->
          (forall n, cloud_outcome net n = Returned MQTT_ERR_SUCCESS) ->
          cloud_published (fst (drain_items cfg net s items []))
          = cloud_published s ++ pubs
          /\ snd (drain_items cfg net s items []) = List.map item_id items).
Proof.
  intros Hfit Hdec pending.
  destruct (load_rows_total (select_pending q limit)) as [items Hitems].
  { intros r Hr. apply select_pending_in in Hr as [Hr Hp]. now apply Hdec. }
  destruct (sql_limit_prefix limit (order_by_created_at pending))
    as (later & Hsplit & Hlen).
  exists items, (select_pending q limit), later.
  unfold get_pending. rewrite Hfit.
  split; [exact Hitems|].
  split; [now apply load_rows_Forall2|].
  change (select_pending q limit)
    with (sql_limit limit (order_by_created_at pending)).
  rewrite Hsplit.
  split; [apply order_by_created_at_perm|].
  split; [apply order_by_created_at_sorted|].
  split; [intros t; apply order_by_created_at_ties|].
  split.
  { rewrite Hlen.
    now rewrite (Permutation_length (order_by_created_at_perm pending)). }
  split.
  { intros Hmono. split.
    - apply order_by_created_at_stable.
      eapply StronglySorted_weaken;
        [|apply StronglySorted_filter; exact Hmono].
      intros a b [_ Ht]. exact Ht.
    - rewrite (load_rows_ids _ _ Hitems).
      now apply select_pending_time_order. }
  intros cfg net s pubs Hpubs Hnet.
  now apply (drain_items_all_success cfg net items pubs s []).
Qed.
End GetPending.

(** ** The batch sender *)

Section Batch.
Context {F : Type} {codec : JsonCodec F}.
Variables (cfg : Config) (net : network).
Implicit Types (s : CloudSyncService F).

Lemma should_send_due s (now : Q) :
  batch_buffer s <> [] ->
  (should_send cfg s now = true <-> flush_due cfg s now).
Proof.
  intros Hne. unfold should_send, flush_due.
  destruct (BATCH_SIZE cfg <=? Z.of_nat (List.length (batch_buffer s))) eqn:E.
  - apply Z.leb_le in E. tauto.
  - apply Z.leb_gt in E.
    assert (Hpos : (0 <? Z.of_nat (List.length (batch_buffer s))) = true).
    { apply Z.ltb_lt. destruct (batch_buffer s); [congruence|simpl; lia]. }
    rewrite Hpos, Qle_bool_iff. split; [tauto|].
    intros [_ [H|H]]; [lia|exact H].
Qed.

Lemma send_batch_nonempty clk s :
  batch_buffer s <> [] ->
  same_but_log
    (_send_batch cfg net clk s)
    (snd (_send_to_cloud net clk (set_batch [] (time_time clk) s)
                         (CLOUD_TOPIC cfg)
                         (batch_payload cfg clk (batch_buffer s)))).
Proof.
  intros Hne. unfold _send_batch.
  destruct (batch_buffer s) as [|p b] eqn:E; [congruence|].
  destruct (_send_to_cloud net clk (set_batch [] (time_time clk) s)
              (CLOUD_TOPIC cfg) (batch_payload cfg clk (p :: b)))
    as [[|] s2]; simpl; apply same_but_log_logger, same_but_log_refl.
Qed.

(** A turn of the batch sender that has something to flush. *)
Lemma batch_iteration_flush (clk : clock) s :
  flush_due cfg s (time_time clk) ->
  batch_buffer (_batch_sender_iteration cfg net clk s) = []
  /\ last_batch_time (_batch_sender_iteration cfg net clk s) = time_time clk
  /\ same_but_log
       (_batch_sender_iteration cfg net clk s)
       (snd (_send_to_cloud net clk (set_batch [] (time_time clk) s)
                            (CLOUD_TOPIC cfg)
                            (batch_payload cfg clk (batch_buffer s)))).
Proof.
  intros Hdue. unfold _batch_sender_iteration. pose proof Hdue as [Hne _].
  apply (should_send_due s (time_time clk) Hne) in Hdue. rewrite Hdue.
  pose proof (send_batch_nonempty clk s Hne) as Hs.
  pose proof (send_to_cloud_batch_buffer net clk
                (set_batch [] (time_time clk) s) (CLOUD_TOPIC cfg)
                (batch_payload cfg clk (batch_buffer s))) as [Hb Ht].
  destruct Hs as (H1 & H2 & H3 & H4 & H5 & H6 & H7 & H8 & H9).
  split; [now rewrite H5, Hb|]. split; [now rewrite H6, Ht|].
  unfold same_but_log; tauto.
Qed.

(** A turn of the batch sender that has nothing to flush. *)
Lemma batch_iteration_idle (clk : clock) s :
  ~ flush_due cfg s (time_time clk) ->
  _batch_sender_iteration cfg net clk s = s.
Proof.
  intros Hnd. unfold _batch_sender_iteration.
  destruct (batch_buffer s) as [|p b] eqn:E.
  - unfold _send_batch. rewrite E.
    now destruct (should_send cfg s (time_time clk)).
  - destruct (should_send cfg s (time_time clk)) eqn:Hs; [|reflexivity].
    exfalso. apply Hnd. apply should_send_due; [congruence|exact Hs].
Qed.

(** C5, as the code has it. One turn of the batch sender flushes exactly
    when the buffer is not empty and either its length has reached
    [BATCH_SIZE] or [BATCH_TIMEOUT] has run out since [last_batch_time]
    (the last flush, or the creation of the service before the first
    one).  A flush empties the buffer, records the time and hands to
    [_send_to_cloud], on the data topic, one Batch Record whose
    [readings] are the buffered records in buffer order and whose
    [batch_size] is their number.  Otherwise the turn changes nothing. *)
Theorem batch_sender_flushes_when_due (clk : clock) s :
  (flush_due cfg s (time_time clk) ->
   batch_buffer (_batch_sender_iteration cfg net clk s) = []
   /\ last_batch_time (_batch_sender_iteration cfg net clk s) = time_time clk
   /\ same_but_log
        (_batch_sender_iteration cfg net clk s)
        (snd (_send_to_cloud net clk (set_batch [] (time_time clk) s)
                             (CLOUD_TOPIC cfg)
                             (batch_payload cfg clk (batch_buffer s))))
   /\ dict_get
        (match batch_payload cfg clk (batch_buffer s) with
         | PDict d => d
         | _ => []
         end) (pystr "readings") = Some (PList (batch_buffer s))
   /\ dict_get
        (match batch_payload cfg clk (batch_buffer s) with
         | PDict d => d
         | _ => []
         end) (pystr "batch_size")
      = Some (PInt (Z.of_nat (List.length (batch_buffer s)))))
  /\ (~ flush_due cfg s (time_time clk) ->
      _batch_sender_iteration cfg net clk s = s).
Proof.
  unfold _batch_sender_iteration. split.
  - intros Hdue. pose proof Hdue as [Hne _].
    apply (should_send_due s (time_time clk) Hne) in Hdue. rewrite Hdue.
    pose proof (send_batch_nonempty clk s Hne) as Hs.
    pose proof (send_to_cloud_batch_buffer net clk
                  (set_batch [] (time_time clk) s) (CLOUD_TOPIC cfg)
                  (batch_payload cfg clk (batch_buffer s))) as [Hb Ht].
    destruct Hs as (H1 & H2 & H3 & H4 & H5 & H6 & H7 & H8 & H9).
    split; [now rewrite H5, Hb|]. split; [now rewrite H6, Ht|].
    split; [unfold same_but_log; tauto|]. split; reflexivity.
  - intros Hnd. destruct (batch_buffer s) as [|p b] eqn:E.
    + unfold _send_batch. rewrite E.
      now destruct (should_send cfg s (time_time clk)).
    + destruct (should_send cfg s (time_time clk)) eqn:Hs; [|reflexivity].
      exfalso. apply Hnd. apply should_send_due; [congruence|exact Hs].
Qed.

(** A record on the data topic, in batched mode, goes to the end of the
    buffer and nowhere else. *)
Lemma data_record_buffered clk s msg (d : list (str * pyval F)) :
  REALTIME_MODE cfg = false ->
  msg_topic msg <> ALARMS_TOPIC ->
  decode_message msg = Some (PDict d) ->
  same_but_log
    (_handle_local_message cfg net clk s msg)
    (set_batch (batch_buffer s ++ [PDict (edge_metadata_dict cfg clk d)])
               (last_batch_time s)
               (set_stats (incr_received (stats s)) s)).
Proof.
  intros Hm Ht Hd. pose proof (handle_local_dict cfg net clk s msg d Hd) as H.
  simpl in H. apply str_eqb_neq in Ht. now rewrite Ht, Hm in H.
Qed.

(** With an empty buffer and a positive batch size, turns of the batch
    sender do nothing. *)
Lemma batch_sender_idle (clocks : list clock) s :
  batch_buffer s = [] ->
  run cfg net s (List.map (fun c => (c, BatchTick)) clocks) = s.
Proof.
  intros He. induction clocks as [|c cs IH]; simpl; [reflexivity|].
  unfold _batch_sender_iteration, _send_batch. rewrite He.
  destruct (should_send cfg s (time_time c)); exact IH.
Qed.

(** Batch trigger, first half: three records arrive with no turn of the
    sender between them, the batch size being 3.  The next turn makes one
    Batch Record of the three, in arrival order, and later turns make
    none. *)
Lemma three_records_one_batch
      (c1 c2 c3 c4 : clock) (m1 m2 m3 : message)
      (d1 d2 d3 : list (str * pyval F)) (later : list clock) s :
  REALTIME_MODE cfg = false ->
  BATCH_SIZE cfg = 3 ->
  batch_buffer s = [] ->
  msg_topic m1 <> ALARMS_TOPIC -> decode_message m1 = Some (PDict d1) ->
  msg_topic m2 <> ALARMS_TOPIC -> decode_message m2 = Some (PDict d2) ->
  msg_topic m3 <> ALARMS_TOPIC -> decode_message m3 = Some (PDict d3) ->
  let batch := [ PDict (edge_metadata_dict cfg c1 d1);
                 PDict (edge_metadata_dict cfg c2 d2);
                 PDict (edge_metadata_dict cfg c3 d3) ] in
  let s3 := run cfg net s [ (c1, LocalMessage m1); (c2, LocalMessage m2);
                            (c3, LocalMessage m3) ] in
  let s4 := step cfg net s3 (c4, BatchTick) in
  batch_buffer s3 = batch
  /\ same_but_log s4
       (snd (_send_to_cloud net c4 (set_batch [] (time_time c4) s3)
                            (CLOUD_TOPIC cfg) (batch_payload cfg c4 batch)))
  /\ batch_buffer s4 = []
  /\ run cfg net s4 (List.map (fun c => (c, BatchTick)) later) = s4.
Proof.
  intros Hm Hsz He T1 D1 T2 D2 T3 D3 batch s3 s4.
  assert (Hb : batch_buffer s3 = batch).
  { unfold s3, run. simpl.
    pose proof (data_record_buffered c1 s m1 d1 Hm T1 D1) as H1.
    set (sa := _handle_local_message cfg net c1 s m1) in *.
    pose proof (data_record_buffered c2 sa m2 d2 Hm T2 D2) as H2.
    set (sb := _handle_local_message cfg net c2 sa m2) in *.
    pose proof (data_record_buffered c3 sb m3 d3 Hm T3 D3) as H3.
    destruct H1 as (_ & _ & _ & _ & B1 & _).
    destruct H2 as (_ & _ & _ & _ & B2 & _).
    destruct H3 as (_ & _ & _ & _ & B3 & _).
    rewrite B3. simpl. rewrite B2. simpl. rewrite B1. simpl.
    now rewrite He. }
  assert (Hdue : flush_due cfg s3 (time_time c4)).
  { unfold flush_due. rewrite Hb, Hsz. split; [discriminate|].
    left. simpl. lia. }
  pose proof (batch_iteration_flush c4 s3 Hdue) as (B & _ & S).
  split; [exact Hb|]. rewrite Hb in S.
  split; [exact S|]. split; [exact B|].
  now apply batch_sender_idle.
Qed.

(** Batch trigger, second half: with fewer records in the buffer than the
    batch size, turns of the sender before the timeout has run out do
    nothing; the first turn after it has makes one Batch Record of what
    is buffered; later turns make none. *)
Lemma buffered_records_flushed_on_timeout
      (early later : list clock) (c : clock) s :
  batch_buffer s <> [] ->
  Z.of_nat (List.length (batch_buffer s)) < BATCH_SIZE cfg ->
  Forall (fun ck => (time_time ck - last_batch_time s
                     < inject_Z (BATCH_TIMEOUT cfg))%Q) early ->
  (inject_Z (BATCH_TIMEOUT cfg) <= time_time c - last_batch_time s)%Q ->
  let s1 := run cfg net s (List.map (fun ck => (ck, BatchTick)) early) in
  let s2 := step cfg net s1 (c, BatchTick) in
  s1 = s
  /\ same_but_log s2
       (snd (_send_to_cloud net c (set_batch [] (time_time c) s)
                            (CLOUD_TOPIC cfg)
                            (batch_payload cfg c (batch_buffer s))))
  /\ batch_buffer s2 = []
  /\ run cfg net s2 (List.map (fun ck => (ck, BatchTick)) later) = s2.
Proof.
  intros Hne Hlt Hearly Hc s1 s2.
  assert (Hs1 : s1 = s).
  { unfold s1. clear s1 s2. induction Hearly as [|ck cks Hck _ IH];
      simpl; [reflexivity|].
    rewrite (batch_iteration_idle ck s); [exact IH|].
    intros [_ [H|H]]; [lia|].
    apply Qle_not_lt in H. contradiction. }
  split; [exact Hs1|]. unfold s2. rewrite Hs1. simpl.
  destruct (batch_iteration_flush c s) as (B & _ & S); [split; auto|].
  split; [exact S|]. split; [exact B|].
  now apply batch_sender_idle.
Qed.
End Batch.


(** ** Handlers that leave the batch buffer alone *)

Lemma undecodable_keeps_batch_buffer {F : Type} {codec : JsonCodec F}
      (cfg : Config) (net : network) (clk : clock) (s : CloudSyncService F)
      (msg : message) :
  decode_message msg = None ->
  batch_buffer (_handle_local_message cfg net clk s msg) = batch_buffer s.
Proof.
  unfold decode_message, _handle_local_message. intros H.
  destruct (bytes_decode (msg_payload msg)) as [text|]; [|reflexivity].
  now rewrite H.
Qed.

Lemma cloud_message_keeps_batch_buffer {F : Type} {codec : JsonCodec F}
      (net : network) (s : CloudSyncService F) (msg : message) :
  batch_buffer (_handle_cloud_message net s msg) = batch_buffer s.
Proof.
  unfold _handle_cloud_message, local_client_publish.
  destruct (decode_message msg) as [payload|]; [|reflexivity]. simpl.
  destruct (local_connected s); [|reflexivity]. simpl.
  now destruct (local_outcome net (List.length (local_published s))).
Qed.

(** ** Alarms and the batch buffer *)

Section Alarms.
Context {F : Type} {codec : JsonCodec F}.
Variables (cfg : Config) (net : network).
Implicit Types (s : CloudSyncService F) (msg : message).

Lemma offline_queue_cycle_batch_buffer s s' :
  _offline_queue_cycle cfg net s = Some s' ->
  batch_buffer s' = batch_buffer s.
Proof.
  unfold _offline_queue_cycle.
  destruct (cloud_connected s); simpl; [|intros H; now injection H as <-].
  destruct (get_pending (offline_queue s) 50) as [[|it rest]|];
    [intros H; now injection H as <-| |discriminate].
  pose proof (drain_items_frame cfg net (it :: rest)
                (logger INFO "Processing queued readings..." s) [])
    as (_ & Hb & _).
  destruct (drain_items cfg net
              (logger INFO "Processing queued readings..." s) (it :: rest) [])
    as [s1 [|i sent]]; simpl in Hb; intros H; injection H as <-;
    simpl; exact Hb.
Qed.

(** One step puts a record on the batch buffer only when it is a message
    on another topic than alarms, in batched mode. *)
Lemma step_batch_buffer s (e : clock * event) (p : pyval F) :
  In p (batch_buffer (step cfg net s e)) ->
  In p (batch_buffer s)
  \/ exists clk msg d,
      e = (clk, LocalMessage msg)
      /\ msg_topic msg <> ALARMS_TOPIC
      /\ REALTIME_MODE cfg = false
      /\ decode_message msg = Some (PDict d)
      /\ p = PDict (edge_metadata_dict cfg clk d).
Proof.
  destruct e as [clk [msg|msg| | |rc| |rc|]]; cbn [step].
  - destruct (decode_message msg) as [v|] eqn:Hd.
    + destruct v as [| | | | | |d];
        try (rewrite (handle_local_not_dict cfg net clk s msg _ Hd)
               by discriminate; simpl; auto).
      pose proof (handle_local_dict cfg net clk s msg d Hd) as H.
      destruct H as (_ & _ & _ & _ & Hb & _). rewrite Hb.
      destruct (str_eqb (msg_topic msg) ALARMS_TOPIC) eqn:Ht.
      * destruct (send_to_cloud_batch_buffer net clk
                    (set_stats (incr_received (stats s)) s)
                    (CLOUD_ALARMS_TOPIC cfg)
                    (PDict (edge_metadata_dict cfg clk d))) as [-> _].
        simpl. auto.
      * destruct (REALTIME_MODE cfg) eqn:Hm.
        -- destruct (send_to_cloud_batch_buffer net clk
                       (set_stats (incr_received (stats s)) s)
                       (CLOUD_TOPIC cfg)
                       (PDict (edge_metadata_dict cfg clk d))) as [-> _].
           simpl. auto.
        -- simpl. intros Hin. apply in_app_or in Hin as [Hin|[<-|[]]];
             [auto|]. right. exists clk, msg, d.
           apply str_eqb_neq in Ht. repeat split; auto.
    + rewrite (undecodable_keeps_batch_buffer cfg net clk s msg Hd). auto.
  - rewrite (cloud_message_keeps_batch_buffer net s msg). auto.
  - unfold _batch_sender_iteration.
    destruct (should_send cfg s (time_time clk)); [|auto].
    destruct (batch_buffer s) as [|p0 b] eqn:E.
    + unfold _send_batch. rewrite E. now rewrite E.
    + pose proof (send_batch_nonempty cfg net clk s) as H.
      destruct H as (_ & _ & _ & _ & Hb & _); [congruence|].
      rewrite Hb.
      destruct (send_to_cloud_batch_buffer net clk
                  (set_batch [] (time_time clk) s) (CLOUD_TOPIC cfg)
                  (batch_payload cfg clk (batch_buffer s))) as [-> _].
      simpl. tauto.
  - destruct (_offline_queue_cycle cfg net s) as [s'|] eqn:Hc; [|auto].
    rewrite (offline_queue_cycle_batch_buffer s s' Hc). auto.
  - unfold cloud_on_connect. destruct (rc =? 0); simpl; auto.
  - simpl; auto.
  - unfold local_on_connect. destruct (rc =? 0); simpl; auto.
  - simpl; auto.
Qed.

(** Where the records of the batch buffer come from, along any run. *)
Lemma batch_buffer_provenance (es : list (clock * event)) s (p : pyval F) :
  In p (batch_buffer (run cfg net s es)) ->
  In p (batch_buffer s)
  \/ exists clk msg d,
      In (clk, LocalMessage msg) es
      /\ msg_topic msg <> ALARMS_TOPIC
      /\ REALTIME_MODE cfg = false
      /\ decode_message msg = Some (PDict d)
      /\ p = PDict (edge_metadata_dict cfg clk d).
Proof.
  revert s. induction es as [|e es IH]; intros s; simpl; [auto|].
  intros Hin. apply IH in Hin as [Hin|(clk & msg & d & Hin & H)].
  - apply step_batch_buffer in Hin as [Hin|(clk & msg & d & -> & H)];
      [auto|]. right. exists clk, msg, d. split; [now left|exact H].
  - right. exists clk, msg, d. split; [now right|exact H].
Qed.

(** C6. A message on the alarms topic never touches the batch buffer,
    whatever the mode.  When it decodes to a record, the stamped record is
    handed at once to [_send_to_cloud] on the cloud alarms topic, and with
    the cloud link connected the publish call on that topic is made at
    once.  Whatever the batch buffer holds later, and so whatever a Batch
    Record is made of, was buffered before the alarm or comes from a later
    message on another topic. *)
Theorem alarm_bypasses_batching (clk : clock) s msg :
  msg_topic msg = ALARMS_TOPIC ->
  batch_buffer (_handle_local_message cfg net clk s msg) = batch_buffer s
  /\ (forall d : list (str * pyval F),
        decode_message msg = Some (PDict d) ->
        let payload := PDict (edge_metadata_dict cfg clk d) in
        same_but_log
          (_handle_local_message cfg net clk s msg)
          (snd (_send_to_cloud net clk (set_stats (incr_received (stats s)) s)
                               (CLOUD_ALARMS_TOPIC cfg) payload))
        /\ (cloud_connected s = true ->
            cloud_published (_handle_local_message cfg net clk s msg)
            = cloud_published s
              ++ [(CLOUD_ALARMS_TOPIC cfg, json_dumps payload)]))
  /\ (forall (later : list (clock * event)) (p : pyval F),
        In p (batch_buffer
                (run cfg net (_handle_local_message cfg net clk s msg) later)) ->
        In p (batch_buffer s)
        \/ exists clk' msg' d',
            In (clk', LocalMessage msg') later
            /\ msg_topic msg' <> ALARMS_TOPIC
            /\ REALTIME_MODE cfg = false
            /\ decode_message msg' = Some (PDict d')
            /\ p = PDict (edge_metadata_dict cfg clk' d')).
Proof.
  intros Ht. split; [now apply alarm_keeps_batch_buffer|]. split.
  - intros d Hd payload.
    pose proof (handle_local_dict cfg net clk s msg d Hd) as H. simpl in H.
    rewrite Ht, str_eqb_refl in H. split; [exact H|].
    intros Hc. destruct H as (_ & _ & _ & _ & _ & _ & _ & Hp & _).
    rewrite Hp. unfold _send_to_cloud, cloud_client_publish. simpl.
    rewrite Hc. simpl.
    destruct (cloud_outcome net (List.length (cloud_published s))) as [rc|];
      [destruct (rc =? MQTT_ERR_SUCCESS)|]; reflexivity.
  - intros later p Hin. apply batch_buffer_provenance in Hin.
    now rewrite (alarm_keeps_batch_buffer cfg net clk s msg Ht) in Hin.
Qed.
End Alarms.

(** ** Round trip through the queue *)

Lemma Forall2_In_l {A B} (R : A -> B -> Prop) (l : list A) (l' : list B)
      (x : A) :
  Forall2 R l l' -> In x l -> exists y, In y l' /\ R x y.
Proof.
  induction 1 as [|a b l l' Hab _ IH]; simpl; [tauto|].
  intros [<-|Hin]; [eauto|]. destruct (IH Hin) as (y & Hy & HR). eauto.
Qed.

Lemma Forall2_In_r {A B} (R : A -> B -> Prop) (l : list A) (l' : list B)
      (y : B) :
  Forall2 R l l' -> In y l' -> exists x, In x l /\ R x y.
Proof.
  induction 1 as [|a b l l' Hab _ IH]; simpl; [tauto|].
  intros [<-|Hin]; [eauto|]. destruct (IH Hin) as (x & Hx & HR). eauto.
Qed.

Section RoundTrip.
Context {F : Type} {codec : JsonCodec F}.

(** Over any codec that reads back what it writes for [data]: the record
    enqueued is returned by [get_pending] under the id [enqueue] gave it,
    and nothing else is returned under that id. *)
Lemma enqueue_then_get_pending (q : OfflineQueue) (data : pyval F)
      (t limit : Z) :
  fits_int64 limit = true ->
  (forall r, In r (reading_queue q) -> is_pending r = true ->
             json_loads (row_data r) <> None) ->
  json_loads (json_dumps data) = Some data ->
  limit < 0 \/ get_count q < limit ->
  exists items : list (item F),
    get_pending (snd (enqueue q data t)) limit = Some items
    /\ In {| item_id := fst (enqueue q data t); item_data := data |} items
    /\ (forall it, In it items ->
                   item_id it = fst (enqueue q data t) ->
                   item_data it = data).
Proof.
  intros Hfit Hdec Hrt Hroom.
  set (nr := {| row_id := next_rowid q; row_data := json_dumps data;
                row_created_at := t; row_status := status_pending |}).
  set (q' := snd (enqueue q data t)).
  assert (Hrows : reading_queue q' = reading_queue q ++ [nr]) by reflexivity.
  assert (Hdec' : forall r, In r (reading_queue q') -> is_pending r = true ->
                            json_loads (row_data r) <> None).
  { intros r Hr Hp. rewrite Hrows in Hr.
    apply in_app_or in Hr as [Hr|[<-|[]]]; [now apply Hdec|].
    simpl. rewrite Hrt. discriminate. }
  destruct (load_rows_total (select_pending q' limit)) as [items Hg].
  { intros r Hr. apply select_pending_in in Hr as [Hr Hp]. now apply Hdec'. }
  pose proof (load_rows_Forall2 _ _ Hg) as HF2.
  pose proof (select_pending_in q' limit) as Hin.
  exists items. split; [unfold get_pending; rewrite Hfit; exact Hg|].
  assert (Hnr : In nr (select_pending q' limit)).
  { unfold select_pending. rewrite sql_limit_all.
    - apply (Permutation_in _ (Permutation_sym (order_by_created_at_perm _))).
      apply filter_In. split; [rewrite Hrows; apply in_or_app; simpl; auto|].
      apply str_eqb_refl.
    - destruct Hroom as [Hneg|Hroom]; [now left|right].
      rewrite (Permutation_length (order_by_created_at_perm _)).
      rewrite Hrows, filter_app, length_app.
      assert (Hp : filter is_pending [nr] = [nr]).
      { cbn [filter]. unfold is_pending. cbn [row_status nr].
        now rewrite str_eqb_refl. }
      rewrite Hp. cbn [List.length]. unfold get_count in Hroom. lia. }
  split.
  - destruct (Forall2_In_l _ _ _ nr HF2 Hnr) as (it & Hit & Hid & Hload).
    simpl in Hid, Hload. rewrite Hrt in Hload. injection Hload as Hdata.
    destruct it as [i d]. simpl in *. subst. exact Hit.
  - intros it Hit Hid.
    destruct (Forall2_In_r _ _ _ it HF2 Hit) as (r & Hr & Hrid & Hload).
    apply Hin in Hr as [Hr _]. rewrite Hrows in Hr.
    apply in_app_or in Hr as [Hr|[<-|[]]].
    + apply next_rowid_fresh in Hr. simpl in Hid. lia.
    + simpl in Hload. rewrite Hrt in Hload. now injection Hload.
Qed.
End RoundTrip.

(* ================================================================== *)
(** * The concrete codec round-trips *)

Lemma pyval_ind' {F : Type} (P : pyval F -> Prop) :
  P PNone ->
  (forall b, P (PBool b)) ->
  (forall z, P (PInt z)) ->
  (forall f, P (PFloat f)) ->
  (forall s, P (PStr s)) ->
  (forall l, Forall P l -> P (PList l)) ->
  (forall d, Forall (fun kv => P (snd kv)) d -> P (PDict d)) ->
  forall v, P v.
Proof.
  intros HN HB HI HF HS HL HD.
  fix IH 1. intros [| b | z | f | s | l | d].
  - exact HN.
  - apply HB.
  - apply HI.
  - apply HF.
  - apply HS.
  - apply HL. induction l as [|x l IHl]; constructor; [apply IH|exact IHl].
  - apply HD. induction d as [|[k x] d IHd]; constructor;
      [apply IH|exact IHd].
Qed.

Module PyJsonFacts.
Import PyJson.
Local Open Scope N_scope.

Ltac ndivmod := zify; Z.to_euclidean_division_equations; lia.

Lemma hex_val_digit (d : N) : d < 16 -> hex_val (hex_digit d) = Some d.
Proof.
  intros H. unfold hex_digit, hex_val.
  destruct (d <? 10) eqn:E.
  - apply N.ltb_lt in E.
    replace ((48 <=? 48 + d) && (48 + d <=? 57)) with true.
    + f_equal. lia.
    + symmetry. apply andb_true_iff. split; apply N.leb_le; lia.
  - apply N.ltb_ge in E.
    replace ((48 <=? 87 + d) && (87 + d <=? 57)) with false.
    + replace ((97 <=? 87 + d) && (87 + d <=? 102)) with true.
      * f_equal. lia.
      * symmetry. apply andb_true_iff. split; apply N.leb_le; lia.
    + symmetry. apply andb_false_iff. right. apply N.leb_gt. lia.
Qed.

Lemma decode_hex4 (n : N) (r : str) :
  n < 65536 -> decode_uXXXX (hex4 n ++ r) = Some (n, r).
Proof.
  intros H. unfold hex4, decode_uXXXX. simpl.
  rewrite !hex_val_digit by (apply N.mod_lt; discriminate).
  f_equal. f_equal. ndivmod.
Qed.

Lemma lor_high_low (h l : N) : l < 1024 -> N.lor (h * 1024) l = h * 1024 + l.
Proof.
  intros Hl.
  assert (Hland : N.land (h * 1024) l = 0).
  { apply N.bits_inj. intros i. rewrite N.land_spec, N.bits_0.
    destruct (N.lt_ge_cases i 10) as [Hi|Hi].
    - change 1024 with (2 ^ 10). now rewrite N.mul_pow2_bits_low.
    - destruct (N.eq_dec l 0) as [->|Hnz];
        [now rewrite N.bits_0, andb_false_r|].
      rewrite (N.bits_above_log2 l i), andb_false_r; [reflexivity|].
      apply N.lt_le_trans with 10; [|exact Hi].
      apply N.log2_lt_pow2; [lia|exact Hl]. }
  now rewrite <- N.lxor_lor, <- N.add_nocarry_lxor.
Qed.

(** The two escapes of a code point beyond the BMP read back as it. *)
Lemma surrogate_pair (c : N) :
  65536 <= c -> c < 1114112 ->
  let n := c - 65536 in
  let hi := N.lor 55296 (N.land (N.shiftr n 10) 1023) in
  let lo := N.lor 56320 (N.land n 1023) in
  55296 <= hi /\ hi <= 56319 /\ 56320 <= lo /\ lo <= 57343
  /\ 65536 + N.lor (N.shiftl (hi - 55296) 10) (lo - 56320) = c.
Proof.
  intros H1 H2 n hi lo.
  assert (Hn : n < 1048576) by (unfold n; lia).
  assert (Hhi : hi = 55296 + n / 1024).
  { unfold hi. change 1023 with (N.ones 10). rewrite N.land_ones.
    rewrite N.shiftr_div_pow2. change (2 ^ 10) with 1024.
    change 55296 with (54 * 1024). rewrite lor_high_low by (apply N.mod_lt; discriminate).
    rewrite N.mod_small; [reflexivity|]. ndivmod. }
  assert (Hlo : lo = 56320 + n mod 1024).
  { unfold lo. change 1023 with (N.ones 10). rewrite N.land_ones.
    change (2 ^ 10) with 1024. change 56320 with (55 * 1024).
    now rewrite lor_high_low by (apply N.mod_lt; discriminate). }
  rewrite Hhi, Hlo.
  replace (55296 + n / 1024 - 55296) with (n / 1024) by ndivmod.
  replace (56320 + n mod 1024 - 56320) with (n mod 1024) by ndivmod.
  rewrite N.shiftl_mul_pow2. change (2 ^ 10) with 1024.
  rewrite lor_high_low by (apply N.mod_lt; discriminate).
  unfold n in *. repeat split; ndivmod.
Qed.

Lemma scalar_value_spec (c : N) :
  scalar_value c = true <-> c < 55296 \/ (57344 <= c /\ c < 1114112).
Proof.
  unfold scalar_value.
  rewrite orb_true_iff, andb_true_iff, N.ltb_lt, N.leb_le, N.ltb_lt. tauto.
Qed.

(** Reading back the escape of one character. *)
Lemma scanstring_escape_char (c : N) (tail : str) (fuel : nat) :
  scalar_value c = true ->
  scanstring (S fuel) (escape_char c ++ tail)
  = match scanstring fuel tail with
    | None => None
    | Some (t, rest) => Some (c :: t, rest)
    end.
Proof.
  intros Hc. apply scalar_value_spec in Hc. unfold escape_char.
  destruct (N.eqb_spec c 34) as [->|H34]; [reflexivity|].
  destruct (N.eqb_spec c 92) as [->|H92]; [reflexivity|].
  destruct (N.eqb_spec c 10) as [->|H10]; [reflexivity|].
  destruct (N.eqb_spec c 13) as [->|H13]; [reflexivity|].
  destruct (N.eqb_spec c 9) as [->|H9]; [reflexivity|].
  destruct (N.eqb_spec c 8) as [->|H8]; [reflexivity|].
  destruct (N.eqb_spec c 12) as [->|H12]; [reflexivity|].
  destruct ((32 <=? c) && (c <=? 126)) eqn:Hp.
  - apply andb_true_iff in Hp as [Hp1 Hp2].
    apply N.leb_le in Hp1, Hp2.
    cbn [app scanstring].
    apply N.eqb_neq in H34, H92. rewrite H34, H92.
    replace (c <? 32) with false by (symmetry; apply N.ltb_ge; lia).
    reflexivity.
  - destruct (c <? 65536) eqn:Hb.
    + apply N.ltb_lt in Hb. unfold u_escape.
      cbn [app scanstring]. change (92 =? 34) with false.
      change (92 =? 92) with true. change (117 =? 117) with true.
      cbv iota. rewrite decode_hex4 by exact Hb.
      unfold join_surrogates.
      replace ((55296 <=? c) && (c <=? 56319)) with false; [reflexivity|].
      symmetry. apply andb_false_iff.
      destruct Hc as [Hc|Hc]; [left; apply N.leb_gt; lia|right; apply N.leb_gt; lia].
    + apply N.ltb_ge in Hb.
      assert (Hlt : c < 1114112) by lia.
      pose proof (surrogate_pair c Hb Hlt) as Hs. cbv zeta in Hs.
      set (hi := N.lor 55296 (N.land (N.shiftr (c - 65536) 10) 1023)) in *.
      set (lo := N.lor 56320 (N.land (c - 65536) 1023)) in *.
      destruct Hs as (Hh1 & Hh2 & Hl1 & Hl2 & Hjoin).
      unfold u_escape. rewrite <- app_assoc.
      cbn [app scanstring]. change (92 =? 34) with false.
      change (92 =? 92) with true. change (117 =? 117) with true.
      cbv iota. rewrite decode_hex4 by lia.
      unfold join_surrogates.
      replace ((55296 <=? hi) && (hi <=? 56319)) with true
        by (symmetry; apply andb_true_iff; split; apply N.leb_le; lia).
      rewrite decode_hex4 by lia.
      replace ((56320 <=? lo) && (lo <=? 57343)) with true
        by (symmetry; apply andb_true_iff; split; apply N.leb_le; lia).
      rewrite Hjoin. reflexivity.
Qed.

Lemma scanstring_encoded (s rest : str) (fuel : nat) :
  text_ok s = true ->
  (List.length (flat_map escape_char s ++ 34%N :: rest) <= fuel)%nat ->
  scanstring fuel (flat_map escape_char s ++ 34 :: rest) = Some (s, rest).
Proof.
  revert fuel. induction s as [|c s IH]; intros fuel Hok Hfuel.
  - simpl in *. destruct fuel as [|fuel]; [lia|]. reflexivity.
  - simpl in Hok. apply andb_true_iff in Hok as [Hc Hs].
    cbn [flat_map] in *. rewrite <- app_assoc in *.
    assert (Hlen : (1 <= List.length (escape_char c))%nat).
    { unfold escape_char, u_escape.
      repeat match goal with |- context [if ?b then _ else _] => destruct b end;
        simpl; lia. }
    rewrite length_app in Hfuel.
    destruct fuel as [|fuel]; [lia|].
    rewrite scanstring_escape_char by exact Hc.
    rewrite IH; [reflexivity|exact Hs|lia].
Qed.

(** ** Numbers *)

Lemma follow_ok_no_digit (rest : str) :
  follow_ok rest ->
  match rest with [] => True | c :: _ => is_digit c = false end.
Proof.
  destruct rest as [|c r]; [trivial|]. intros [->|[->| ->]]; reflexivity.
Qed.

Lemma follow_ok_scan_frac (rest : str) :
  follow_ok rest -> scan_frac rest = ([], rest).
Proof.
  destruct rest as [|c r]; [reflexivity|]. intros [->|[->| ->]]; reflexivity.
Qed.

Lemma follow_ok_scan_exp (rest : str) :
  follow_ok rest -> scan_exp rest = ([], rest).
Proof.
  destruct rest as [|c r]; [reflexivity|]. intros [->|[->| ->]]; reflexivity.
Qed.

Lemma follow_ok_skip_ws (rest : str) : follow_ok rest -> skip_ws rest = rest.
Proof.
  destruct rest as [|c r]; [reflexivity|]. intros [->|[->| ->]]; reflexivity.
Qed.

Lemma scan_digits_uint (u : Decimal.uint) (rest : str) :
  match rest with [] => True | c :: _ => is_digit c = false end ->
  scan_digits (uint_chars u ++ rest) = (u, rest).
Proof.
  intros Hrest.
  induction u; cbn [uint_chars app scan_digits];
    try (change (is_digit _) with true; cbv iota; rewrite IHu; reflexivity).
  destruct rest as [|c r]; [reflexivity|]. cbn [scan_digits].
  now rewrite Hrest.
Qed.

Lemma to_uint_unorm (p : positive) :
  Decimal.unorm (Pos.to_uint p) = Pos.to_uint p.
Proof.
  rewrite <- DecimalPos.Unsigned.to_of, DecimalPos.Unsigned.of_to.
  reflexivity.
Qed.

Lemma to_uint_no_leading_zero (p : positive) (u : Decimal.uint) :
  Pos.to_uint p <> Decimal.D0 u.
Proof.
  intros H. pose proof (to_uint_unorm p) as Hn. rewrite H in Hn.
  rewrite DecimalFacts.unorm_D0 in Hn.
  destruct u as [| | | | | | | | | |] eqn:E;
    try (pose proof (DecimalFacts.nb_digits_unorm u) as Hd;
         rewrite E in Hd; rewrite Hn in Hd; simpl in Hd;
         specialize (Hd ltac:(discriminate)); lia).
  apply (DecimalPos.Unsigned.to_uint_nonzero p). exact H.
Qed.

Lemma scan_integer_pos (p : positive) (rest : str) :
  follow_ok rest ->
  scan_integer (uint_chars (Pos.to_uint p) ++ rest)
  = Some (false, Pos.to_uint p, rest).
Proof.
  intros Hf. apply follow_ok_no_digit in Hf.
  pose proof (to_uint_no_leading_zero p) as Hz.
  pose proof (DecimalPos.Unsigned.to_uint_nonnil p) as Hnil.
  pose proof (scan_digits_uint (Pos.to_uint p) rest Hf) as Hs.
  destruct (Pos.to_uint p) as [|u|u|u|u|u|u|u|u|u|u];
    [congruence|now destruct (Hz u)|..];
    unfold scan_integer; cbn [uint_chars app] in *;
    cbv beta iota; rewrite Hs; reflexivity.
Qed.

Lemma scan_integer_neg (p : positive) (rest : str) :
  follow_ok rest ->
  scan_integer (45 :: uint_chars (Pos.to_uint p) ++ rest)
  = Some (true, Pos.to_uint p, rest).
Proof.
  intros Hf. apply follow_ok_no_digit in Hf.
  pose proof (to_uint_no_leading_zero p) as Hz.
  pose proof (DecimalPos.Unsigned.to_uint_nonnil p) as Hnil.
  pose proof (scan_digits_uint (Pos.to_uint p) rest Hf) as Hs.
  destruct (Pos.to_uint p) as [|u|u|u|u|u|u|u|u|u|u];
    [congruence|now destruct (Hz u)|..];
    unfold scan_integer; cbn [uint_chars app] in *;
    cbv beta iota; rewrite Hs; reflexivity.
Qed.

(** *** The text of a float *)

Lemma is_digit_cases (c : N) :
  is_digit c = true ->
  c = 48 \/ c = 49 \/ c = 50 \/ c = 51 \/ c = 52 \/ c = 53
  \/ c = 54 \/ c = 55 \/ c = 56 \/ c = 57.
Proof.
  unfold is_digit. intros H. apply andb_true_iff in H as [H1 H2].
  apply N.leb_le in H1, H2. lia.
Qed.

Lemma uint_chars_digit_of (c : N) (u : Decimal.uint) :
  is_digit c = true -> uint_chars (digit_of c u) = c :: uint_chars u.
Proof.
  intros H. apply is_digit_cases in H.
  destruct H as [->|[->|[->|[->|[->|[->|[->|[->|[->| ->]]]]]]]]];
    reflexivity.
Qed.

(** What a scanner has matched and what it has left make up the text. *)
Lemma scan_digits_text (s : str) :
  s = uint_chars (fst (scan_digits s)) ++ snd (scan_digits s).
Proof.
  induction s as [|c s IH]; [reflexivity|]. cbn [scan_digits].
  destruct (is_digit c) eqn:E; [|reflexivity].
  destruct (scan_digits s) as [u r]. cbn [fst snd] in *.
  rewrite uint_chars_digit_of by exact E. cbn [app]. now f_equal.
Qed.

Lemma span_digits_text (s : str) :
  s = fst (span_digits s) ++ snd (span_digits s).
Proof.
  induction s as [|c s IH]; [reflexivity|]. cbn [span_digits].
  destruct (is_digit c); [|reflexivity].
  destruct (span_digits s) as [ds r]. cbn [fst snd app] in *. now f_equal.
Qed.

Lemma span_digits_digits (s : str) :
  Forall (fun c => is_digit c = true) (fst (span_digits s)).
Proof.
  induction s as [|c s IH]; [constructor|]. cbn [span_digits].
  destruct (is_digit c) eqn:E; [|constructor].
  destruct (span_digits s) as [ds r]. cbn [fst] in *. now constructor.
Qed.

(** Before a comma, a closing bracket or the end, a scanner matches what
    it matches on the text alone. *)
Lemma scan_digits_app (s rest : str) :
  follow_ok rest ->
  scan_digits (s ++ rest)
  = (fst (scan_digits s), snd (scan_digits s) ++ rest).
Proof.
  intros Hf. induction s as [|c s IH]; cbn [app scan_digits].
  - apply follow_ok_no_digit in Hf. destruct rest as [|c r]; [reflexivity|].
    cbn [scan_digits]. now rewrite Hf.
  - destruct (is_digit c); [|reflexivity]. rewrite IH.
    now destruct (scan_digits s).
Qed.

Lemma span_digits_app (s rest : str) :
  follow_ok rest ->
  span_digits (s ++ rest)
  = (fst (span_digits s), snd (span_digits s) ++ rest).
Proof.
  intros Hf. induction s as [|c s IH]; cbn [app span_digits].
  - apply follow_ok_no_digit in Hf. destruct rest as [|c r]; [reflexivity|].
    cbn [span_digits]. now rewrite Hf.
  - destruct (is_digit c); [|reflexivity]. rewrite IH.
    now destruct (span_digits s).
Qed.

Lemma scan_integer_cons (c : N) (t : str) :
  scan_integer (c :: t)
  = let body (n : bool) (s1 : str) :=
      match s1 with
      | c0 :: r0 =>
          if c0 =? 48 then Some (n, Decimal.D0 Decimal.Nil, r0)
          else if is_digit c0 then
            let '(u0, rest0) := scan_digits s1 in Some (n, u0, rest0)
          else None
      | [] => None
      end in
    if c =? 45 then body true t else body false (c :: t).
Proof.
  unfold scan_integer. destruct (N.eqb_spec c 45) as [->|H]; [reflexivity|].
  destruct c as [|p]; [reflexivity|].
  do 6 (destruct p as [p|p|]; try reflexivity). congruence.
Qed.

Lemma scan_integer_app (s rest : str) (neg : bool) (u : Decimal.uint)
      (r : str) :
  follow_ok rest ->
  scan_integer s = Some (neg, u, r) ->
  scan_integer (s ++ rest) = Some (neg, u, r ++ rest).
Proof.
  intros Hf.
  assert (Hgen : forall (n : bool) (s1 : str),
    match s1 with
    | c :: r0 =>
        if c =? 48 then Some (n, Decimal.D0 Decimal.Nil, r0)
        else if is_digit c then
          let '(u0, rest0) := scan_digits s1 in Some (n, u0, rest0)
        else None
    | [] => None
    end = Some (neg, u, r) ->
    match s1 ++ rest with
    | c :: r0 =>
        if c =? 48 then Some (n, Decimal.D0 Decimal.Nil, r0)
        else if is_digit c then
          let '(u0, rest0) := scan_digits (s1 ++ rest) in Some (n, u0, rest0)
        else None
    | [] => None
    end = Some (neg, u, r ++ rest)).
  { intros n [|c r0]; [discriminate|]. cbn [app].
    destruct (c =? 48); [intros H; now injection H as <- <- <-|].
    destruct (is_digit c); [|discriminate].
    rewrite app_comm_cons, (scan_digits_app (c :: r0) rest Hf).
    destruct (scan_digits (c :: r0)) as [u0 rest0]. cbn [fst snd].
    intros H. now injection H as <- <- <-. }
  destruct s as [|c s]; [discriminate|].
  rewrite <- app_comm_cons, !scan_integer_cons. cbv zeta.
  destruct (c =? 45); [apply Hgen|apply (Hgen false (c :: s))].
Qed.

Lemma scan_integer_text (s : str) (neg : bool) (u : Decimal.uint) (r : str) :
  scan_integer s = Some (neg, u, r) -> s = integer_text neg u ++ r.
Proof.
  unfold integer_text.
  assert (Hgen : forall (n : bool) (s1 : str),
    match s1 with
    | c :: r0 =>
        if c =? 48 then Some (n, Decimal.D0 Decimal.Nil, r0)
        else if is_digit c then
          let '(u0, rest0) := scan_digits s1 in Some (n, u0, rest0)
        else None
    | [] => None
    end = Some (neg, u, r) ->
    n = neg /\ s1 = uint_chars u ++ r).
  { intros n [|c r0]; [discriminate|].
    destruct (N.eqb_spec c 48) as [->|Hc];
      [intros H; injection H as <- <- <-; now split|].
    destruct (is_digit c); [|discriminate].
    pose proof (scan_digits_text (c :: r0)) as Ht.
    destruct (scan_digits (c :: r0)) as [u0 rest0]. cbn [fst snd] in Ht.
    intros H. injection H as <- <- <-. now split. }
  destruct s as [|c s]; [discriminate|].
  rewrite scan_integer_cons. cbv zeta.
  destruct (N.eqb_spec c 45) as [->|Hc]; intros H.
  - apply (Hgen true s) in H as [<- ->]. reflexivity.
  - apply (Hgen false (c :: s)) in H as [<- ->]. reflexivity.
Qed.

Lemma scan_integer_head (s : str) (neg : bool) (u : Decimal.uint) (r : str) :
  scan_integer s = Some (neg, u, r) ->
  exists c t, s = c :: t /\ (c = 45 \/ is_digit c = true).
Proof.
  destruct s as [|c s]; [discriminate|].
  rewrite scan_integer_cons. cbv zeta.
  destruct (N.eqb_spec c 45) as [->|Hc]; [eauto|].
  destruct (N.eqb_spec c 48) as [->|H48]; [eauto|].
  destruct (is_digit c) eqn:Hd; [eauto|discriminate].
Qed.

Lemma scan_frac_text (s : str) : s = fst (scan_frac s) ++ snd (scan_frac s).
Proof.
  unfold scan_frac. destruct s as [|c [|d r]]; try reflexivity;
    try (destruct c as [|p]; [reflexivity|];
         do 6 (destruct p as [p|p|]; try reflexivity); fail).
  destruct (N.eqb_spec c 46) as [->|Hc].
  - destruct (is_digit d); [|reflexivity].
    pose proof (span_digits_text (d :: r)) as Ht.
    destruct (span_digits (d :: r)) as [ds rest]. cbn [fst snd app] in *.
    now f_equal.
  - destruct c as [|p]; [reflexivity|].
    do 6 (destruct p as [p|p|]; try reflexivity). congruence.
Qed.

Lemma scan_frac_app (s rest : str) :
  follow_ok rest ->
  scan_frac (s ++ rest) = (fst (scan_frac s), snd (scan_frac s) ++ rest).
Proof.
  intros Hf.
  destruct s as [|c s].
  { cbn [app]. now rewrite follow_ok_scan_frac. }
  destruct (N.eqb_spec c 46) as [->|Hc].
  - destruct s as [|d r].
    + apply follow_ok_no_digit in Hf. cbn [app]. unfold scan_frac.
      destruct rest as [|c r]; [reflexivity|]. now rewrite Hf.
    + unfold scan_frac. cbn [app]. destruct (is_digit d); [|reflexivity].
      rewrite app_comm_cons, (span_digits_app (d :: r) rest Hf).
      now destruct (span_digits (d :: r)).
  - unfold scan_frac. cbn [app].
    destruct c as [|p]; [reflexivity|].
    do 6 (destruct p as [p|p|]; try reflexivity). congruence.
Qed.

Lemma scan_exp_text (s : str) : s = fst (scan_exp s) ++ snd (scan_exp s).
Proof.
  unfold scan_exp. destruct s as [|e r]; [reflexivity|].
  destruct ((e =? 101) || (e =? 69)); [|reflexivity].
  destruct r as [|sg r1]; [reflexivity|].
  destruct ((sg =? 43) || (sg =? 45)).
  - destruct r1 as [|d r2]; [reflexivity|].
    destruct (is_digit d); [|reflexivity].
    pose proof (span_digits_text (d :: r2)) as Ht.
    destruct (span_digits (d :: r2)) as [ds rest]. cbn [fst snd app] in *.
    now do 2 f_equal.
  - destruct (is_digit sg); [|reflexivity].
    pose proof (span_digits_text (sg :: r1)) as Ht.
    destruct (span_digits (sg :: r1)) as [ds rest]. cbn [fst snd app] in *.
    now f_equal.
Qed.

Lemma follow_ok_no_sign (rest : str) :
  follow_ok rest ->
  match rest with
  | [] => True
  | c :: _ => (c =? 43) || (c =? 45) = false /\ is_digit c = false
  end.
Proof.
  destruct rest as [|c r]; [trivial|]. intros [->|[->| ->]]; now split.
Qed.

Lemma scan_exp_app (s rest : str) :
  follow_ok rest ->
  scan_exp (s ++ rest) = (fst (scan_exp s), snd (scan_exp s) ++ rest).
Proof.
  intros Hf.
  destruct s as [|e r].
  { cbn [app]. now rewrite follow_ok_scan_exp. }
  unfold scan_exp. cbn [app].
  destruct ((e =? 101) || (e =? 69)); [|reflexivity].
  destruct r as [|sg r1].
  { cbn [app]. apply follow_ok_no_sign in Hf.
    destruct rest as [|c [|d t]]; try reflexivity;
      destruct Hf as [-> ->]; reflexivity. }
  cbn [app]. destruct ((sg =? 43) || (sg =? 45)).
  - destruct r1 as [|d r2].
    + cbn [app]. apply follow_ok_no_digit in Hf.
      destruct rest as [|c t]; [reflexivity|]. now rewrite Hf.
    + cbn [app]. destruct (is_digit d); [|reflexivity].
      rewrite app_comm_cons, (span_digits_app (d :: r2) rest Hf).
      now destruct (span_digits (d :: r2)).
  - destruct (is_digit sg); [|reflexivity].
    rewrite app_comm_cons, (span_digits_app (sg :: r1) rest Hf).
    now destruct (span_digits (sg :: r1)).
Qed.

Lemma float_literal_inv (s : str) :
  float_literal s = true ->
  exists neg u r0,
    scan_integer s = Some (neg, u, r0)
    /\ fst (scan_frac r0) ++ fst (scan_exp (snd (scan_frac r0))) <> []
    /\ snd (scan_exp (snd (scan_frac r0))) = [].
Proof.
  unfold float_literal.
  destruct (scan_integer s) as [[[neg u] r0]|]; [|discriminate].
  intros H. exists neg, u, r0. split; [reflexivity|]. revert H.
  destruct (scan_frac r0) as [frac r1]. cbn [fst snd].
  destruct (scan_exp r1) as [exp r2]. cbn [fst snd]. intros H.
  destruct (frac ++ exp) as [|c t]; [discriminate H|].
  destruct r2 as [|c2 t2]; [|discriminate H].
  split; [discriminate|reflexivity].
Qed.

(** A float literal is all of its three groups. *)
Lemma float_literal_text (s : str) (neg : bool) (u : Decimal.uint) (r0 : str) :
  scan_integer s = Some (neg, u, r0) ->
  snd (scan_exp (snd (scan_frac r0))) = [] ->
  s = integer_text neg u ++ fst (scan_frac r0)
      ++ fst (scan_exp (snd (scan_frac r0))).
Proof.
  intros Hi Hr. rewrite (scan_integer_text s neg u r0 Hi) at 1.
  rewrite (scan_frac_text r0) at 1.
  rewrite (scan_exp_text (snd (scan_frac r0))) at 1.
  now rewrite Hr, app_nil_r.
Qed.

Lemma float_literal_head (s : str) :
  float_literal s = true ->
  exists c t, s = c :: t /\ (c = 45 \/ is_digit c = true).
Proof.
  intros H. apply float_literal_inv in H as (neg & u & r0 & Hi & _).
  now apply scan_integer_head in Hi.
Qed.

Lemma digits_ascii (ds : str) :
  Forall (fun c => is_digit c = true) ds -> Forall (fun c => c < 128) ds.
Proof.
  apply Forall_impl. intros c H. apply is_digit_cases in H. lia.
Qed.

Lemma uint_chars_ascii (u : Decimal.uint) :
  Forall (fun c => c < 128) (uint_chars u).
Proof. induction u; simpl; constructor; auto; lia. Qed.

Lemma scan_frac_ascii (s : str) : Forall (fun c => c < 128) (fst (scan_frac s)).
Proof.
  unfold scan_frac. destruct s as [|c [|d r]]; try constructor;
    try (destruct c as [|p]; [constructor|];
         do 6 (destruct p as [p|p|]; try constructor); fail).
  destruct (N.eqb_spec c 46) as [->|Hc].
  - destruct (is_digit d); [|constructor].
    pose proof (span_digits_digits (d :: r)) as Hd.
    destruct (span_digits (d :: r)) as [ds rest]. cbn [fst] in *.
    constructor; [lia|]. now apply digits_ascii.
  - destruct c as [|p]; [constructor|].
    do 6 (destruct p as [p|p|]; try constructor). congruence.
Qed.

Lemma scan_exp_ascii (s : str) : Forall (fun c => c < 128) (fst (scan_exp s)).
Proof.
  unfold scan_exp. destruct s as [|e r]; [constructor|].
  destruct ((e =? 101) || (e =? 69)) eqn:He; [|constructor].
  assert (He' : e < 128).
  { apply orb_true_iff in He as [He|He]; apply N.eqb_eq in He; lia. }
  destruct r as [|sg r1]; [constructor|].
  destruct ((sg =? 43) || (sg =? 45)) eqn:Hs.
  - assert (Hs' : sg < 128).
    { apply orb_true_iff in Hs as [Hs|Hs]; apply N.eqb_eq in Hs; lia. }
    destruct r1 as [|d r2]; [constructor|].
    destruct (is_digit d); [|constructor].
    pose proof (span_digits_digits (d :: r2)) as Hd.
    destruct (span_digits (d :: r2)) as [ds rest]. cbn [fst] in *.
    constructor; [exact He'|]. constructor; [exact Hs'|].
    now apply digits_ascii.
  - destruct (is_digit sg); [|constructor].
    pose proof (span_digits_digits (sg :: r1)) as Hd.
    destruct (span_digits (sg :: r1)) as [ds rest]. cbn [fst] in *.
    constructor; [exact He'|]. now apply digits_ascii.
Qed.

Lemma float_literal_ascii (s : str) :
  float_literal s = true -> Forall (fun c => c < 128) s.
Proof.
  intros H. apply float_literal_inv in H as (neg & u & r0 & Hi & _ & Hr).
  rewrite (float_literal_text s neg u r0 Hi Hr).
  unfold integer_text. repeat (apply Forall_app; split).
  - destruct neg; repeat constructor.
  - apply uint_chars_ascii.
  - apply scan_frac_ascii.
  - apply scan_exp_ascii.
Qed.

Lemma uint_chars_head (u : Decimal.uint) :
  u <> Decimal.Nil ->
  exists c r, uint_chars u = c :: r /\ is_digit c = true.
Proof.
  destruct u; [congruence|..]; intros _; simpl; eauto.
Qed.

Lemma int_repr_head (z : Z) :
  exists c r, int_repr z = c :: r /\ (c = 45 \/ is_digit c = true).
Proof.
  destruct z as [|p|p]; simpl.
  - eauto.
  - destruct (uint_chars_head (Pos.to_uint p)) as (c & r & -> & H);
      [apply DecimalPos.Unsigned.to_uint_nonnil|]. eauto.
  - eauto.
Qed.

Lemma number_head (c : N) :
  c = 45 \/ is_digit c = true ->
  is_ws c = false /\ (c =? 93) = false /\ (c =? 125) = false
  /\ (c =? 65279) = false /\ (c =? 34) = false /\ (c =? 123) = false
  /\ (c =? 91) = false.
Proof.
  intros [->|H]; [repeat split|].
  apply is_digit_cases in H.
  destruct H as [->|[->|[->|[->|[->|[->|[->|[->|[->| ->]]]]]]]]];
    repeat split.
Qed.

Lemma join_cons2 (sep x y : str) (l : list str) :
  join sep (x :: y :: l) = x ++ sep ++ join sep (y :: l).
Proof. reflexivity. Qed.

Lemma existsb_app_cons_false (k : str) (a b : list str) :
  keys_distinct (a ++ k :: b) = true -> existsb (str_eqb k) a = false.
Proof.
  induction a as [|x a IH]; simpl; [reflexivity|].
  intros H. apply andb_true_iff in H as [Hx Hr].
  apply negb_true_iff in Hx. rewrite existsb_app in Hx.
  apply orb_false_iff in Hx as [_ Hx]. simpl in Hx.
  apply orb_false_iff in Hx as [Hx _].
  rewrite (str_eqb_sym k x), Hx. simpl. auto.
Qed.

Lemma dict_set_fresh {F : Type} (d : list (str * pyval F)) (k : str)
      (v : pyval F) :
  existsb (str_eqb k) (List.map fst d) = false ->
  dict_set d k v = d ++ [(k, v)].
Proof.
  induction d as [|[k' v'] d IH]; simpl; [reflexivity|].
  intros H. apply orb_false_iff in H as [H1 H2].
  rewrite (str_eqb_sym k' k), H1. now rewrite IH.
Qed.

(** ** Values *)

Section Codec.
Context {F : Type} {floats : PyFloat F}.
Implicit Types (v : pyval F).

Lemma scan_number_int (z : Z) (rest : str) :
  follow_ok rest ->
  scan_number (int_repr z ++ rest) = Some (PInt z, rest).
Proof.
  intros Hf. unfold scan_number. destruct z as [|p|p]; unfold int_repr.
  - cbn [app scan_integer]. cbv beta iota.
    change (48 =? 48) with true. cbv iota.
    now rewrite follow_ok_scan_frac, follow_ok_scan_exp.
  - rewrite scan_integer_pos by exact Hf.
    rewrite follow_ok_scan_frac, follow_ok_scan_exp by exact Hf.
    cbn [app]. now rewrite DecimalPos.Unsigned.of_to.
  - cbn [app]. rewrite scan_integer_neg by exact Hf.
    rewrite follow_ok_scan_frac, follow_ok_scan_exp by exact Hf.
    cbn [app]. now rewrite DecimalPos.Unsigned.of_to.
Qed.

(** The text of a float, before what may follow a value, is scanned as
    the float [float] makes of it. *)
Lemma scan_number_float (s rest : str) :
  float_literal s = true ->
  follow_ok rest ->
  scan_number (s ++ rest) = Some (PFloat (float_of_str s), rest).
Proof.
  intros Hl Hf.
  destruct (float_literal_inv s Hl) as (neg & u & r0 & Hi & Hne & Hr).
  pose proof (float_literal_text s neg u r0 Hi Hr) as Ht.
  unfold scan_number. rewrite (scan_integer_app s rest neg u r0 Hf Hi).
  rewrite (scan_frac_app r0 rest Hf).
  rewrite (scan_exp_app (snd (scan_frac r0)) rest Hf). rewrite Hr.
  destruct (fst (scan_frac r0) ++ fst (scan_exp (snd (scan_frac r0))))
    as [|c t] eqn:E; [congruence|].
  rewrite <- Ht. reflexivity.
Qed.

Lemma scan_once_number (fuel : nat) (c : N) (r : str)
      (res : pyval F * str) :
  c = 45 \/ is_digit c = true ->
  scan_number (c :: r) = Some res ->
  scan_once (S fuel) (c :: r) = Some res.
Proof.
  intros Hc Hn. destruct (number_head c Hc) as (_ & _ & _ & _ & H34 & H123 & H91).
  cbn [scan_once]. rewrite H34, H123, H91.
  assert (Hp : strip_prefix (pystr "null") (c :: r) = None
               /\ strip_prefix (pystr "true") (c :: r) = None
               /\ strip_prefix (pystr "false") (c :: r) = None).
  { destruct Hc as [->|Hc]; [repeat split|].
    apply is_digit_cases in Hc.
    destruct Hc as [->|[->|[->|[->|[->|[->|[->|[->|[->| ->]]]]]]]]];
      repeat split. }
  destruct Hp as (-> & -> & ->).
  now rewrite Hn.
Qed.

(** A finite float is written by its [repr]. *)
Lemma floatstr_finite (f : F) :
  float_literal (float_repr f) = true -> floatstr f = float_repr f.
Proof.
  intros H. unfold floatstr.
  destruct (str_eqb (float_repr f) (pystr "nan")) eqn:E1.
  { apply str_eqb_eq in E1. rewrite E1 in H. discriminate. }
  destruct (str_eqb (float_repr f) (pystr "inf")) eqn:E2.
  { apply str_eqb_eq in E2. rewrite E2 in H. discriminate. }
  destruct (str_eqb (float_repr f) (pystr "-inf")) eqn:E3.
  { apply str_eqb_eq in E3. rewrite E3 in H. discriminate. }
  reflexivity.
Qed.

(** How the text of a value begins: not with whitespace, not with a closing
    bracket, and with an ASCII character. *)
Lemma dumps_head v :
  representable v = true ->
  exists c r, dumps v = c :: r
              /\ is_ws c = false /\ (c =? 93) = false /\ (c =? 125) = false
              /\ (c =? 65279) = false.
Proof.
  destruct v as [| [|] | z | f | s | l | d]; cbn [dumps representable];
    intros Hrep;
    try (do 2 eexists; split; [reflexivity|]; repeat split; fail).
  - destruct (int_repr_head z) as (c & r & -> & Hc).
    destruct (number_head c Hc) as (H1 & H2 & H3 & H4 & _).
    do 2 eexists; split; [reflexivity|]. auto.
  - rewrite floatstr_finite by exact Hrep.
    destruct (float_literal_head _ Hrep) as (c & r & -> & Hc).
    destruct (number_head c Hc) as (H1 & H2 & H3 & H4 & _).
    do 2 eexists; split; [reflexivity|]. auto.
Qed.

Lemma skip_ws_dumps v (rest : str) :
  representable v = true ->
  skip_ws (dumps v ++ rest) = dumps v ++ rest.
Proof.
  intros Hrep. destruct (dumps_head v Hrep) as (c & r & -> & Hws & _).
  simpl. now rewrite Hws.
Qed.

Lemma scan_elements_dumps (l : list (pyval F)) :
  l <> [] ->
  Forall (fun v => representable v = true /\ scans_back v) l ->
  forall (rest : str) (fuel : nat),
    (2 * List.length (join item_separator (List.map dumps l) ++ 93%N :: rest) + 1
     < fuel)%nat ->
    scan_elements fuel (join item_separator (List.map dumps l) ++ 93 :: rest)
    = Some (l, rest).
Proof.
  intros Hne Hall. induction Hall as [|v l [Hr Hv] Hl IH]; [congruence|].
  intros rest fuel Hfuel. clear Hne.
  destruct fuel as [|fuel]; [lia|].
  destruct l as [|v2 l].
  - cbn [List.map join] in *. cbn [scan_elements].
    rewrite Hv; [reflexivity|simpl; auto|lia].
  - cbn [List.map] in *. rewrite join_cons2 in *.
    rewrite <- !app_assoc in *. cbn [scan_elements].
    unfold item_separator in *. cbn [app] in *.
    rewrite Hv; [|simpl; auto|lia].
    cbn [skip_ws]. change (is_ws 44) with false. cbv iota.
    change (44 =? 93) with false. change (44 =? 44) with true. cbv iota.
    cbn [skip_ws]. change (is_ws 32) with true. cbv iota.
    assert (Hr2 : representable v2 = true).
    { apply Forall_inv in Hl. tauto. }
    assert (Hskip : forall X, skip_ws (join [44; 32] (dumps v2 :: List.map dumps l) ++ X)
                              = join [44; 32] (dumps v2 :: List.map dumps l) ++ X).
    { intros X. destruct l as [|v3 l]; cbn [List.map join].
      - now apply skip_ws_dumps.
      - rewrite <- app_assoc. now apply skip_ws_dumps. }
    rewrite Hskip. rewrite IH; [reflexivity|discriminate|].
    rewrite !length_app in Hfuel. cbn [List.length] in Hfuel.
    rewrite length_app in Hfuel. rewrite length_app. lia.
Qed.

Lemma dict_of_pairs_from (d acc : list (str * pyval F)) :
  keys_distinct (List.map fst acc ++ List.map fst d) = true ->
  fold_left (fun a kv => dict_set a (fst kv) (snd kv)) d acc = acc ++ d.
Proof.
  revert acc. induction d as [|[k v] d IH]; intros acc H; simpl.
  - now rewrite app_nil_r.
  - simpl in H. rewrite dict_set_fresh
      by (eapply existsb_app_cons_false; exact H).
    rewrite IH; [now rewrite <- app_assoc|].
    rewrite map_app. simpl. now rewrite <- app_assoc.
Qed.

Lemma dict_of_pairs_distinct (d : list (str * pyval F)) :
  keys_distinct (List.map fst d) = true -> dict_of_pairs d = d.
Proof. intros H. apply (dict_of_pairs_from d []). exact H. Qed.

Lemma scan_pairs_dumps (d : list (str * pyval F)) :
  d <> [] ->
  Forall (fun kv => text_ok (fst kv) = true
                    /\ representable (snd kv) = true
                    /\ scans_back (snd kv)) d ->
  forall (rest : str) (fuel : nat),
    (2 * List.length (entries_tail d rest) < fuel)%nat ->
    scan_pairs fuel (entries_tail d rest) = Some (d, rest).
Proof.
  intros Hne Hall.
  induction Hall as [|[k v] d (Hk & Hr & Hv) Hd IH]; [congruence|].
  intros rest fuel Hfuel. clear Hne. simpl in Hk, Hr, Hv.
  destruct fuel as [|fuel]; [lia|].
  cbn [entries_tail] in *. cbn [scan_pairs].
  rewrite scanstring_encoded; [|exact Hk|apply Nat.le_refl].
  unfold key_separator in *. cbn [app] in *.
  cbn [skip_ws]. change (is_ws 58) with false. cbv iota.
  change (58 =? 58) with true. cbv iota.
  cbn [skip_ws]. change (is_ws 32) with true. cbv iota.
  rewrite skip_ws_dumps by exact Hr.
  rewrite length_app in Hfuel. cbn [List.length] in Hfuel.
  rewrite length_app in Hfuel.
  destruct d as [|[k2 v2] d].
  - rewrite Hv; [|simpl; auto|rewrite length_app; lia]. reflexivity.
  - unfold item_separator in *. cbn [app] in *.
    rewrite Hv; [|simpl; auto|rewrite length_app; cbn [List.length] in *; lia].
    cbn [skip_ws]. change (is_ws 44) with false. cbv iota.
    change (44 =? 125) with false. change (44 =? 44) with true. cbv iota.
    cbn [skip_ws]. change (is_ws 32) with true. cbv iota.
    match goal with
    | |- context [skip_ws ?X] =>
        assert (Heq : X = 34 :: entries_tail ((k2, v2) :: d) rest)
    end.
    { cbn [entries_tail List.map fst snd]. unfold key_separator, item_separator.
      destruct d as [|kv3 d]; cbn [join List.map];
        unfold encode_basestring_ascii;
        repeat (rewrite <- app_assoc || rewrite <- app_comm_cons);
        cbn [app]; reflexivity. }
    rewrite Heq in *. cbn [skip_ws]. change (is_ws 34) with false. cbv iota.
    change (34 =? 34) with true. cbv iota.
    rewrite IH; [reflexivity|discriminate|].
    cbn [List.length] in Hfuel. lia.
Qed.

Lemma floats_read_back_list (l : list (pyval F)) (x : pyval F) :
  fold_right (fun x P => floats_read_back x /\ P) True l ->
  In x l -> floats_read_back x.
Proof.
  induction l as [|y l IH]; cbn [fold_right In]; [tauto|].
  intros [Hy Hl] [<-|Hin]; auto.
Qed.

Lemma floats_read_back_dict (d : list (str * pyval F)) (kv : str * pyval F) :
  fold_right (fun kv P => floats_read_back (snd kv) /\ P) True d ->
  In kv d -> floats_read_back (snd kv).
Proof.
  induction d as [|y d IH]; cbn [fold_right In]; [tauto|].
  intros [Hy Hd] [<-|Hin]; auto.
Qed.

Lemma scan_once_list (fuel : nat) (r : str) :
  scan_once (F := F) (S fuel) (91 :: r)
  = match skip_ws r with
    | c1 :: r1 =>
        if c1 =? 93 then Some (PList [], r1)
        else
          match scan_elements fuel (c1 :: r1) with
          | None => None
          | Some (vs, rest) => Some (PList vs, rest)
          end
    | [] => None
    end.
Proof. reflexivity. Qed.

Lemma scan_once_dict (fuel : nat) (r : str) :
  scan_once (F := F) (S fuel) (123 :: r)
  = match skip_ws r with
    | c1 :: r1 =>
        if c1 =? 125 then Some (PDict [], r1)
        else if c1 =? 34 then
          match scan_pairs fuel r1 with
          | None => None
          | Some (pairs, rest) => Some (PDict (dict_of_pairs pairs), rest)
          end
        else None
    | [] => None
    end.
Proof. reflexivity. Qed.

Lemma scan_once_string (fuel : nat) (r : str) :
  scan_once (F := F) (S fuel) (34 :: r)
  = match scanstring (List.length r) r with
    | None => None
    | Some (t, rest) => Some (PStr t, rest)
    end.
Proof. reflexivity. Qed.

Lemma representable_scans_back v :
  representable v = true -> floats_read_back v -> scans_back v.
Proof.
  induction v as [| b | z | f | s | l IHl | d IHd] using pyval_ind';
    intros Hrep Hfl rest fuel Hf Hfuel;
    (destruct fuel as [|fuel]; [lia|]).
  - reflexivity.
  - destruct b; reflexivity.
  - cbn [dumps]. destruct (int_repr_head z) as (c & r & E & Hc).
    rewrite E. cbn [app]. apply scan_once_number; [exact Hc|].
    rewrite app_comm_cons, <- E. now apply scan_number_int.
  - cbn [dumps representable floats_read_back] in *.
    rewrite floatstr_finite by exact Hrep.
    destruct (float_literal_head _ Hrep) as (c & r & E & Hc).
    rewrite E. cbn [app]. apply scan_once_number; [exact Hc|].
    rewrite app_comm_cons, <- E.
    rewrite (scan_number_float _ rest Hrep Hf). now rewrite Hfl.
  - cbn [dumps representable] in *. unfold encode_basestring_ascii.
    rewrite <- app_comm_cons, <- app_assoc. cbn [app].
    rewrite scan_once_string.
    rewrite scanstring_encoded; [reflexivity|exact Hrep|apply Nat.le_refl].
  - cbn [dumps representable floats_read_back] in *.
    rewrite <- app_comm_cons, <- app_assoc in *. cbn [app] in *.
    destruct l as [|v l].
    + reflexivity.
    + rewrite scan_once_list.
      assert (Hall : Forall (fun v => representable v = true /\ scans_back v)
                            (v :: l)).
      { rewrite Forall_forall in IHl |- *. intros x Hx.
        rewrite forallb_forall in Hrep. split; [now apply Hrep|].
        apply IHl; [exact Hx|now apply Hrep|].
        now apply (floats_read_back_list (v :: l)). }
      assert (Hv : representable v = true).
      { apply Forall_inv in Hall. tauto. }
      assert (Hskip : forall X,
                 skip_ws (join item_separator (List.map dumps (v :: l)) ++ X)
                 = join item_separator (List.map dumps (v :: l)) ++ X).
      { intros X. destruct l as [|v3 l]; cbn [List.map join].
        - now apply skip_ws_dumps.
        - rewrite <- app_assoc. now apply skip_ws_dumps. }
      rewrite Hskip.
      pose proof (scan_elements_dumps (v :: l) ltac:(discriminate) Hall
                    rest fuel) as He.
      cbn [List.length] in Hfuel. specialize (He ltac:(lia)).
      destruct (join item_separator (List.map dumps (v :: l)) ++ 93 :: rest)
        as [|c1 r1] eqn:E.
      { destruct l; cbn [List.map join] in E;
          destruct (dumps_head v Hv) as (c & r & Ev & _); rewrite Ev in E;
          discriminate. }
      assert (Hc1 : (c1 =? 93) = false).
      { destruct (dumps_head v Hv) as (c & r & Ev & _ & H93 & _).
        destruct l; cbn [List.map join] in E; rewrite Ev in E;
          injection E as <- _; exact H93. }
      rewrite Hc1, He. reflexivity.
  - cbn [dumps representable floats_read_back] in *.
    apply andb_true_iff in Hrep as [Hkeys Hrep].
    rewrite <- app_comm_cons, <- app_assoc in *. cbn [app] in *.
    destruct d as [|[k v] d].
    + reflexivity.
    + rewrite scan_once_dict.
      assert (Hall : Forall (fun kv => text_ok (fst kv) = true
                                       /\ representable (snd kv) = true
                                       /\ scans_back (snd kv)) ((k, v) :: d)).
      { rewrite Forall_forall in IHd |- *. intros x Hx.
        rewrite forallb_forall in Hrep. specialize (Hrep x Hx).
        apply andb_true_iff in Hrep as [H1 H2]. split; [exact H1|].
        split; [exact H2|]. apply IHd; [exact Hx|exact H2|].
        now apply (floats_read_back_dict ((k, v) :: d)). }
      match goal with
      | |- context [skip_ws ?X] =>
          assert (Heq : X = 34 :: entries_tail ((k, v) :: d) rest)
      end.
      { cbn [entries_tail List.map fst snd].
        unfold key_separator, item_separator.
        destruct d as [|kv3 d]; cbn [join List.map];
          unfold encode_basestring_ascii;
          repeat (rewrite <- app_assoc || rewrite <- app_comm_cons);
          cbn [app]; reflexivity. }
      rewrite Heq in *. cbn [skip_ws]. change (is_ws 34) with false.
      cbv iota. change (34 =? 125) with false. change (34 =? 34) with true.
      cbv iota.
      rewrite (scan_pairs_dumps ((k, v) :: d) ltac:(discriminate) Hall rest fuel);
        [|cbn [List.length] in Hfuel; lia].
      now rewrite dict_of_pairs_distinct.
Qed.

(** [json.loads(json.dumps(v)) == v] on representable documents whose
    floats [float] reads back from their [repr]. *)
Theorem loads_dumps v :
  representable v = true -> floats_read_back v -> loads (dumps v) = Some v.
Proof.
  intros Hrep Hfl. unfold loads.
  destruct (dumps_head v Hrep) as (c & r & E & Hws & _ & _ & Hbom).
  assert (Hb : starts_with_bom (dumps v) = false) by (now rewrite E).
  rewrite Hb.
  rewrite <- (app_nil_r (dumps v)) at 2. rewrite skip_ws_dumps by exact Hrep.
  rewrite (representable_scans_back v Hrep Hfl [] _ I); [reflexivity|].
  rewrite app_nil_r. lia.
Qed.
End Codec.
End PyJsonFacts.

(** ** Round trip through the queue, on the concrete codec *)

(** What the drain loop publishes for a record queued by [_send_to_cloud]
    is what [_send_to_cloud] itself would have published. *)
Lemma queued_record_publication {F : Type} {codec : JsonCodec F}
      (cfg : Config) (id : Z) (topic : str) (payload : pyval F) :
  publication_of cfg {| item_id := id;
                        item_data := queued_record topic payload |}
  = Some (topic, json_dumps payload).
Proof. reflexivity. Qed.

(** C8. A JSON-representable record (well-formed strings, distinct keys,
    finite floats; [float] reading a float back from its [repr], as
    CPython's does) is read back by [json.loads] from the text
    [json.dumps] wrote; enqueued into a queue whose pending texts decode,
    it is returned by [get_pending], under the id [enqueue] gave it, equal
    to the record enqueued, whenever the limit leaves room for it; and
    [get_pending] returns nothing else under that id. *)
Theorem queue_round_trip {F : Type} {floats : PyFloat F}
        (q : OfflineQueue) (data : pyval F) (t limit : Z) :
  PyJson.representable data = true ->
  PyJson.floats_read_back data ->
  fits_int64 limit = true ->
  (forall r, In r (reading_queue q) -> is_pending r = true ->
             PyJson.loads (F := F) (row_data r) <> None) ->
  limit < 0 \/ get_count q < limit ->
  PyJson.loads (PyJson.dumps data) = Some data
  /\ exists items : list (item F),
      get_pending (snd (enqueue q data t)) limit = Some items
      /\ In {| item_id := fst (enqueue q data t); item_data := data |} items
      /\ (forall it, In it items ->
                     item_id it = fst (enqueue q data t) ->
                     item_data it = data).
Proof.
  intros Hrep Hfl Hfit Hdec Hroom.
  pose proof (PyJsonFacts.loads_dumps data Hrep Hfl) as Hrt.
  split; [exact Hrt|].
  now apply (enqueue_then_get_pending q data t limit).
Qed.

(* ================================================================== *)
(** * The service on sample inputs *)

Module Run.
Import Sample.

(** C1, on the input where it fails. Entries 1, 2, 3 are pending, the
    publish of entry 2 returns an error code: the loop still publishes
    entry 3, and entries 1 and 3 are deleted; entry 2 alone stays. *)
Theorem drain_goes_on_after_failed_send :
  List.map row_id (reading_queue three_pending) = [1; 2; 3]
  /\ exists s',
      _offline_queue_cycle default_config net_second_fails
                           (online three_pending) = Some s'
      /\ cloud_published s'
         = [ (CLOUD_TOPIC default_config, PyJson.dumps (reading 1));
             (CLOUD_TOPIC default_config, PyJson.dumps (reading 2));
             (CLOUD_TOPIC default_config, PyJson.dumps (reading 3)) ]
      /\ List.map row_id (reading_queue (offline_queue s')) = [2].
Proof.
  split; [reflexivity|]. eexists. split; [vm_compute; reflexivity|].
  split; reflexivity.
Qed.

(** The same run when the publish of entry 2 raises instead: entry 3 is
    not attempted, entry 1 is deleted, entries 2 and 3 stay. *)
Example drain_stops_on_exception :
  exists s',
    _offline_queue_cycle default_config net_second_raises
                         (online three_pending) = Some s'
    /\ cloud_published s'
       = [ (CLOUD_TOPIC default_config, PyJson.dumps (reading 1));
           (CLOUD_TOPIC default_config, PyJson.dumps (reading 2)) ]
    /\ List.map row_id (reading_queue (offline_queue s')) = [2; 3].
Proof.
  eexists. split; [vm_compute; reflexivity|]. split; reflexivity.
Qed.

(** C2 fails on a queue written across a clock step: the row with id 2
    carries the earlier [created_at], so it is returned, and drained,
    before the row with id 1.  A negative limit returns every row.  And
    the call raises, returning nothing, on a limit beyond 64 bits and on a
    stored text that does not decode. *)
Lemma get_pending_not_in_id_order :
  List.map row_id (reading_queue clock_set_back) = [1; 2]
  /\ option_map (List.map item_id) (get_pending clock_set_back 100)
     = Some [2; 1]
  /\ (exists s',
        _offline_queue_cycle default_config net_ok (online clock_set_back)
        = Some s'
        /\ cloud_published s'
           = [ (CLOUD_TOPIC default_config, PyJson.dumps (reading 2));
               (CLOUD_TOPIC default_config, PyJson.dumps (reading 1)) ])
  /\ option_map (List.map item_id) (get_pending three_pending (-1))
     = Some [1; 2; 3]
  /\ get_pending (F := dfloat) three_pending (2 ^ 63) = None
  /\ get_pending (F := dfloat) unreadable 100 = None.
Proof.
  split; [reflexivity|]. split; [reflexivity|]. split.
  - eexists. split; [vm_compute; reflexivity|]. reflexivity.
  - split; [reflexivity|]. split; reflexivity.
Qed.

(** C5 fails for a batch size of 0: the empty buffer has reached the
    size threshold, the loop decides to send, and nothing is flushed.  And
    before any flush the timeout runs from the creation of the service: a
    service created at second 0 flushes a lone record, received at second
    1000, at the next turn of the loop, for a batch size of 3 and a timeout
    of 30. *)
Lemma empty_buffer_is_never_flushed :
  BATCH_SIZE (batched 0 30)
  <= Z.of_nat (List.length (batch_buffer (online empty_queue)))
  /\ should_send (batched 0 30) (online empty_queue) (time_time noon) = true
  /\ _batch_sender_iteration (batched 0 30) net_ok noon (online empty_queue)
     = online empty_queue
  /\ List.length
       (batch_buffer
          (_handle_local_message (batched 3 30) net_ok noon
                                 (online empty_queue) (data_msg 1))) = 1%nat
  /\ List.length
       (cloud_published
          (run (batched 3 30) net_ok (online empty_queue)
               [ (noon, LocalMessage (data_msg 1));
                 (noon_and_a_second, BatchTick) ])) = 1%nat.
Proof.
  split; [simpl; lia|]. split; [reflexivity|]. split; [reflexivity|].
  split; reflexivity.
Qed.

(** C9 fails: with the local link down the command is not forwarded; with
    the local link up what is forwarded is not the text received; and a
    command that does not decode is not forwarded at all. *)
Lemma command_not_forwarded_verbatim :
  local_published (_handle_cloud_message net_ok (fresh empty_queue) command_msg)
  = []
  /\ local_published
       (_handle_cloud_message net_ok
          (set_local_connected true (fresh empty_queue)) command_msg)
     = [(COMMANDS_TOPIC, [123; 34; 97; 34; 58; 32; 49; 125]%N)]
  /\ [123; 34; 97; 34; 58; 32; 49; 125]%N <> command_text
  /\ local_published
       (_handle_cloud_message net_ok
          (set_local_connected true (fresh empty_queue)) malformed_msg)
     = [].
Proof.
  split; [reflexivity|]. split; [reflexivity|].
  split; [discriminate|reflexivity].
Qed.

(** C10 fails: [received_at] is the reading of the clock, so it differs
    between two runs under one configuration; and a message that decodes
    to a list is decoded, counted, and then neither stamped nor
    forwarded nor buffered. *)
Lemma received_at_is_not_configured :
  cloud_published
    (_handle_local_message default_config net_ok noon
                           (online empty_queue) (data_msg 7))
  <> cloud_published
       (_handle_local_message default_config net_ok noon_and_a_second
                              (online empty_queue) (data_msg 7))
  /\ decode_message (F := dfloat) list_msg = Some (PList [PInt 1])
  /\ _handle_local_message (batched 3 30) net_ok noon
                           (online empty_queue) list_msg
     = logger ERROR "Error handling local message"
         (set_stats
            {| readings_received := 1; readings_sent := 0;
               readings_queued := 0; connection_errors := 0;
               last_sync := None |} (online empty_queue)).
Proof.
  split; [vm_compute; discriminate|]. split; reflexivity.
Qed.
(** ** The general statements at sample inputs *)

Lemma send_to_cloud_success_witness :
  cloud_connected (online empty_queue) = true
  /\ fst (_send_to_cloud net_ok noon (online empty_queue)
                         (CLOUD_TOPIC default_config) (reading 1)) = true
  /\ offline_queue
       (snd (_send_to_cloud net_ok noon (online empty_queue)
                            (CLOUD_TOPIC default_config) (reading 1)))
     = empty_queue.
Proof.
  split; [reflexivity|].
  destruct (send_to_cloud_success_leaves_queue
              net_ok noon (online empty_queue)
              (CLOUD_TOPIC default_config) (reading 1)
              eq_refl eq_refl) as (H1 & H2 & _).
  split; [exact H1|exact H2].
Defined.

Lemma send_to_cloud_failure_witness :
  cloud_connected (fresh empty_queue) = false
  /\ fst (_send_to_cloud net_ok noon (fresh empty_queue)
                         (CLOUD_TOPIC default_config) (reading 1)) = false
  /\ List.map row_data
       (reading_queue
          (offline_queue
             (snd (_send_to_cloud net_ok noon (fresh empty_queue)
                                  (CLOUD_TOPIC default_config) (reading 1)))))
     = [PyJson.dumps (queued 1)].
Proof.
  split; [reflexivity|].
  destruct (send_to_cloud_failure_enqueues_once
              net_ok noon (fresh empty_queue)
              (CLOUD_TOPIC default_config) (reading 1)
              (or_introl eq_refl)) as (H1 & _ & H3 & _).
  split; [exact H1|]. rewrite H3. reflexivity.
Defined.

Lemma undecodable_local_message_witness :
  decode_message (F := dfloat) malformed_msg = None
  /\ offline_queue
       (_handle_local_message default_config net_ok noon
                              (fresh empty_queue) malformed_msg)
     = empty_queue
  /\ stats (_handle_local_message default_config net_ok noon
                                  (fresh empty_queue) malformed_msg)
     = stats (fresh empty_queue).
Proof.
  assert (Hd : decode_message (F := dfloat) malformed_msg = None)
    by reflexivity.
  split; [exact Hd|].
  destruct (undecodable_local_message_dropped
              default_config net_ok noon (fresh empty_queue) malformed_msg
              Hd) as (H1 & _ & _ & H4 & _).
  split; [exact H1|exact H4].
Defined.

Lemma alarm_bypasses_batching_witness :
  msg_topic alarm_msg = ALARMS_TOPIC
  /\ batch_buffer
       (_handle_local_message (batched 3 30) net_ok noon
                              (online empty_queue) alarm_msg)
     = [].
Proof.
  split; [reflexivity|].
  exact (proj1 (alarm_bypasses_batching (batched 3 30) net_ok noon
                  (online empty_queue) alarm_msg eq_refl)).
Defined.

Lemma local_message_stamped_witness :
  decode_message (data_msg 7) = Some (reading 7)
  /\ dict_get (edge_metadata_dict default_config noon
                                  [(pystr "node_id", PInt 7)])
              (pystr "received_at")
     = Some (PStr (F := dfloat) (now_isoformat noon)).
Proof.
  assert (Hd : decode_message (data_msg 7) = Some (reading 7))
    by reflexivity.
  split; [exact Hd|].
  destruct (local_message_stamped default_config net_ok noon
              (online empty_queue) (data_msg 7)
              [(pystr "node_id", PInt 7)] Hd)
    as ((_ & _ & _ & H) & _).
  exact H.
Defined.

Lemma get_pending_created_at_order_witness :
  fits_int64 2 = true
  /\ exists (items : list (item dfloat)) (kept later : list row),
      get_pending three_pending 2 = Some items
      /\ List.map item_id items = [1; 2]
      /\ List.map row_id kept = [1; 2]
      /\ List.map row_id later = [3].
Proof.
  split; [reflexivity|].
  destruct (get_pending_created_at_order three_pending 2 eq_refl)
    as (items & kept & later & Hg & Hk & Hp & Hs & _ & Hlen & Ho & _).
  - intros r [<-|[<-|[<-|[]]]] _; vm_compute; discriminate.
  - exists items, kept, later. split; [exact Hg|].
    assert (Hi : List.map item_id items = [1; 2]).
    { vm_compute in Hg. injection Hg as <-. reflexivity. }
    split; [exact Hi|].
    assert (Hids : List.map row_id kept = List.map item_id items).
    { clear - Hk. induction Hk as [|r it l l' [E _] _ IH]; [reflexivity|].
      simpl. now rewrite E, IH. }
    assert (Hmono : rowid_order_is_time_order three_pending).
    { repeat (constructor; try (vm_compute; discriminate)). }
    destruct (Ho Hmono) as [Happ _].
    split; [now rewrite Hids|].
    apply (f_equal (List.map row_id)) in Happ.
    rewrite map_app, Hids, Hi in Happ. vm_compute in Happ.
    now injection Happ.
Defined.

Lemma queue_round_trip_witness :
  PyJson.representable queued_float_reading = true
  /\ PyJson.floats_read_back queued_float_reading
  /\ fits_int64 50 = true
  /\ get_count three_pending < 50
  /\ PyJson.dumps float_reading
     = json_text
         "{'node_id': 'node-1', 'temperature': 21.5, 'humidity': 40.0}"
  /\ exists items : list (item dfloat),
      get_pending (snd (enqueue three_pending queued_float_reading 103)) 50
      = Some items
      /\ In {| item_id := 4; item_data := queued_float_reading |} items.
Proof.
  assert (Hrep : PyJson.representable queued_float_reading = true)
    by reflexivity.
  assert (Hfl : PyJson.floats_read_back queued_float_reading).
  { simpl. repeat split. }
  split; [exact Hrep|]. split; [exact Hfl|].
  split; [reflexivity|]. split; [reflexivity|]. split; [reflexivity|].
  destruct (queue_round_trip three_pending queued_float_reading 103 50
              Hrep Hfl eq_refl) as (_ & items & Hg & Hin & _).
  - intros r [<-|[<-|[<-|[]]]] _; vm_compute; discriminate.
  - right. reflexivity.
  - exists items. split; [exact Hg|exact Hin].
Defined.
End Run.

(* ================================================================== *)
(** * Further properties of the code *)

(** ** Histories of queue operations *)

Section QueueHistory.
Context {F : Type} {codec : JsonCodec F}.

Lemma mark_sent_sequence (q : OfflineQueue) (ids : list Z) :
  sqlite_sequence (mark_sent q ids) = sqlite_sequence q.
Proof. destruct ids; reflexivity. Qed.

Lemma mark_sent_In (q : OfflineQueue) (ids : list Z) (r : row) :
  In r (reading_queue (mark_sent q ids))
  <-> In r (reading_queue q) /\ ~ In (row_id r) ids.
Proof.
  rewrite mark_sent_rows, filter_In, negb_true_iff.
  split; intros [Hr Hn]; (split; [exact Hr|]).
  - intros Hin. apply not_true_iff_false in Hn. apply Hn.
    apply existsb_exists. exists (row_id r). split; [exact Hin|].
    apply Z.eqb_refl.
  - apply not_true_iff_false. intros He. apply existsb_exists in He.
    destruct He as (i & Hi & Heq). apply Z.eqb_eq in Heq. now subst.
Qed.

Lemma enqueue_sequence_covers (q : OfflineQueue) (data : pyval F) (t : Z) :
  sequence_covers q -> sequence_covers (snd (enqueue q data t)).
Proof.
  intros H r Hr. simpl in *. apply in_app_or in Hr as [Hr|[<-|[]]].
  - apply next_rowid_fresh in Hr. lia.
  - simpl. lia.
Qed.

Lemma mark_sent_sequence_covers (q : OfflineQueue) (ids : list Z) :
  sequence_covers q -> sequence_covers (mark_sent q ids).
Proof.
  intros H r Hr. rewrite mark_sent_sequence. apply H.
  now apply mark_sent_In in Hr.
Qed.

(** X1. Along any history of inserts and deletions on a table whose
    AUTOINCREMENT sequence covers its rowids, the ids [enqueue] returns
    grow strictly and all lie above the sequence, and above every rowid,
    of the start: no id is given out twice, not even after its row was
    deleted. *)
Theorem enqueue_ids_never_reused (ops : list (queue_op F)) (q : OfflineQueue) :
  sequence_covers q ->
  StronglySorted Z.lt (snd (queue_run q ops))
  /\ Forall (fun id => sqlite_sequence q < id
                       /\ forall r, In r (reading_queue q) -> row_id r < id)
            (snd (queue_run q ops)).
Proof.
  revert q. induction ops as [|[data t|ids] ops IH]; intros q Hq;
    cbn [queue_run].
  - repeat split; constructor.
  - pose proof (enqueue_sequence_covers q data t Hq) as Hq1.
    destruct (enqueue q data t) as [id q1] eqn:E.
    assert (Hid : id = next_rowid q) by (now inversion E).
    assert (Hseq : sqlite_sequence q1 = id) by (inversion E; reflexivity).
    cbn [snd] in Hq1.
    destruct (IH q1 Hq1) as (Hs & Hf).
    destruct (queue_run q1 ops) as [q2 l]. cbn [fst snd] in *.
    assert (Hlt : sqlite_sequence q < id) by (subst id; unfold next_rowid; lia).
    split.
    + constructor; [exact Hs|]. eapply Forall_impl; [|exact Hf].
      intros a [Ha _]. lia.
    + constructor.
      * split; [exact Hlt|]. intros r Hr. specialize (Hq r Hr). lia.
      * eapply Forall_impl; [|exact Hf]. intros a [Ha _]. split; [lia|].
        intros r Hr. specialize (Hq r Hr). lia.
  - pose proof (mark_sent_sequence_covers q ids Hq) as Hq1.
    destruct (IH _ Hq1) as (Hs & Hf). split; [exact Hs|].
    eapply Forall_impl; [|exact Hf]. intros a [Ha _].
    rewrite mark_sent_sequence in Ha. split; [exact Ha|].
    intros r Hr. specialize (Hq r Hr). lia.
Qed.

Lemma filter_same_twice {A} (f : A -> bool) (l : list A) :
  filter f (filter f l) = filter f l.
Proof.
  induction l as [|x l IH]; [reflexivity|]. cbn [filter].
  destruct (f x) eqn:E; [|exact IH]. cbn [filter]. rewrite E. now f_equal.
Qed.

(** X2. [mark_sent], called with ids that SQLite can bind (each a 64-bit
    integer, no more of them than one statement takes), removes every row
    whose id is listed and no other row; the rows that stay keep their
    order, and none is doubled; ids that are not in the table, and the
    empty list, change nothing; deleting twice is deleting once; the
    AUTOINCREMENT sequence stays. *)
Theorem mark_sent_deletes_exactly_the_listed (q : OfflineQueue) (ids : list Z) :
  forallb fits_int64 ids = true ->
  (List.length ids <= SQLITE_MAX_VARIABLE_NUMBER)%nat ->
  (forall r, In r (reading_queue (mark_sent q ids))
             <-> In r (reading_queue q) /\ ~ In (row_id r) ids)
  /\ (forall R : row -> row -> Prop,
        StronglySorted R (reading_queue q) ->
        StronglySorted R (reading_queue (mark_sent q ids)))
  /\ (NoDup (reading_queue q) -> NoDup (reading_queue (mark_sent q ids)))
  /\ ((forall r, In r (reading_queue q) -> ~ In (row_id r) ids) ->
      mark_sent q ids = q)
  /\ mark_sent (mark_sent q ids) ids = mark_sent q ids
  /\ sqlite_sequence (mark_sent q ids) = sqlite_sequence q.
Proof.
  intros _ _.
  split; [intros r; apply mark_sent_In|].
  split; [intros R HR; rewrite mark_sent_rows; now apply StronglySorted_filter|].
  split; [intros Hnd; rewrite mark_sent_rows; now apply NoDup_filter|].
  split; [|split; [|apply mark_sent_sequence]].
  - intros Hnone.
    assert (Hrows : reading_queue (mark_sent q ids) = reading_queue q).
    { rewrite mark_sent_rows.
      induction (reading_queue q) as [|r t IH]; [reflexivity|].
      cbn [filter].
      assert (He : existsb (Z.eqb (row_id r)) ids = false).
      { apply not_true_iff_false. intros He. apply existsb_exists in He.
        destruct He as (i & Hi & Heq). apply Z.eqb_eq in Heq. subst i.
        apply (Hnone r); simpl; auto. }
      rewrite He. cbn [negb]. f_equal. apply IH.
      intros r' Hr'. apply Hnone. now right. }
    pose proof (mark_sent_sequence q ids) as Hseq.
    destruct (mark_sent q ids) as [rows sq], q as [rows0 sq0].
    cbn [reading_queue sqlite_sequence] in Hrows, Hseq. now subst.
  - destruct ids as [|i ids]; [reflexivity|].
    unfold mark_sent. cbn [reading_queue sqlite_sequence]. f_equal.
    apply filter_same_twice.
Qed.

(** X3. [get_count] is the number of entries [get_pending] returns when
    nothing limits it (a negative limit, or one that is not below the
    count), on a table whose stored texts decode. *)
Theorem get_count_counts_get_pending (q : OfflineQueue) (limit : Z) :
  fits_int64 limit = true ->
  (forall r, In r (reading_queue q) -> json_loads (row_data r) <> None) ->
  limit < 0 \/ get_count q <= limit ->
  exists items : list (item F),
    get_pending q limit = Some items
    /\ Z.of_nat (List.length items) = get_count q.
Proof.
  intros Hfit Hdec Hroom.
  destruct (load_rows_total (select_pending q limit)) as [items Hg].
  { intros r Hr. apply Hdec. now apply select_pending_in in Hr. }
  exists items. unfold get_pending. rewrite Hfit. split; [exact Hg|].
  assert (Hlen : List.length items = List.length (select_pending q limit)).
  { apply load_rows_ids in Hg.
    rewrite <- (length_map item_id), Hg. apply length_map. }
  rewrite Hlen. unfold select_pending, get_count.
  rewrite sql_limit_all.
  - now rewrite (Permutation_length (order_by_created_at_perm _)).
  - destruct Hroom as [H|H]; [now left|right].
    rewrite (Permutation_length (order_by_created_at_perm _)).
    exact H.
Qed.
End QueueHistory.

Section QueueOrder.
Context {F : Type} {codec : JsonCodec F}.

Lemma mark_sent_time_order (q : OfflineQueue) (ids : list Z) :
  rowid_order_is_time_order q -> rowid_order_is_time_order (mark_sent q ids).
Proof.
  unfold rowid_order_is_time_order. rewrite mark_sent_rows.
  apply StronglySorted_filter.
Qed.

Lemma queue_run_time_order (ops : list (queue_op F)) (q : OfflineQueue) :
  rowid_order_is_time_order q ->
  clock_never_back q ops ->
  rowid_order_is_time_order (fst (queue_run q ops)).
Proof.
  revert q. induction ops as [|[data t|ids] ops IH]; intros q Hord [Hs Hrows];
    cbn [queue_run insert_clocks] in *; [exact Hord| |].
  - assert (Hq1 : rowid_order_is_time_order (snd (enqueue q data t))).
    { apply enqueue_time_order; [exact Hord|].
      intros r Hr. apply (Hrows r t Hr). now left. }
    assert (Hc1 : clock_never_back (snd (enqueue q data t)) ops).
    { apply StronglySorted_inv in Hs as [Hs Ht]. split; [exact Hs|].
      intros r t' Hr Ht'. simpl in Hr.
      apply in_app_or in Hr as [Hr|[<-|[]]].
      - apply (Hrows r t' Hr). now right.
      - simpl. rewrite Forall_forall in Ht. now apply Ht. }
    specialize (IH _ Hq1 Hc1).
    destruct (enqueue q data t) as [id q1]. cbn [snd] in IH.
    now destruct (queue_run q1 ops).
  - apply IH; [now apply mark_sent_time_order|].
    split; [exact Hs|]. intros r t Hr Ht. apply (Hrows r t); [|exact Ht].
    now apply mark_sent_In in Hr.
Qed.

(** X4. A queue written under a clock that never stepped back (inserts and
    deletions in any order) is read first in, first out: [get_pending]
    returns the pending rows in strictly ascending id order, the first
    [limit] of the table. *)
Theorem fifo_when_clock_never_steps_back
        (ops : list (queue_op F)) (q : OfflineQueue) (limit : Z) :
  rowid_order_is_time_order q ->
  clock_never_back q ops ->
  fits_int64 limit = true ->
  (forall r, In r (reading_queue (fst (queue_run q ops))) ->
             json_loads (row_data r) <> None) ->
  exists items : list (item F),
    get_pending (fst (queue_run q ops)) limit = Some items
    /\ StronglySorted Z.lt (List.map item_id items)
    /\ List.map item_id items
       = List.map row_id
           (sql_limit limit
              (filter is_pending (reading_queue (fst (queue_run q ops))))).
Proof.
  intros Hord Hclk Hfit Hdec.
  pose proof (queue_run_time_order ops q Hord Hclk) as Hfinal.
  set (q' := fst (queue_run q ops)) in *.
  destruct (load_rows_total (select_pending q' limit)) as [items Hg].
  { intros r Hr. apply Hdec. now apply select_pending_in in Hr. }
  exists items. unfold get_pending. rewrite Hfit. split; [exact Hg|].
  rewrite (load_rows_ids _ _ Hg).
  destruct (select_pending_time_order q' limit Hfinal) as [Heq Hs].
  split; [exact Hs|]. now rewrite Heq.
Qed.
End QueueOrder.

(** ** Counting what a drain turn deletes *)

Lemma NoDup_map_filter {A B} (f : A -> B) (g : A -> bool) (l : list A) :
  NoDup (List.map f l) -> NoDup (List.map f (filter g l)).
Proof.
  induction l as [|x l IH]; simpl; [auto|]. intros H.
  apply NoDup_cons_iff in H as [Hx Hl]. destruct (g x); [|auto].
  simpl. constructor; [|auto]. intros Hin. apply Hx.
  apply in_map_iff in Hin as (y & Hy & Hin). apply filter_In in Hin as [Hin _].
  rewrite <- Hy. now apply in_map.
Qed.

Lemma NoDup_map_firstn {A B} (f : A -> B) (n : nat) (l : list A) :
  NoDup (List.map f l) -> NoDup (List.map f (firstn n l)).
Proof.
  revert n. induction l as [|x l IH]; intros [|n]; simpl; try constructor.
  - intros Hin. apply NoDup_cons_iff in H as [Hx _]. apply Hx.
    apply in_map_iff in Hin as (y & Hy & Hin). rewrite <- Hy.
    apply in_map. rewrite <- (firstn_skipn n l). apply in_or_app. now left.
  - apply IH. now apply NoDup_cons_iff in H.
Qed.

Lemma filter_twice {A} (f g : A -> bool) (l : list A) :
  filter f (filter g l) = filter (fun x => g x && f x) l.
Proof.
  induction l as [|x l IH]; [reflexivity|]. cbn [filter].
  destruct (g x); cbn [filter andb]; [destruct (f x)|]; now rewrite IH.
Qed.

Lemma filter_length_split {A} (f g : A -> bool) (l : list A) :
  List.length (filter f l)
  = (List.length (filter (fun x => f x && g x) l)
     + List.length (filter (fun x => f x && negb (g x)) l))%nat.
Proof.
  induction l as [|x l IH]; [reflexivity|]. cbn [filter].
  destruct (f x), (g x); cbn [andb negb List.length]; lia.
Qed.

(** Deleting distinct ids of pending rows lowers the count of pending rows
    by their number. *)
Lemma pending_count_after_delete (rows : list row) (ids : list Z) :
  NoDup (List.map row_id rows) ->
  NoDup ids ->
  (forall id, In id ids ->
              exists r, In r rows /\ row_id r = id /\ is_pending r = true) ->
  (List.length
     (filter is_pending
        (filter (fun r => negb (existsb (Z.eqb (row_id r)) ids)) rows))
   + List.length ids
   = List.length (filter is_pending rows))%nat.
Proof.
  intros Hrows Hids Hex.
  rewrite filter_twice.
  rewrite (filter_length_split is_pending
             (fun r => existsb (Z.eqb (row_id r)) ids) rows).
  assert (Hperm : Permutation
                    (List.map row_id
                       (filter (fun x => is_pending x
                                         && existsb (Z.eqb (row_id x)) ids) rows))
                    ids).
  { apply NoDup_Permutation; [now apply NoDup_map_filter|exact Hids|].
    intros x. split.
    - intros Hin. apply in_map_iff in Hin as (r & <- & Hr).
      apply filter_In in Hr as [_ Hr]. apply andb_true_iff in Hr as [_ Hr].
      apply existsb_exists in Hr as (i & Hi & Heq).
      apply Z.eqb_eq in Heq. now subst.
    - intros Hin. destruct (Hex x Hin) as (r & Hr & <- & Hp).
      apply in_map. apply filter_In. split; [exact Hr|].
      rewrite Hp. cbn [andb]. apply existsb_exists.
      exists (row_id r). split; [exact Hin|apply Z.eqb_refl]. }
  apply Permutation_length in Hperm. rewrite length_map in Hperm.
  rewrite Hperm.
  assert (Heq : filter (fun x => negb (existsb (Z.eqb (row_id x)) ids)
                                 && is_pending x) rows
                = filter (fun x => is_pending x
                                   && negb (existsb (Z.eqb (row_id x)) ids)) rows).
  { apply filter_ext. intros a. apply andb_comm. }
  rewrite Heq. lia.
Qed.

Section DrainCount.
Context {F : Type} {codec : JsonCodec F}.
Variables (cfg : Config) (net : network).
Implicit Types (s : CloudSyncService F) (pending : list (item F)).

(** An item the loop cannot publish (its data is not a dict, or its topic
    is not a str) ends the loop at once. *)
Lemma drain_items_unusable (it : item F) pending s ids :
  publication_of cfg it = None ->
  drain_items cfg net s (it :: pending) ids
  = (logger ERROR "Error processing queued item" s, ids).
Proof.
  intros Hp. unfold publication_of in Hp. cbn [drain_items].
  destruct (py_get (item_data it) (pystr "topic") (PStr (CLOUD_TOPIC cfg)))
    as [[| | | |t| |]|];
    destruct (py_get (item_data it) (pystr "payload") (item_data it))
      as [payload|]; try reflexivity; discriminate.
Qed.

Lemma drain_items_sent_nodup pending s ids :
  NoDup (ids ++ List.map item_id pending) ->
  NoDup (snd (drain_items cfg net s pending ids)).
Proof.
  revert s ids. induction pending as [|it rest IH]; intros s ids Hnd.
  - simpl in *. now rewrite app_nil_r in Hnd.
  - destruct (publication_of cfg it) as [pub|] eqn:Hp.
    + rewrite (drain_items_step cfg net it rest s ids pub Hp).
      cbn [List.map] in Hnd.
      destruct (cloud_outcome net (List.length (cloud_published s)))
        as [rc|]; [destruct (rc =? MQTT_ERR_SUCCESS)|].
      * apply IH. now rewrite <- app_assoc.
      * apply IH. now apply NoDup_remove_1 in Hnd.
      * simpl. now apply NoDup_app_remove_r in Hnd.
    + rewrite (drain_items_unusable it rest s ids Hp). simpl.
      now apply NoDup_app_remove_r in Hnd.
Qed.

Lemma drain_items_sent_incl pending s ids (id : Z) :
  In id (snd (drain_items cfg net s pending ids)) ->
  In id ids \/ In id (List.map item_id pending).
Proof.
  intros H. apply drain_items_only_confirmed in H
    as [H|(it & n & Hin & Hid & _)]; [now left|right].
  rewrite <- Hid. now apply in_map.
Qed.

(** The sent counter grows by the number of ids the loop collects. *)
Lemma drain_items_sent_count pending s ids :
  readings_sent (stats (fst (drain_items cfg net s pending ids)))
  + Z.of_nat (List.length ids)
  = readings_sent (stats s)
    + Z.of_nat (List.length (snd (drain_items cfg net s pending ids)))
  /\ readings_received (stats (fst (drain_items cfg net s pending ids)))
     = readings_received (stats s)
  /\ readings_queued (stats (fst (drain_items cfg net s pending ids)))
     = readings_queued (stats s)
  /\ connection_errors (stats (fst (drain_items cfg net s pending ids)))
     = connection_errors (stats s)
  /\ last_sync (stats (fst (drain_items cfg net s pending ids)))
     = last_sync (stats s).
Proof.
  revert s ids. induction pending as [|it rest IH]; intros s ids.
  - simpl. repeat split.
  - destruct (publication_of cfg it) as [pub|] eqn:Hp.
    + rewrite (drain_items_step cfg net it rest s ids pub Hp).
      destruct (cloud_outcome net (List.length (cloud_published s)))
        as [rc|]; [destruct (rc =? MQTT_ERR_SUCCESS)|].
      * match goal with |- context [drain_items cfg net ?s1 rest ?i] =>
          specialize (IH s1 i);
          destruct (drain_items cfg net s1 rest i) as [sx idsx] end.
        rewrite length_app in IH. cbn in IH |- *.
        destruct IH as (H1 & H2 & H3 & H4 & H5).
        repeat split; try assumption. lia.
      * match goal with |- context [drain_items cfg net ?s1 rest ?i] =>
          specialize (IH s1 i);
          destruct (drain_items cfg net s1 rest i) as [sx idsx] end.
        cbn in IH |- *. exact IH.
      * simpl. repeat split.
    + rewrite (drain_items_unusable it rest s ids Hp). simpl. repeat split.
Qed.

(** X5. A turn of the queue processor that does not raise, on a table
    without repeated ids: the pending count goes down by exactly the number
    of sends the turn confirmed (the growth of [readings_sent]), never up,
    and no row appears. *)
Theorem drain_turn_accounting s s' :
  NoDup (List.map row_id (reading_queue (offline_queue s))) ->
  _offline_queue_cycle cfg net s = Some s' ->
  get_count (offline_queue s')
  = get_count (offline_queue s)
    - (readings_sent (stats s') - readings_sent (stats s))
  /\ readings_sent (stats s) <= readings_sent (stats s')
  /\ get_count (offline_queue s') <= get_count (offline_queue s)
  /\ (forall r, In r (reading_queue (offline_queue s')) ->
                In r (reading_queue (offline_queue s))).
Proof.
  intros Hnd Hc.
  assert (Hgoal :
    get_count (offline_queue s')
    = get_count (offline_queue s)
      - (readings_sent (stats s') - readings_sent (stats s))
    /\ readings_sent (stats s) <= readings_sent (stats s')
    /\ (forall r, In r (reading_queue (offline_queue s')) ->
                  In r (reading_queue (offline_queue s)))).
  2:{ destruct Hgoal as (H1 & H2 & H3). repeat split; auto. lia. }
  unfold _offline_queue_cycle in Hc.
  destruct (cloud_connected s); cbn [negb] in Hc;
    [|injection Hc as <-; repeat split; auto; lia].
  destruct (get_pending (offline_queue s) 50) as [pending|] eqn:Hg;
    [|discriminate].
  destruct pending as [|it rest];
    [injection Hc as <-; repeat split; auto; lia|].
  set (s0 := logger INFO "Processing queued readings..." s) in *.
  pose proof (drain_items_frame cfg net (it :: rest) s0 []) as (Hq & _).
  pose proof (drain_items_sent_count (it :: rest) s0 []) as (Hcount & _).
  pose proof (drain_items_sent_nodup (it :: rest) s0 []) as Hsnd.
  pose proof (drain_items_sent_incl (it :: rest) s0 []) as Hincl.
  unfold get_pending in Hg. change (fits_int64 50) with true in Hg.
  cbv iota in Hg.
  pose proof (load_rows_ids _ _ Hg) as Hids.
  assert (Hsel : NoDup (List.map row_id (select_pending (offline_queue s) 50))).
  { unfold select_pending, sql_limit. change (50 <? 0) with false. cbv iota.
    apply NoDup_map_firstn.
    eapply Permutation_NoDup;
      [apply Permutation_map, Permutation_sym, order_by_created_at_perm|].
    now apply NoDup_map_filter. }
  rewrite <- Hids in Hsel. specialize (Hsnd Hsel).
  destruct (drain_items cfg net s0 (it :: rest) []) as [s1 sent] eqn:E.
  cbn [fst snd] in *.
  assert (Hrm : (List.length
                   (filter is_pending
                      (filter (fun r => negb (existsb (Z.eqb (row_id r)) sent))
                              (reading_queue (offline_queue s))))
                 + List.length sent
                 = List.length (filter is_pending
                                  (reading_queue (offline_queue s))))%nat).
  { apply pending_count_after_delete; [exact Hnd|exact Hsnd|].
    intros id Hid. apply Hincl in Hid as [[]|Hid].
    rewrite Hids in Hid. apply in_map_iff in Hid as (r & Hr & Hin).
    apply select_pending_in in Hin as [Hin Hp]. eauto. }
  simpl in Hcount.
  assert (Hs' : (sent = [] /\ s' = s1)
                \/ s' = logger INFO "Cleared readings from offline queue"
                          (set_offline_queue
                             (mark_sent (offline_queue s1) sent) s1)).
  { destruct sent; injection Hc as <-; auto. }
  clear Hc. destruct Hs' as [[-> ->]| ->].
  - simpl in *. rewrite Hq. simpl. repeat split; auto; lia.
  - cbn [offline_queue logger set_offline_queue stats].
    unfold get_count. rewrite mark_sent_rows, Hq. simpl offline_queue.
    split; [|split].
    + lia.
    + lia.
    + intros r Hr. now apply filter_In in Hr.
Qed.

(** X6. A pending row that decodes to something the loop cannot publish
    (a JSON value that is not an object, or an object whose topic is not a
    string), once it is the first row fetched, blocks the queue: every turn
    of the processor stops at it, publishes nothing and deletes nothing,
    however many turns are made. *)
Theorem unusable_row_blocks_the_queue (it : item F) (rest : list (item F))
        (turns : nat) s :
  cloud_connected s = true ->
  running s = true ->
  get_pending (offline_queue s) 50 = Some (it :: rest) ->
  publication_of cfg it = None ->
  exists s',
    _offline_queue_processor cfg net turns s = Some s'
    /\ same_but_log s' s.
Proof.
  intros Hc Hr Hg Hp.
  assert (Hgen : forall s0, same_but_log s0 s ->
                 exists s', _offline_queue_processor cfg net turns s0 = Some s'
                            /\ same_but_log s' s).
  { induction turns as [|n IH]; intros s0 Hs0.
    - exists s0. now split.
    - destruct Hs0 as (Hq & Hcc & Hlc & Hrun & Hrest).
      cbn [_offline_queue_processor]. rewrite Hrun, Hr.
      unfold _offline_queue_cycle. rewrite Hcc, Hc, Hq, Hg. cbn [negb].
      rewrite drain_items_unusable by exact Hp.
      apply IH. unfold same_but_log in *. simpl. tauto. }
  apply Hgen. apply same_but_log_refl.
Qed.
End DrainCount.

(** ** Counters *)

Lemma stats_le_refl (a : stats_t) : stats_le a a.
Proof. unfold stats_le. repeat split; auto; lia. Qed.

Lemma stats_le_trans (a b c : stats_t) :
  stats_le a b -> stats_le b c -> stats_le a c.
Proof. unfold stats_le. intros (?&?&?&?&?) (?&?&?&?&?). repeat split; auto; lia. Qed.

Lemma get_count_enqueue {F : Type} {codec : JsonCodec F} (q : OfflineQueue)
      (data : pyval F) (t : Z) :
  get_count (snd (enqueue q data t)) = get_count q + 1.
Proof.
  unfold get_count. cbn [enqueue snd reading_queue].
  rewrite filter_app, length_app. cbn [filter]. unfold is_pending at 2.
  cbn [row_status]. rewrite str_eqb_refl. cbn [List.length]. lia.
Qed.

Section Accounting.
Context {F : Type} {codec : JsonCodec F}.
Variables (cfg : Config) (net : network).
Implicit Types (s : CloudSyncService F) (msg : message).

(** What a call of [_send_to_cloud] does to the counters and the store:
    sent, or queued, never both, never neither. *)
Lemma send_to_cloud_accounting clk s topic (payload : pyval F) :
  let r := _send_to_cloud net clk s topic payload in
  readings_received (stats (snd r)) = readings_received (stats s)
  /\ connection_errors (stats (snd r)) = connection_errors (stats s)
  /\ cloud_connected (snd r) = cloud_connected s
  /\ local_connected (snd r) = local_connected s
  /\ running (snd r) = running s
  /\ ((fst r = true
       /\ readings_sent (stats (snd r)) = readings_sent (stats s) + 1
       /\ readings_queued (stats (snd r)) = readings_queued (stats s)
       /\ last_sync (stats (snd r)) = Some (now_isoformat clk)
       /\ offline_queue (snd r) = offline_queue s)
      \/ (fst r = false
          /\ readings_sent (stats (snd r)) = readings_sent (stats s)
          /\ readings_queued (stats (snd r)) = readings_queued (stats s) + 1
          /\ last_sync (stats (snd r)) = last_sync (stats s)
          /\ offline_queue (snd r)
             = snd (enqueue (offline_queue s) (queued_record topic payload)
                            (current_timestamp clk)))).
Proof.
  unfold _send_to_cloud, cloud_client_publish.
  destruct (cloud_connected s) eqn:Hc; cbn [negb].
  - destruct (cloud_outcome net (List.length (cloud_published s))) as [rc|];
      [destruct (rc =? MQTT_ERR_SUCCESS)|]; simpl;
      repeat split; auto; (left; repeat split; fail) || (right; repeat split).
  - simpl. repeat split; auto. right. repeat split.
Qed.

Lemma send_to_cloud_stats clk s topic (payload : pyval F) :
  stats_le (stats s) (stats (snd (_send_to_cloud net clk s topic payload))).
Proof.
  destruct (send_to_cloud_accounting clk s topic payload)
    as (H1 & H2 & _ & _ & _ & [(_ & H3 & H4 & H5 & _)|(_ & H3 & H4 & H5 & _)]);
    unfold stats_le; rewrite H1, H2, H3, H4, H5;
    repeat split; try lia; try discriminate; auto.
Qed.

(** X7. A local message that decodes to a JSON object is counted as
    received, and then it is sent, queued or buffered, exactly one of the
    three: the sum of the sent counter, the queued counter and the length
    of the batch buffer grows by one, none of the three goes down, and the
    number of pending rows grows by what the queued counter grows. *)
Theorem reading_sent_queued_or_buffered clk s msg
        (d : list (str * pyval F)) :
  decode_message msg = Some (PDict d) ->
  let s' := _handle_local_message cfg net clk s msg in
  readings_received (stats s') = readings_received (stats s) + 1
  /\ readings_sent (stats s') + readings_queued (stats s')
     + Z.of_nat (List.length (batch_buffer s'))
     = readings_sent (stats s) + readings_queued (stats s)
       + Z.of_nat (List.length (batch_buffer s)) + 1
  /\ readings_sent (stats s) <= readings_sent (stats s')
  /\ readings_queued (stats s) <= readings_queued (stats s')
  /\ (List.length (batch_buffer s) <= List.length (batch_buffer s'))%nat
  /\ get_count (offline_queue s') - get_count (offline_queue s)
     = readings_queued (stats s') - readings_queued (stats s).
Proof.
  intros Hd s'.
  pose proof (handle_local_dict cfg net clk s msg d Hd) as Hs.
  cbv zeta in Hs. fold s' in Hs.
  destruct Hs as (Hq & _ & _ & _ & Hb & _ & Hst & _).
  rewrite Hq, Hb, Hst. clear Hq Hb Hst.
  set (s1 := set_stats (incr_received (stats s)) s).
  assert (Hsend : forall topic payload,
    let r := snd (_send_to_cloud net clk s1 topic payload) in
    readings_received (stats r) = readings_received (stats s) + 1
    /\ readings_sent (stats r) + readings_queued (stats r)
       + Z.of_nat (List.length (batch_buffer r))
       = readings_sent (stats s) + readings_queued (stats s)
         + Z.of_nat (List.length (batch_buffer s)) + 1
    /\ readings_sent (stats s) <= readings_sent (stats r)
    /\ readings_queued (stats s) <= readings_queued (stats r)
    /\ (List.length (batch_buffer s) <= List.length (batch_buffer r))%nat
    /\ get_count (offline_queue r) - get_count (offline_queue s)
       = readings_queued (stats r) - readings_queued (stats s)).
  { intros topic payload r.
    destruct (send_to_cloud_accounting clk s1 topic payload)
      as (H1 & _ & _ & _ & _ & Hcase).
    destruct (send_to_cloud_batch_buffer net clk s1 topic payload) as [Hbb _].
    fold r in H1, Hcase, Hbb. rewrite Hbb, H1.
    destruct Hcase as [(_ & H3 & H4 & _ & H6)|(_ & H3 & H4 & _ & H6)];
      rewrite H3, H4, H6; [|rewrite get_count_enqueue];
      simpl; repeat split; lia. }
  destruct (str_eqb (msg_topic msg) ALARMS_TOPIC); [apply Hsend|].
  destruct (REALTIME_MODE cfg); [apply Hsend|].
  simpl. rewrite length_app. simpl. repeat split; lia.
Qed.

(** X8. A local message that decodes to JSON that is not an object (a
    list, a number, a string, [null]) is counted in [readings_received]
    and then lost: nothing is published, queued or buffered for it. *)
Theorem non_object_payload_counted_then_lost clk s msg (v : pyval F) :
  decode_message msg = Some v ->
  (forall d, v <> PDict d) ->
  let s' := _handle_local_message cfg net clk s msg in
  readings_received (stats s') = readings_received (stats s) + 1
  /\ readings_sent (stats s') = readings_sent (stats s)
  /\ readings_queued (stats s') = readings_queued (stats s)
  /\ offline_queue s' = offline_queue s
  /\ batch_buffer s' = batch_buffer s
  /\ cloud_published s' = cloud_published s
  /\ local_published s' = local_published s.
Proof.
  intros Hd Hnd s'. subst s'.
  rewrite (handle_local_not_dict cfg net clk s msg v Hd Hnd).
  simpl. repeat split.
Qed.

(** ** Along a run *)

Ltac links H := refine (conj _ (conj _ (conj _ H))); auto.

Lemma drain_items_links (pending : list (item F)) s ids :
  cloud_connected (fst (drain_items cfg net s pending ids)) = cloud_connected s
  /\ local_connected (fst (drain_items cfg net s pending ids))
     = local_connected s
  /\ running (fst (drain_items cfg net s pending ids)) = running s.
Proof.
  revert s ids. induction pending as [|it rest IH]; intros s ids;
    [repeat split|].
  destruct (publication_of cfg it) as [pub|] eqn:Hp.
  - rewrite (drain_items_step cfg net it rest s ids pub Hp).
    destruct (cloud_outcome net (List.length (cloud_published s)))
      as [rc|]; [destruct (rc =? MQTT_ERR_SUCCESS)|];
      try (match goal with |- context [drain_items cfg net ?s1 rest ?i] =>
             destruct (IH s1 i) as (-> & -> & ->) end);
      repeat split.
  - rewrite (drain_items_unusable cfg net it rest s ids Hp). repeat split.
Qed.

Lemma offline_queue_cycle_links s s' :
  _offline_queue_cycle cfg net s = Some s' ->
  cloud_connected s' = cloud_connected s
  /\ local_connected s' = local_connected s
  /\ running s' = running s
  /\ stats_le (stats s) (stats s').
Proof.
  unfold _offline_queue_cycle.
  destruct (cloud_connected s) eqn:Hc; cbn [negb];
    [|intros H; injection H as <-; rewrite Hc;
      links (stats_le_refl (stats s))].
  destruct (get_pending (offline_queue s) 50) as [[|it rest]|];
    [intros H; injection H as <-; rewrite Hc;
     links (stats_le_refl (stats s))| |discriminate].
  set (s0 := logger INFO "Processing queued readings..." s).
  pose proof (drain_items_links (it :: rest) s0 []) as (H1 & H2 & H3).
  pose proof (drain_items_sent_count cfg net (it :: rest) s0 [])
    as (C1 & C2 & C3 & C4 & C5).
  destruct (drain_items cfg net s0 (it :: rest) []) as [s1 sent].
  cbn [fst snd] in *. simpl in H1, H2, H3, C1, C2, C3, C4, C5.
  assert (Hst : stats_le (stats s) (stats s1)).
  { unfold stats_le. rewrite C2, C3, C4, C5. repeat split; auto; lia. }
  intros H. destruct sent; injection H as <-; simpl;
    rewrite ?H1, ?H2, ?H3, ?Hc; links Hst.
Qed.

Lemma handle_local_message_links clk s msg :
  cloud_connected (_handle_local_message cfg net clk s msg) = cloud_connected s
  /\ local_connected (_handle_local_message cfg net clk s msg)
     = local_connected s
  /\ running (_handle_local_message cfg net clk s msg) = running s
  /\ stats_le (stats s) (stats (_handle_local_message cfg net clk s msg)).
Proof.
  assert (Hrecv : stats_le (stats s) (incr_received (stats s))).
  { unfold stats_le. simpl. repeat split; auto; lia. }
  unfold _handle_local_message.
  destruct (bytes_decode (msg_payload msg)) as [text|];
    [|simpl; links (stats_le_refl (stats s))].
  destruct (json_loads text) as [v|];
    [|simpl; links (stats_le_refl (stats s))].
  destruct (add_edge_metadata cfg clk v) as [payload|];
    [|simpl; links Hrecv].
  set (s1 := set_stats (incr_received (stats s)) s).
  assert (Hsend : forall topic,
    let r := snd (_send_to_cloud net clk s1 topic payload) in
    cloud_connected r = cloud_connected s /\ local_connected r = local_connected s
    /\ running r = running s /\ stats_le (stats s) (stats r)).
  { intros topic r.
    destruct (send_to_cloud_accounting clk s1 topic payload)
      as (_ & _ & H1 & H2 & H3 & _).
    assert (Hst : stats_le (stats s) (stats r)).
    { eapply stats_le_trans; [exact Hrecv|].
      exact (send_to_cloud_stats clk s1 topic payload). }
    links Hst. }
  destruct (str_eqb (msg_topic msg) ALARMS_TOPIC).
  - specialize (Hsend (CLOUD_ALARMS_TOPIC cfg)).
    destruct (_send_to_cloud net clk s1 (CLOUD_ALARMS_TOPIC cfg) payload)
      as [[|] s2]; exact Hsend.
  - destruct (REALTIME_MODE cfg).
    + specialize (Hsend (CLOUD_TOPIC cfg)).
      destruct (_send_to_cloud net clk s1 (CLOUD_TOPIC cfg) payload)
        as [[|] s2]; exact Hsend.
    + simpl. links Hrecv.
Qed.

Lemma handle_cloud_message_links s msg :
  cloud_connected (_handle_cloud_message net s msg) = cloud_connected s
  /\ local_connected (_handle_cloud_message net s msg) = local_connected s
  /\ running (_handle_cloud_message net s msg) = running s
  /\ stats (_handle_cloud_message net s msg) = stats s.
Proof.
  unfold _handle_cloud_message, local_client_publish.
  destruct (decode_message msg) as [v|]; [|repeat split].
  cbn [logger local_connected].
  destruct (local_connected s) eqn:E; [|simpl; rewrite ?E; repeat split].
  destruct (local_outcome net _); simpl; rewrite ?E; repeat split.
Qed.

Lemma batch_sender_iteration_links clk s :
  cloud_connected (_batch_sender_iteration cfg net clk s) = cloud_connected s
  /\ local_connected (_batch_sender_iteration cfg net clk s)
     = local_connected s
  /\ running (_batch_sender_iteration cfg net clk s) = running s
  /\ stats_le (stats s) (stats (_batch_sender_iteration cfg net clk s)).
Proof.
  unfold _batch_sender_iteration.
  destruct (should_send cfg s (time_time clk));
    [|links (stats_le_refl (stats s))].
  unfold _send_batch.
  destruct (batch_buffer s) as [|p b]; [links (stats_le_refl (stats s))|].
  set (s1 := set_batch [] (time_time clk) s).
  set (payload := batch_payload cfg clk (p :: b)).
  destruct (send_to_cloud_accounting clk s1 (CLOUD_TOPIC cfg) payload)
    as (_ & _ & H1 & H2 & H3 & _).
  pose proof (send_to_cloud_stats clk s1 (CLOUD_TOPIC cfg) payload) as Hst.
  destruct (_send_to_cloud net clk s1 (CLOUD_TOPIC cfg) payload)
    as [[|] s2]; simpl in *; links Hst.
Qed.

(** One step of the service: the connection flags move only on the
    connection callbacks of their own client, [running] never, and no
    counter goes down. *)
Lemma step_links s (e : clock * event) :
  (cloud_link_event (snd e) = false ->
   cloud_connected (step cfg net s e) = cloud_connected s)
  /\ (local_link_event (snd e) = false ->
      local_connected (step cfg net s e) = local_connected s)
  /\ running (step cfg net s e) = running s
  /\ stats_le (stats s) (stats (step cfg net s e)).
Proof.
  destruct e as [clk [msg|msg| | |rc| |rc|]]; cbn [step snd].
  - destruct (handle_local_message_links clk s msg) as (?&?&?&?). auto.
  - destruct (handle_cloud_message_links s msg) as (?&?&?&H).
    rewrite H. links (stats_le_refl (stats s)).
  - destruct (batch_sender_iteration_links clk s) as (?&?&?&?). auto.
  - destruct (_offline_queue_cycle cfg net s) as [s'|] eqn:E.
    + destruct (offline_queue_cycle_links s s' E) as (?&?&?&?). auto.
    + links (stats_le_refl (stats s)).
  - unfold cloud_on_connect. destruct (rc =? 0); simpl.
    + links (stats_le_refl (stats s)); discriminate.
    + assert (Hst : stats_le (stats s) (incr_connection_errors (stats s))).
      { unfold stats_le. simpl. repeat split; auto; lia. }
      links Hst.
  - simpl. links (stats_le_refl (stats s)); discriminate.
  - unfold local_on_connect. destruct (rc =? 0); simpl;
      links (stats_le_refl (stats s)); discriminate.
  - simpl. links (stats_le_refl (stats s)); discriminate.
Qed.

(** X9. Along any run of the service, whatever the brokers answer, no
    counter of [stats] goes down and a [last_sync] once set stays set. *)
Theorem counters_never_go_down (es : list (clock * event)) s :
  stats_le (stats s) (stats (run cfg net s es)).
Proof.
  unfold run. revert s. induction es as [|e es IH]; intros s;
    cbn [fold_left]; [apply stats_le_refl|].
  eapply stats_le_trans; [|apply IH].
  now destruct (step_links s e) as (_ & _ & _ & H).
Qed.

(** X10. The flag [cloud_connected] is written by the connection callbacks
    of the cloud client and by nothing else: along a run without such a
    callback it keeps its value, whatever the publishes return or raise;
    likewise [local_connected]; and [running] is not written at all. *)
Theorem link_flags_follow_callbacks_only (es : list (clock * event)) s :
  (Forall (fun e => cloud_link_event (snd e) = false) es ->
   cloud_connected (run cfg net s es) = cloud_connected s)
  /\ (Forall (fun e => local_link_event (snd e) = false) es ->
      local_connected (run cfg net s es) = local_connected s)
  /\ running (run cfg net s es) = running s.
Proof.
  unfold run. revert s. induction es as [|e es IH]; intros s;
    cbn [fold_left]; [repeat split|].
  destruct (step_links s e) as (Hc & Hl & Hr & _).
  destruct (IH (step cfg net s e)) as (IHc & IHl & IHr).
  split; [|split].
  - intros H. apply Forall_cons_iff in H as [He Hes].
    rewrite (IHc Hes). now apply Hc.
  - intros H. apply Forall_cons_iff in H as [He Hes].
    rewrite (IHl Hes). now apply Hl.
  - now rewrite IHr.
Qed.
End Accounting.

Lemma filter_all_false {A} (f : A -> bool) (l : list A) :
  (forall x, In x l -> f x = false) -> filter f l = [].
Proof.
  induction l as [|x l IH]; intros H; [reflexivity|]. cbn [filter].
  rewrite (H x (or_introl eq_refl)). apply IH. intros y Hy. apply H. now right.
Qed.

Section StoreAndForward.
Context {F : Type} {codec : JsonCodec F}.
Variables (cfg : Config) (net : network).
Implicit Types (s : CloudSyncService F).

(** X11. Store and forward.  A payload handed to [_send_to_cloud] while
    the cloud is down, with no backlog in the queue, is not published then;
    after the cloud client has connected, the next turn of the queue
    processor whose publish succeeds hands the cloud client the same topic
    and the same text a direct send would have, and empties the queue.
    The record was counted as queued and is now counted as sent as well;
    [last_sync] is not updated by a delivery from the queue. *)
Theorem reading_queued_offline_is_delivered
        (clk : clock) s (topic : str) (payload : pyval F) :
  cloud_connected s = false ->
  (forall r, In r (reading_queue (offline_queue s)) -> is_pending r = false) ->
  json_loads (json_dumps (queued_record topic payload))
  = Some (queued_record topic payload) ->
  cloud_outcome net (List.length (cloud_published s))
  = Returned MQTT_ERR_SUCCESS ->
  let s1 := snd (_send_to_cloud net clk s topic payload) in
  let s2 := cloud_on_connect 0 s1 in
  exists s3,
    _offline_queue_cycle cfg net s2 = Some s3
    /\ cloud_published s1 = cloud_published s
    /\ get_count (offline_queue s1) = 1
    /\ cloud_published s3 = cloud_published s ++ [(topic, json_dumps payload)]
    /\ get_count (offline_queue s3) = 0
    /\ readings_queued (stats s3) = readings_queued (stats s) + 1
    /\ readings_sent (stats s3) = readings_sent (stats s) + 1
    /\ last_sync (stats s3) = last_sync (stats s).
Proof.
  intros Hc Hnone Hrt Hout s1 s2.
  set (nr := {| row_id := next_rowid (offline_queue s);
                row_data := json_dumps (queued_record topic payload);
                row_created_at := current_timestamp clk;
                row_status := status_pending |}).
  assert (Hs1 : s1 = logger WARNING "Cloud offline - queued reading"
                       (queue_for_later clk topic payload s)).
  { unfold s1, _send_to_cloud. now rewrite Hc. }
  clearbody s1. subst s1.
  assert (Hrows : reading_queue (offline_queue s2)
                  = reading_queue (offline_queue s) ++ [nr]).
  { reflexivity. }
  assert (Hpnr : filter is_pending [nr] = [nr]).
  { cbn [filter]. unfold is_pending. cbn [row_status nr].
    now rewrite str_eqb_refl. }
  assert (Hpend : filter is_pending (reading_queue (offline_queue s2)) = [nr]).
  { rewrite Hrows, filter_app, (filter_all_false _ _ Hnone). exact Hpnr. }
  assert (Hg : get_pending (offline_queue s2) 50
               = Some [ {| item_id := row_id nr;
                           item_data := queued_record topic payload |} ]).
  { unfold get_pending, select_pending. rewrite Hpend.
    change (fits_int64 50) with true. cbv iota.
    change (sql_limit 50 (order_by_created_at [nr])) with [nr].
    cbn [load_rows]. cbn [row_data nr]. now rewrite Hrt. }
  assert (Hpub : cloud_published s2 = cloud_published s).
  { reflexivity. }
  unfold _offline_queue_cycle.
  assert (Hc2 : cloud_connected s2 = true) by reflexivity.
  rewrite Hc2, Hg. cbn [negb].
  set (s0 := logger INFO "Processing queued readings..." s2).
  rewrite (drain_items_step cfg net _ [] s0 [] (topic, json_dumps payload)
             (queued_record_publication cfg (row_id nr) topic payload)).
  change (cloud_published s0) with (cloud_published s2).
  rewrite Hpub, Hout. change (MQTT_ERR_SUCCESS =? MQTT_ERR_SUCCESS) with true.
  cbv iota. cbn [drain_items app item_id].
  eexists. split; [reflexivity|].
  split; [reflexivity|].
  split.
  { unfold get_count. change (Z.of_nat (List.length
      (filter is_pending (reading_queue (offline_queue s2)))) = 1).
    now rewrite Hpend. }
  split; [reflexivity|].
  split.
  { cbn [offline_queue logger set_offline_queue].
    unfold get_count. rewrite mark_sent_rows.
    cbn [offline_queue set_stats set_cloud_published s0 logger].
    rewrite filter_twice, Hrows, filter_app.
    rewrite filter_all_false.
    - cbn [filter]. cbn [existsb row_id nr]. rewrite Z.eqb_refl. reflexivity.
    - intros r Hr. rewrite (Hnone r Hr). apply andb_false_r. }
  simpl. repeat split.
Qed.
End StoreAndForward.

(** ** Text on the wire *)

Section Wire.
Local Open Scope N_scope.

Lemma utf8_encode_ascii (s : str) :
  Forall (fun c => c < 128) s -> utf8_encode_N s = Some s.
Proof.
  induction 1 as [|c s Hc _ IH]; [reflexivity|].
  cbn [utf8_encode_N]. unfold utf8_encode_char.
  apply N.ltb_lt in Hc. rewrite Hc, IH. reflexivity.
Qed.

Lemma utf8_decode_ascii (s : str) (fuel : nat) :
  Forall (fun c => c < 128) s ->
  (List.length s <= fuel)%nat ->
  utf8_decode_N fuel s = Some s.
Proof.
  intros H. revert fuel. induction H as [|c s Hc _ IH]; intros fuel Hf.
  - now destruct fuel.
  - destruct fuel as [|fuel]; [simpl in Hf; lia|].
    cbn [utf8_decode_N]. apply N.ltb_lt in Hc. rewrite Hc.
    rewrite IH by (simpl in Hf; lia). reflexivity.
Qed.

Lemma to_N_byte_of_N (n : N) : n < 256 -> Byte.to_N (byte_of_N n) = n.
Proof.
  intros Hn. unfold byte_of_N. destruct (Byte.of_N n) as [b|] eqn:E.
  - now apply Stdlib.Strings.Byte.to_of_N.
  - apply Stdlib.Strings.Byte.of_N_None_iff in E. lia.
Qed.

Lemma map_to_N_byte_of_N (s : str) :
  Forall (fun c => c < 128) s ->
  List.map Byte.to_N (List.map byte_of_N s) = s.
Proof.
  induction 1 as [|c s Hc _ IH]; [reflexivity|]. cbn [List.map].
  rewrite IH, to_N_byte_of_N by lia. reflexivity.
Qed.

(** A text of ASCII characters goes through [str.encode] and
    [bytes.decode] unchanged. *)
Lemma ascii_encode_decode (s : str) :
  Forall (fun c => c < 128) s ->
  exists b, str_encode s = Some b /\ bytes_decode b = Some s.
Proof.
  intros H. exists (List.map byte_of_N s). split.
  - unfold str_encode. now rewrite utf8_encode_ascii.
  - unfold bytes_decode. rewrite map_to_N_byte_of_N by exact H.
    apply utf8_decode_ascii; [exact H|]. now rewrite !length_map.
Qed.

Import PyJson.

Lemma hex_digit_ascii (n : N) : hex_digit (n mod 16) < 128.
Proof.
  pose proof (N.mod_upper_bound n 16). unfold hex_digit.
  destruct (n mod 16 <? 10); lia.
Qed.

Lemma u_escape_ascii (n : N) : Forall (fun c => c < 128) (u_escape n).
Proof.
  unfold u_escape, hex4.
  repeat constructor; try apply hex_digit_ascii; lia.
Qed.

Lemma escape_char_ascii (c : N) : Forall (fun c => c < 128) (escape_char c).
Proof.
  unfold escape_char.
  repeat match goal with
         | |- context [if ?b =? ?k then _ else _] =>
             destruct (b =? k); [repeat constructor; lia|]
         end.
  destruct ((32 <=? c) && (c <=? 126)) eqn:E.
  - apply andb_true_iff in E as [_ E]. apply N.leb_le in E.
    repeat constructor. lia.
  - destruct (c <? 65536); [apply u_escape_ascii|].
    apply Forall_app. split; apply u_escape_ascii.
Qed.

Lemma encode_basestring_ascii_is_ascii (s : str) :
  Forall (fun c => c < 128) (encode_basestring_ascii s).
Proof.
  unfold encode_basestring_ascii. constructor; [lia|].
  apply Forall_app. split; [|repeat constructor; lia].
  apply Forall_flat_map. apply Forall_forall. intros c _.
  apply escape_char_ascii.
Qed.

Lemma int_repr_ascii (z : Z) : Forall (fun c => c < 128) (int_repr z).
Proof.
  destruct z; simpl; repeat constructor; try lia;
    apply PyJsonFacts.uint_chars_ascii.
Qed.

Lemma join_ascii (sep : str) (parts : list str) :
  Forall (fun c => c < 128) sep ->
  Forall (Forall (fun c => c < 128)) parts ->
  Forall (fun c => c < 128) (join sep parts).
Proof.
  intros Hsep. induction 1 as [|p ps Hp Hps IH]; [constructor|].
  cbn [join]. destruct ps as [|p' ps']; [exact Hp|].
  apply Forall_app. split; [exact Hp|]. apply Forall_app. split; auto.
Qed.

(** [json.dumps] writes ASCII only ([ensure_ascii]; the [repr] of a
    finite float is ASCII). *)
Lemma dumps_ascii {F : Type} {floats : PyFloat F} (v : pyval F) :
  representable v = true -> Forall (fun c => c < 128) (dumps v).
Proof.
  induction v as [|[|]|z|f|s|l IH|d IH] using pyval_ind'; intros Hrep.
  - repeat constructor; lia.
  - repeat constructor; lia.
  - repeat constructor; lia.
  - apply int_repr_ascii.
  - cbn [dumps representable] in *.
    rewrite PyJsonFacts.floatstr_finite by exact Hrep.
    now apply PyJsonFacts.float_literal_ascii.
  - apply encode_basestring_ascii_is_ascii.
  - cbn [dumps representable] in *. constructor; [lia|]. apply Forall_app.
    split; [|repeat constructor; lia].
    apply join_ascii; [repeat constructor; lia|].
    rewrite forallb_forall in Hrep.
    induction IH as [|x l Hx _ IHl]; constructor.
    + apply Hx. apply Hrep. now left.
    + apply IHl. intros y Hy. apply Hrep. now right.
  - cbn [dumps representable] in *.
    apply andb_true_iff in Hrep as [_ Hrep]. rewrite forallb_forall in Hrep.
    constructor; [lia|]. apply Forall_app.
    split; [|repeat constructor; lia].
    apply join_ascii; [repeat constructor; lia|].
    induction IH as [|kv d Hkv _ IHd]; constructor.
    + apply Forall_app. split; [apply encode_basestring_ascii_is_ascii|].
      apply Forall_app. split; [repeat constructor; lia|].
      apply Hkv. specialize (Hrep kv (or_introl eq_refl)).
      now apply andb_true_iff in Hrep.
    + apply IHd. intros y Hy. apply Hrep. now right.
Qed.
End Wire.

(** X12. What one component publishes, the next one reads: the text
    [json.dumps] writes for a JSON-representable document is ASCII, so the
    MQTT client's [encode('utf-8')] cannot fail on it, and the receiving
    handler's [json.loads(msg.payload.decode())] returns the document the
    sender serialised. *)
Theorem published_document_is_read_back {F : Type} {floats : PyFloat F}
        (v : pyval F) (topic : str) :
  PyJson.representable v = true ->
  PyJson.floats_read_back v ->
  exists b : bytes,
    str_encode (json_dumps v) = Some b
    /\ decode_message {| msg_topic := topic; msg_payload := b |} = Some v.
Proof.
  intros Hrep Hfl.
  destruct (ascii_encode_decode (PyJson.dumps v) (dumps_ascii v Hrep))
    as (b & He & Hd).
  exists b. split; [exact He|].
  unfold decode_message. cbn [msg_payload]. rewrite Hd.
  now apply PyJsonFacts.loads_dumps.
Qed.

(** ** The gateway *)

Section GatewayFacts.
Context {F : Type} {codec : JsonCodec F}.
Implicit Types (d inner : list (str * pyval F)) (k : str).

Lemma dict_get_del_same d k : dict_get (dict_del d k) k = None.
Proof.
  unfold dict_del. induction d as [|[k0 v0] d IH]; [reflexivity|].
  cbn [filter fst]. destruct (str_eqb k0 k) eqn:E; cbn [negb]; [exact IH|].
  cbn [dict_get]. now rewrite E.
Qed.

Lemma dict_get_del_other d k k' :
  k <> k' -> dict_get (dict_del d k) k' = dict_get d k'.
Proof.
  intros Hne. unfold dict_del. induction d as [|[k0 v0] d IH]; [reflexivity|].
  cbn [filter fst dict_get]. destruct (str_eqb k0 k) eqn:E; cbn [negb].
  - apply str_eqb_eq in E. subst k0. apply str_eqb_neq in Hne.
    now rewrite Hne.
  - cbn [dict_get]. now rewrite IH.
Qed.

Lemma dict_get_absent d k : ~ In k (dict_keys d) -> dict_get d k = None.
Proof.
  induction d as [|[k0 v0] d IH]; [reflexivity|]. cbn [dict_keys List.map fst In dict_get].
  intros H. destruct (str_eqb k0 k) eqn:E.
  - apply str_eqb_eq in E. tauto.
  - apply IH. unfold dict_keys. tauto.
Qed.

(** The loop of item assignments: an entry of [inner] wins over the entry
    of [outer] under the same key. *)
Lemma dict_get_update inner d k :
  NoDup (dict_keys inner) ->
  dict_get (dict_update d inner) k
  = match dict_get inner k with
    | Some v => Some v
    | None => dict_get d k
    end.
Proof.
  unfold dict_update. revert d.
  induction inner as [|[k0 v0] inner IH]; intros d Hnd; [reflexivity|].
  cbn [dict_keys List.map fst] in Hnd. apply NoDup_cons_iff in Hnd as [Hk Hnd].
  cbn [fold_left fst snd dict_get]. rewrite (IH _ Hnd).
  destruct (str_eqb k0 k) eqn:E.
  - apply str_eqb_eq in E. subst k0.
    rewrite (dict_get_absent inner k Hk). apply dict_get_set_same.
  - apply str_eqb_neq in E. now rewrite dict_get_set_other.
Qed.

(** X13. Flattening a record whose ['data'] entry is a dict: afterwards
    there is no ['data'] entry, and every other key reads the nested entry
    if there is one, the outer entry otherwise; a nested entry overwrites
    an outer one of the same key. *)
Theorem flatten_data_lookup d inner :
  dict_get d (pystr "data") = Some (PDict inner) ->
  NoDup (dict_keys inner) ->
  exists d',
    flatten_data d = Some d'
    /\ dict_get d' (pystr "data") = None
    /\ forall k, k <> pystr "data" ->
                 dict_get d' k
                 = match dict_get inner k with
                   | Some v => Some v
                   | None => dict_get d k
                   end.
Proof.
  intros Hd Hnd. unfold flatten_data. rewrite Hd.
  eexists. split; [reflexivity|]. split; [apply dict_get_del_same|].
  intros k Hk. rewrite dict_get_del_other by congruence.
  now apply dict_get_update.
Qed.

Lemma save_to_database_frame clk d (g : Gateway F) :
  mqtt_connected (save_to_database clk d g) = mqtt_connected g
  /\ gw_published (save_to_database clk d g) = gw_published g
  /\ db_connection (save_to_database clk d g)
     = match db_connection g with
       | None => None
       | Some table =>
           Some (if row_bindable (sensor_row_of clk d)
                 then table ++ [sensor_row_of clk d] else table)
       end.
Proof.
  unfold save_to_database. destruct (db_connection g) as [table|] eqn:E.
  - destruct (row_bindable (sensor_row_of clk d)); simpl; rewrite ?E;
      repeat split.
  - simpl. rewrite E. repeat split.
Qed.

(** X14. A notification that decodes to a JSON object and flattens: the
    reading is stored when the database is open and SQLite can bind its
    columns, whether or not the broker is connected; and it is handed to
    the MQTT client when the broker is connected, whether or not it could
    be stored.  What is published is the flattened record stamped with
    [received_at]. *)
Theorem notification_saved_and_published_independently
        (outcome : nat -> pub_outcome) (clk : clock) (g : Gateway F)
        (data : bytes) (text : str) d0 sd :
  bytes_decode data = Some text ->
  json_loads text = Some (PDict d0) ->
  flatten_data (dict_set d0 (pystr "received_at") (PStr (now_isoformat clk)))
  = Some sd ->
  let g' := notification_handler outcome clk g data in
  mqtt_connected g' = mqtt_connected g
  /\ db_connection g'
     = match db_connection g with
       | None => None
       | Some table =>
           Some (if row_bindable (sensor_row_of clk sd)
                 then table ++ [sensor_row_of clk sd] else table)
       end
  /\ gw_published g'
     = if mqtt_connected g
       then gw_published g ++ [(MQTT_TOPIC, json_dumps (PDict sd))]
       else gw_published g.
Proof.
  intros Hb Hj Hf g'. subst g'. unfold notification_handler.
  rewrite Hb, Hj. cbn [py_setitem]. rewrite Hf.
  destruct (save_to_database_frame clk sd g) as (Hm & Hp & Hdb).
  rewrite Hm. destruct (mqtt_connected g) eqn:Hc.
  - rewrite Hp.
    destruct (outcome (List.length (gw_published g))); simpl;
      rewrite Hm, Hdb; repeat split.
  - simpl. rewrite Hm, Hp, Hdb. repeat split.
Qed.

(** X15. A notification whose JSON object holds under ['data'] something
    that is not an object is lost whole: nothing is stored and nothing is
    published, one ERROR line is logged. *)
Theorem notification_with_bad_data_entry_lost
        (outcome : nat -> pub_outcome) (clk : clock) (g : Gateway F)
        (data : bytes) (text : str) d0 (v : pyval F) :
  bytes_decode data = Some text ->
  json_loads text = Some (PDict d0) ->
  dict_get d0 (pystr "data") = Some v ->
  (forall inner, v <> PDict inner) ->
  notification_handler outcome clk g data
  = gw_logger ERROR "Error handling notification" g.
Proof.
  intros Hb Hj Hd Hv. unfold notification_handler.
  rewrite Hb, Hj. cbn [py_setitem]. unfold flatten_data.
  rewrite dict_get_set_other by (apply str_eqb_neq; reflexivity).
  rewrite Hd. destruct v; try reflexivity. now destruct (Hv d).
Qed.
End GatewayFacts.

(** ** The cloud worker *)

Section WorkerFacts.
Context {F : Type} {codec : JsonCodec F}.
Implicit Types (d : list (str * pyval F)) (k : str) (w : Worker F).

Lemma is_metric_ignored k (v : pyval F) :
  In k ignore_keys -> is_metric (k, v) = false.
Proof.
  intros Hk. unfold is_metric. cbn [fst].
  assert (H : existsb (fun k0 => str_eqb k0 k) ignore_keys = true).
  { apply existsb_exists. exists k. split; [exact Hk|apply str_eqb_refl]. }
  now rewrite H.
Qed.

(** Assigning to a metadata key neither adds nor removes a metric. *)
Lemma filter_is_metric_set d k (v : pyval F) :
  In k ignore_keys ->
  filter is_metric (dict_set d k v) = filter is_metric d.
Proof.
  intros Hk. induction d as [|[k0 v0] d IH]; cbn [dict_set filter].
  - now rewrite is_metric_ignored.
  - destruct (str_eqb k0 k) eqn:E; cbn [filter].
    + apply str_eqb_eq in E. subst k0.
      now rewrite !is_metric_ignored.
    + now rewrite IH.
Qed.

(** The test of the loop, spelt out. *)
Lemma is_metric_spec k (v : pyval F) :
  is_metric (k, v) = true
  <-> ~ In k ignore_keys /\ v <> PNone /\ v <> PStr (pystr "N/A").
Proof.
  unfold is_metric. cbn [fst snd].
  rewrite !andb_true_iff, !negb_true_iff. split.
  - intros [[Hk Hn] Hna]. repeat split.
    + intros Hign. rewrite (proj2 (existsb_exists _ _)) in Hk; [discriminate|].
      exists k. split; [exact Hign|apply str_eqb_refl].
    + intros E. rewrite E in Hn. discriminate.
    + intros E. rewrite E in Hna. cbn [is_not_available] in Hna.
      now rewrite str_eqb_refl in Hna.
  - intros (Hk & Hn & Hna). repeat split.
    + apply not_true_iff_false. intros E.
      apply existsb_exists in E as (k0 & Hk0 & E).
      apply str_eqb_eq in E. now subst.
    + now destruct v.
    + destruct v; try reflexivity. cbn [is_not_available].
      apply str_eqb_neq. congruence.
Qed.

Lemma metric_rows_entries (clk : clock) d :
  List.map (fun r => (mr_metric r, mr_value r)) (metric_rows clk d)
  = filter is_metric d.
Proof.
  unfold metric_rows. rewrite map_map. cbn [mr_metric mr_value].
  rewrite <- (map_id (filter is_metric d)) at 2.
  apply map_ext. now intros [k v].
Qed.

(** The table after [save_to_db]: the rows of the record appended, or the
    table as it was. *)
Lemma save_to_db_table (pg : postgres F) (clk : clock) (data : pyval F) w :
  tagrisense (save_to_db pg clk data w)
  = match data with
    | PDict d =>
        if connects pg && forallb (accepts pg) (metric_rows clk d)
        then tagrisense w ++ metric_rows clk d
        else tagrisense w
    | _ => tagrisense w
    end.
Proof.
  unfold save_to_db. destruct (connects pg); cbn [andb].
  - destruct data; try reflexivity.
    destruct (forallb (accepts pg) (metric_rows clk d)); reflexivity.
  - destruct data; reflexivity.
Qed.

(** X16. [save_to_db] on a record, with the server up and taking every
    row of the call: the table gains one row for each entry of the record
    whose key is not a metadata key and whose value is neither [None] nor
    ["N/A"], in the order of the record's keys, and no other row; every
    row carries the identifying fields of the record, with their defaults
    where the record has none, and its [received_at] as timestamp (the
    worker's clock where it has none). *)
Theorem save_to_db_stores_the_metrics (pg : postgres F) (clk : clock) d w :
  connects pg = true ->
  forallb (accepts pg) (metric_rows clk d) = true ->
  exists rows : list (metric_row F),
    tagrisense (save_to_db pg clk (PDict d) w) = tagrisense w ++ rows
    /\ (forall r, In r rows ->
          In (mr_metric r, mr_value r) d
          /\ ~ In (mr_metric r) ignore_keys
          /\ mr_value r <> PNone
          /\ mr_value r <> PStr (pystr "N/A"))
    /\ (forall k v, In (k, v) d -> ~ In k ignore_keys -> v <> PNone ->
          v <> PStr (pystr "N/A") ->
          exists r, In r rows /\ mr_metric r = k /\ mr_value r = v)
    /\ (forall R : str * pyval F -> str * pyval F -> Prop,
          StronglySorted R d ->
          StronglySorted R
            (List.map (fun r => (mr_metric r, mr_value r)) rows))
    /\ (forall r, In r rows ->
          mr_node_id r
          = dict_get_default d (pystr "node_id")
                             (PStr (pystr "unknown_device"))
          /\ mr_location r
             = dict_get_default d (pystr "location")
                                (PStr (pystr "unknown_location"))
          /\ mr_timestamp r
             = dict_get_default d (pystr "received_at")
                                (PStr (now_isoformat clk))
          /\ mr_edge_id r
             = dict_get_default d (pystr "edge_id")
                                (PStr (pystr "unknown_edge_id"))
          /\ mr_edge_name r
             = dict_get_default d (pystr "edge_name")
                                (PStr (pystr "unknown_edge_name"))
          /\ mr_edge_location r
             = dict_get_default d (pystr "edge_location")
                                (PStr (pystr "unknown_edge_location"))).
Proof.
  intros Hc Hacc. exists (metric_rows clk d).
  split; [now rewrite save_to_db_table, Hc, Hacc|].
  pose proof (metric_rows_entries clk d) as Hmap.
  split; [|split; [|split]].
  - intros r Hr.
    assert (Hin : In (mr_metric r, mr_value r) (filter is_metric d)).
    { rewrite <- Hmap.
      apply (in_map (fun r => (mr_metric r, mr_value r))). exact Hr. }
    apply filter_In in Hin as [Hin Hm]. split; [exact Hin|].
    now apply is_metric_spec.
  - intros k v Hin Hk Hn Hna.
    assert (Hm : In (k, v) (filter is_metric d)).
    { apply filter_In. split; [exact Hin|]. now apply is_metric_spec. }
    rewrite <- Hmap in Hm. apply in_map_iff in Hm as (r & E & Hr).
    injection E as E1 E2. eauto.
  - intros R HR. rewrite Hmap. now apply StronglySorted_filter.
  - intros r Hr. unfold metric_rows in Hr.
    apply in_map_iff in Hr as (kv & <- & _). repeat split.
Qed.

(** The rows of a record the relay has stamped. *)
Lemma metric_rows_stamped (cfg : Config) (relay_clk clk : clock) d :
  let stamped := edge_metadata_dict cfg relay_clk d in
  List.map (fun r => (mr_metric r, mr_value r)) (metric_rows clk stamped)
  = filter is_metric d
  /\ forall r, In r (metric_rows clk stamped) ->
       mr_edge_id r = PStr (EDGE_ID cfg)
       /\ mr_edge_name r = PStr (EDGE_NAME cfg)
       /\ mr_edge_location r = PStr (EDGE_LOCATION cfg)
       /\ mr_timestamp r = PStr (now_isoformat relay_clk)
       /\ mr_node_id r
          = dict_get_default d (pystr "node_id")
                             (PStr (pystr "unknown_device"))
       /\ mr_location r
          = dict_get_default d (pystr "location")
                             (PStr (pystr "unknown_location")).
Proof.
  intros stamped.
  destruct (edge_metadata_fields cfg relay_clk d) as (H1 & H2 & H3 & H4).
  fold stamped in H1, H2, H3, H4.
  split.
  - rewrite metric_rows_entries.
    unfold stamped, edge_metadata_dict.
    now rewrite !filter_is_metric_set by (cbv; tauto).
  - intros r Hr. unfold metric_rows in Hr.
    apply in_map_iff in Hr as (kv & <- & _).
    cbn [mr_edge_id mr_edge_name mr_edge_location mr_timestamp
         mr_node_id mr_location].
    unfold dict_get_default. rewrite H1, H2, H3, H4.
    unfold stamped.
    rewrite !(edge_metadata_other_fields cfg) by (cbv; discriminate).
    repeat split.
Qed.

(** X18. A batch as [_send_batch] builds it, at the worker: it is stored
    as three rows, [batch_size], [batch_time] and [readings] (the list of
    the readings as one value), under the device ["unknown_device"], when
    the server is up and takes the three; and not at all otherwise, as
    when the driver cannot pass the list of readings.  Either way no
    reading of the batch becomes a metric row.  (The clock's text is a
    timestamp, not the string ["N/A"].) *)
Theorem batch_at_worker (cfg : Config) (relay_clk clk : clock)
        (pg : postgres F) w (batch : list (pyval F)) :
  now_isoformat relay_clk <> pystr "N/A" ->
  let row (k : str) (v : pyval F) :=
    {| mr_node_id := PStr (pystr "unknown_device");
       mr_location := PStr (pystr "unknown_location");
       mr_timestamp := PStr (now_isoformat clk);
       mr_edge_id := PStr (EDGE_ID cfg);
       mr_edge_name := PStr (EDGE_NAME cfg);
       mr_edge_location := PStr (pystr "unknown_edge_location");
       mr_metric := k;
       mr_value := v |} in
  let rows :=
    [ row (pystr "batch_size") (PInt (Z.of_nat (List.length batch)));
      row (pystr "batch_time") (PStr (now_isoformat relay_clk));
      row (pystr "readings") (PList batch) ] in
  tagrisense (save_to_db pg clk (batch_payload cfg relay_clk batch) w)
  = (if connects pg && forallb (accepts pg) rows
     then tagrisense w ++ rows else tagrisense w)
  /\ (accepts pg (row (pystr "readings") (PList batch)) = false ->
      tagrisense (save_to_db pg clk (batch_payload cfg relay_clk batch) w)
      = tagrisense w).
Proof.
  intros Hiso row rows. apply str_eqb_neq in Hiso.
  assert (Hrows : metric_rows clk
                    [ (pystr "edge_id", PStr (EDGE_ID cfg));
                      (pystr "edge_name", PStr (EDGE_NAME cfg));
                      (pystr "batch_size",
                       PInt (Z.of_nat (List.length batch)));
                      (pystr "batch_time", PStr (now_isoformat relay_clk));
                      (pystr "readings", PList batch) ] = rows).
  { unfold metric_rows. cbn [filter]. unfold is_metric.
    cbn [fst snd is_None is_not_available]. rewrite Hiso. reflexivity. }
  assert (Ht : tagrisense (save_to_db pg clk
                             (batch_payload cfg relay_clk batch) w)
               = if connects pg && forallb (accepts pg) rows
                 then tagrisense w ++ rows else tagrisense w).
  { rewrite save_to_db_table. unfold batch_payload. now rewrite Hrows. }
  split; [exact Ht|].
  intros Hno. rewrite Ht.
  assert (Hf : forallb (accepts pg) rows = false).
  { unfold rows. cbn [forallb]. rewrite Hno. now rewrite !andb_false_r. }
  now rewrite Hf, andb_false_r.
Qed.

(** X19. Only a message on the sensors topic can write to the table: on
    any other topic, the alarms topic among them, the table stays as it
    was. *)
Theorem only_sensor_messages_are_stored (pg : postgres F) (clk : clock) w
        (msg : message) :
  msg_topic msg <> MQTT_TOPIC_SENSORS ->
  tagrisense (on_message pg clk w msg) = tagrisense w.
Proof.
  intros Ht. unfold on_message.
  destruct (bytes_decode (msg_payload msg)) as [payload|]; [|reflexivity].
  destruct (str_eqb (msg_topic msg) MQTT_TOPIC_ALARM); [reflexivity|].
  apply str_eqb_neq in Ht. now rewrite Ht.
Qed.
End WorkerFacts.

Section RelayToWorker.
Context {F : Type} {floats : PyFloat F}.

(** What [_send_to_cloud] hands to the cloud client when the link is up. *)
Lemma send_to_cloud_published (net : network) (clk : clock)
      (s : CloudSyncService F) (topic : str) (payload : pyval F) :
  cloud_connected s = true ->
  cloud_published (snd (_send_to_cloud net clk s topic payload))
  = cloud_published s ++ [(topic, json_dumps payload)].
Proof.
  intros Hc. unfold _send_to_cloud, cloud_client_publish. rewrite Hc.
  cbn [negb].
  destruct (cloud_outcome net (List.length (cloud_published s))) as [rc|];
    [destruct (rc =? MQTT_ERR_SUCCESS)|]; reflexivity.
Qed.

(** The message that carries the text of a representable record on the
    sensors topic, at the worker. *)
Lemma on_message_sensor_record (pg : postgres F) (clk : clock)
      (w : Worker F) (d : list (str * pyval F)) (b : bytes) :
  PyJson.representable (PDict d) = true ->
  PyJson.floats_read_back (PDict d) ->
  str_encode (PyJson.dumps (PDict d)) = Some b ->
  on_message pg clk w {| msg_topic := MQTT_TOPIC_SENSORS; msg_payload := b |}
  = save_to_db pg clk (PDict d) w.
Proof.
  intros Hrep Hfl He.
  destruct (ascii_encode_decode _ (dumps_ascii (PDict d) Hrep))
    as (b' & He' & Hd).
  rewrite He in He'. injection He' as <-.
  unfold on_message. cbn [msg_payload msg_topic]. rewrite Hd.
  change (str_eqb MQTT_TOPIC_SENSORS MQTT_TOPIC_ALARM) with false.
  rewrite str_eqb_refl. cbv iota.
  change (json_loads (PyJson.dumps (PDict d)))
    with (PyJson.loads (PyJson.dumps (PDict d))).
  now rewrite (PyJsonFacts.loads_dumps _ Hrep Hfl).
Qed.

(** X17. From the local broker to the table.  A reading that the relay
    receives as a JSON object, in real-time mode with the cloud link up
    and the cloud topic the one the worker listens on: the relay hands the
    cloud client the stamped record as text; that text, received by the
    worker with the database up and taking the rows, adds to the table the
    rows of the metrics of the reading as it was before the stamping, no
    more; each row carries the identity of the relay and, as timestamp,
    the relay's [received_at], neither the worker's clock nor what the
    reading held under that name. *)
Theorem stamped_record_at_worker
        (cfg : Config) (net : network) (relay_clk clk : clock)
        (s : CloudSyncService F) (msg : message)
        (d : list (str * pyval F)) (pg : postgres F) (w : Worker F) :
  let stamped := edge_metadata_dict cfg relay_clk d in
  decode_message msg = Some (PDict d) ->
  msg_topic msg <> ALARMS_TOPIC ->
  REALTIME_MODE cfg = true ->
  cloud_connected s = true ->
  CLOUD_TOPIC cfg = MQTT_TOPIC_SENSORS ->
  PyJson.representable (PDict stamped) = true ->
  PyJson.floats_read_back (PDict stamped) ->
  connects pg = true ->
  forallb (accepts pg) (metric_rows clk stamped) = true ->
  exists (text : str) (b : bytes) (rows : list (metric_row F)),
    cloud_published (_handle_local_message cfg net relay_clk s msg)
    = cloud_published s ++ [(MQTT_TOPIC_SENSORS, text)]
    /\ str_encode text = Some b
    /\ tagrisense (on_message pg clk w
                     {| msg_topic := MQTT_TOPIC_SENSORS; msg_payload := b |})
       = tagrisense w ++ rows
    /\ List.map (fun r => (mr_metric r, mr_value r)) rows
       = filter is_metric d
    /\ forall r, In r rows ->
         mr_edge_id r = PStr (EDGE_ID cfg)
         /\ mr_edge_name r = PStr (EDGE_NAME cfg)
         /\ mr_edge_location r = PStr (EDGE_LOCATION cfg)
         /\ mr_timestamp r = PStr (now_isoformat relay_clk)
         /\ mr_node_id r
            = dict_get_default d (pystr "node_id")
                               (PStr (pystr "unknown_device"))
         /\ mr_location r
            = dict_get_default d (pystr "location")
                               (PStr (pystr "unknown_location")).
Proof.
  intros stamped Hd Ht Hrt Hc Htopic Hrep Hfl Hpg Hacc.
  destruct (ascii_encode_decode _ (dumps_ascii (PDict stamped) Hrep))
    as (b & He & _).
  exists (PyJson.dumps (PDict stamped)), b, (metric_rows clk stamped).
  split.
  { pose proof (handle_local_dict cfg net relay_clk s msg d Hd) as Hs.
    cbv zeta in Hs. apply str_eqb_neq in Ht. rewrite Ht, Hrt in Hs.
    destruct Hs as (_ & _ & _ & _ & _ & _ & _ & Hp & _).
    rewrite Hp, send_to_cloud_published by exact Hc.
    now rewrite Htopic. }
  split; [exact He|].
  split.
  { rewrite (on_message_sensor_record pg clk w stamped b Hrep Hfl He).
    now rewrite save_to_db_table, Hpg, Hacc. }
  exact (metric_rows_stamped cfg relay_clk clk d).
Qed.

(** X20. The text [json.dumps] writes for a JSON-representable record,
    received by the worker on the sensors topic with the database up and
    taking the rows, adds to the table the rows of the record and nothing
    else. *)
Theorem relayed_record_is_stored
        (pg : postgres F) (clk : clock) (w : Worker F)
        (d : list (str * pyval F)) (b : bytes) :
  PyJson.representable (PDict d) = true ->
  PyJson.floats_read_back (PDict d) ->
  str_encode (json_dumps (PDict d)) = Some b ->
  connects pg = true ->
  forallb (accepts pg) (metric_rows clk d) = true ->
  tagrisense (on_message pg clk w
                {| msg_topic := MQTT_TOPIC_SENSORS; msg_payload := b |})
  = tagrisense w ++ metric_rows clk d.
Proof.
  intros Hrep Hfl He Hc Hacc.
  rewrite (on_message_sensor_record pg clk w d b Hrep Hfl He).
  now rewrite save_to_db_table, Hc, Hacc.
Qed.
End RelayToWorker.

(* ================================================================== *)
(** * The further statements at sample inputs *)

Module RunMore.
Import Sample.

Lemma enqueue_ids_never_reused_witness :
  sequence_covers three_pending
  /\ StronglySorted Z.lt (snd (queue_run three_pending history)).
Proof.
  assert (Hq : sequence_covers three_pending).
  { intros r [<-|[<-|[<-|[]]]]; vm_compute; discriminate. }
  split; [exact Hq|].
  exact (proj1 (enqueue_ids_never_reused history three_pending Hq)).
Defined.

Lemma get_count_counts_get_pending_witness :
  fits_int64 (-1) = true
  /\ exists items : list (item dfloat),
      get_pending three_pending (-1) = Some items
      /\ Z.of_nat (List.length items) = 3.
Proof.
  split; [reflexivity|].
  destruct (get_count_counts_get_pending three_pending (-1) eq_refl)
    as (items & Hg & Hn).
  - intros r [<-|[<-|[<-|[]]]]; vm_compute; discriminate.
  - left. reflexivity.
  - exists items. split; [exact Hg|exact Hn].
Defined.

Lemma fifo_when_clock_never_steps_back_witness :
  rowid_order_is_time_order empty_queue
  /\ clock_never_back empty_queue history
  /\ exists items : list (item dfloat),
      get_pending (fst (queue_run empty_queue history)) 50 = Some items
      /\ List.map item_id items = [2; 3].
Proof.
  assert (Ho : rowid_order_is_time_order empty_queue) by constructor.
  assert (Hc : clock_never_back empty_queue history).
  { split; [|intros r t []].
    repeat (constructor; try (vm_compute; discriminate)). }
  split; [exact Ho|]. split; [exact Hc|].
  destruct (fifo_when_clock_never_steps_back history empty_queue 50 Ho Hc
              eq_refl) as (items & Hg & _ & Hids).
  - intros r [<-|[<-|[]]]; vm_compute; discriminate.
  - exists items. split; [exact Hg|]. rewrite Hids. reflexivity.
Defined.

Lemma drain_turn_accounting_witness :
  NoDup (List.map row_id (reading_queue three_pending))
  /\ exists s',
      _offline_queue_cycle default_config net_second_fails
                           (online three_pending) = Some s'
      /\ get_count (offline_queue s') = 3 - (readings_sent (stats s') - 0).
Proof.
  assert (Hnd : NoDup (List.map row_id (reading_queue three_pending))).
  { repeat (constructor; [simpl; intuition discriminate|]). constructor. }
  split; [exact Hnd|].
  destruct (_offline_queue_cycle default_config net_second_fails
                                 (online three_pending)) as [s'|] eqn:E;
    [|vm_compute in E; discriminate E].
  exists s'. split; [reflexivity|].
  exact (proj1 (drain_turn_accounting default_config net_second_fails
                  (online three_pending) s' Hnd E)).
Defined.

Lemma unusable_row_blocks_the_queue_witness :
  get_pending (offline_queue (started holds_a_list)) 50
  = Some [ {| item_id := 1; item_data := PList [PInt 1] |} ]
  /\ exists s',
      _offline_queue_processor default_config net_ok 3 (started holds_a_list)
      = Some s'
      /\ offline_queue s' = holds_a_list
      /\ cloud_published s' = [].
Proof.
  assert (Hg : get_pending (offline_queue (started holds_a_list)) 50
               = Some [ {| item_id := 1; item_data := PList [PInt 1] |} ])
    by reflexivity.
  split; [exact Hg|].
  destruct (unusable_row_blocks_the_queue default_config net_ok _ _ 3
              (started holds_a_list) eq_refl eq_refl Hg eq_refl)
    as (s' & Hp & Hq & _ & _ & _ & _ & _ & _ & Hpub & _).
  exists s'. split; [exact Hp|]. split; [exact Hq|exact Hpub].
Defined.

Lemma reading_sent_queued_or_buffered_witness :
  decode_message (data_msg 7) = Some (reading 7)
  /\ readings_received
       (stats (_handle_local_message default_config net_ok noon
                                     (online empty_queue) (data_msg 7)))
     = 1.
Proof.
  assert (Hd : decode_message (data_msg 7) = Some (reading 7))
    by reflexivity.
  split; [exact Hd|].
  exact (proj1 (reading_sent_queued_or_buffered default_config net_ok noon
                  (online empty_queue) (data_msg 7)
                  [(pystr "node_id", PInt 7)] Hd)).
Defined.

Lemma non_object_payload_counted_then_lost_witness :
  decode_message list_msg = Some (PList [PInt (F := dfloat) 1])
  /\ readings_received
       (stats (_handle_local_message default_config net_ok noon
                                     (online empty_queue) list_msg))
     = 1
  /\ cloud_published
       (_handle_local_message default_config net_ok noon
                              (online empty_queue) list_msg)
     = [].
Proof.
  assert (Hd : decode_message list_msg
               = Some (PList [PInt (F := dfloat) 1])) by reflexivity.
  split; [exact Hd|].
  destruct (non_object_payload_counted_then_lost default_config net_ok noon
              (online empty_queue) list_msg _ Hd)
    as (H1 & _ & _ & _ & _ & H6 & _).
  - intros d. discriminate.
  - split; [exact H1|exact H6].
Defined.

Lemma reading_queued_offline_is_delivered_witness :
  cloud_connected (fresh empty_queue) = false
  /\ exists s3,
      _offline_queue_cycle default_config net_ok
        (cloud_on_connect 0
           (snd (_send_to_cloud net_ok noon (fresh empty_queue)
                                (CLOUD_TOPIC default_config) (reading 1))))
      = Some s3
      /\ cloud_published s3
         = [(CLOUD_TOPIC default_config, PyJson.dumps (reading 1))]
      /\ get_count (offline_queue s3) = 0.
Proof.
  split; [reflexivity|].
  destruct (reading_queued_offline_is_delivered default_config net_ok noon
              (fresh empty_queue) (CLOUD_TOPIC default_config) (reading 1)
              eq_refl) as (s3 & Hc & _ & _ & Hp & Hn & _).
  - intros r [].
  - reflexivity.
  - reflexivity.
  - exists s3. split; [exact Hc|]. split; [exact Hp|exact Hn].
Defined.

Lemma published_document_is_read_back_witness :
  PyJson.representable float_reading = true
  /\ PyJson.floats_read_back float_reading
  /\ exists b : bytes,
      str_encode (PyJson.dumps float_reading) = Some b
      /\ decode_message {| msg_topic := MQTT_TOPIC; msg_payload := b |}
         = Some float_reading.
Proof.
  assert (Hrep : PyJson.representable float_reading = true) by reflexivity.
  assert (Hfl : PyJson.floats_read_back float_reading).
  { simpl. repeat split. }
  split; [exact Hrep|]. split; [exact Hfl|].
  exact (published_document_is_read_back float_reading MQTT_TOPIC Hrep Hfl).
Defined.

Lemma flatten_data_lookup_witness :
  dict_get nested_reading (pystr "data")
  = Some (PDict [(pystr "temperature", PInt 21)])
  /\ exists d',
      flatten_data nested_reading = Some d'
      /\ dict_get d' (pystr "data") = None
      /\ dict_get d' (pystr "temperature") = Some (PInt 21).
Proof.
  split; [reflexivity|].
  destruct (flatten_data_lookup nested_reading
              [(pystr "temperature", PInt 21)] eq_refl)
    as (d' & Hf & Hd & Hk).
  - constructor; [intros []|constructor].
  - exists d'. split; [exact Hf|]. split; [exact Hd|].
    rewrite Hk; [reflexivity|]. intros H. vm_compute in H. discriminate H.
Defined.

Lemma notification_saved_and_published_witness :
  bytes_decode (notification nested_reading)
  = Some (PyJson.dumps (PDict nested_reading))
  /\ db_connection
       (notification_handler (fun _ => Returned 0) noon gateway_up
                             (notification nested_reading))
     = Some [sensor_row_of noon flattened_reading]
  /\ gw_published
       (notification_handler (fun _ => Returned 0) noon gateway_up
                             (notification nested_reading))
     = [(MQTT_TOPIC, PyJson.dumps (PDict flattened_reading))].
Proof.
  assert (Hb : bytes_decode (notification nested_reading)
               = Some (PyJson.dumps (PDict nested_reading))) by reflexivity.
  assert (Hj : json_loads (PyJson.dumps (PDict nested_reading))
               = Some (PDict nested_reading)) by (vm_compute; reflexivity).
  assert (Hf : flatten_data
                 (dict_set nested_reading (pystr "received_at")
                           (PStr (now_isoformat noon)))
               = Some flattened_reading) by (vm_compute; reflexivity).
  split; [exact Hb|].
  destruct (notification_saved_and_published_independently
              (fun _ => Returned 0) noon gateway_up
              (notification nested_reading) _ nested_reading
              flattened_reading Hb Hj Hf) as (_ & Hdb & Hp).
  split; [rewrite Hdb; reflexivity|rewrite Hp; reflexivity].
Defined.

Lemma notification_with_bad_data_entry_lost_witness :
  bytes_decode (notification bad_nested_reading)
  = Some (PyJson.dumps (PDict bad_nested_reading))
  /\ db_connection
       (notification_handler (fun _ => Returned 0) noon gateway_up
                             (notification bad_nested_reading))
     = Some []
  /\ gw_published
       (notification_handler (fun _ => Returned 0) noon gateway_up
                             (notification bad_nested_reading))
     = [].
Proof.
  assert (Hb : bytes_decode (notification bad_nested_reading)
               = Some (PyJson.dumps (PDict bad_nested_reading)))
    by reflexivity.
  assert (Hj : json_loads (PyJson.dumps (PDict bad_nested_reading))
               = Some (PDict bad_nested_reading))
    by (vm_compute; reflexivity).
  split; [exact Hb|].
  rewrite (notification_with_bad_data_entry_lost
             (fun _ => Returned 0) noon gateway_up
             (notification bad_nested_reading) _ bad_nested_reading (PInt 5)
             Hb Hj eq_refl).
  - split; reflexivity.
  - intros inner. discriminate.
Defined.

Lemma batch_at_worker_witness :
  now_isoformat noon <> pystr "N/A"
  /\ List.map (fun r => (mr_node_id r, mr_metric r, mr_value r))
       (tagrisense
          (save_to_db pg_ok noon_and_a_second
             (batch_payload default_config noon [float_reading]) worker0))
     = [ (PStr (pystr "unknown_device"), pystr "batch_size", PInt 1);
         (PStr (pystr "unknown_device"), pystr "batch_time",
          PStr (now_isoformat noon));
         (PStr (pystr "unknown_device"), pystr "readings",
          PList [float_reading]) ].
Proof.
  assert (Hiso : now_isoformat noon <> pystr "N/A").
  { intros H. vm_compute in H. discriminate H. }
  split; [exact Hiso|].
  rewrite (proj1 (batch_at_worker default_config noon noon_and_a_second
                    pg_ok worker0 [float_reading] Hiso)).
  reflexivity.
Defined.

Lemma only_sensor_messages_are_stored_witness :
  msg_topic alarm_msg <> MQTT_TOPIC_SENSORS
  /\ tagrisense (on_message pg_ok noon worker0 alarm_msg) = [].
Proof.
  assert (Ht : msg_topic alarm_msg <> MQTT_TOPIC_SENSORS).
  { intros H. vm_compute in H. discriminate H. }
  split; [exact Ht|].
  exact (only_sensor_messages_are_stored pg_ok noon worker0 alarm_msg Ht).
Defined.

Lemma relayed_record_is_stored_witness :
  PyJson.representable float_reading = true
  /\ PyJson.floats_read_back float_reading
  /\ List.map (fun r => (mr_metric r, mr_value r))
       (tagrisense
          (on_message pg_ok noon worker0
             {| msg_topic := MQTT_TOPIC_SENSORS;
                msg_payload :=
                  List.map byte_of_N (PyJson.dumps float_reading) |}))
     = [ (pystr "temperature", PFloat (Dnum false 215 (-1)));
         (pystr "humidity", PFloat (Dnum false 4 1)) ].
Proof.
  assert (Hrep : PyJson.representable float_reading = true) by reflexivity.
  assert (Hfl : PyJson.floats_read_back float_reading).
  { simpl. repeat split. }
  assert (He : str_encode (json_dumps float_reading)
               = Some (List.map byte_of_N (PyJson.dumps float_reading)))
    by (vm_compute; reflexivity).
  split; [exact Hrep|]. split; [exact Hfl|].
  rewrite (relayed_record_is_stored pg_ok noon worker0 float_record
             (List.map byte_of_N (PyJson.dumps float_reading))
             Hrep Hfl He eq_refl eq_refl).
  reflexivity.
Defined.

Lemma mark_sent_deletes_exactly_the_listed_witness :
  forallb fits_int64 [1; 3; 9] = true
  /\ (List.length [1; 3; 9] <= SQLITE_MAX_VARIABLE_NUMBER)%nat
  /\ List.map row_id (reading_queue (mark_sent three_pending [1; 3; 9]))
     = [2]
  /\ sqlite_sequence (mark_sent three_pending [1; 3; 9]) = 3.
Proof.
  assert (Hfit : forallb fits_int64 [1; 3; 9] = true) by reflexivity.
  assert (Hlen : (List.length [1; 3; 9] <= SQLITE_MAX_VARIABLE_NUMBER)%nat).
  { unfold SQLITE_MAX_VARIABLE_NUMBER. simpl. lia. }
  split; [exact Hfit|]. split; [exact Hlen|].
  split; [reflexivity|].
  destruct (mark_sent_deletes_exactly_the_listed three_pending [1; 3; 9]
              Hfit Hlen) as (_ & _ & _ & _ & _ & Hseq).
  rewrite Hseq. reflexivity.
Defined.

Lemma save_to_db_stores_the_metrics_witness :
  connects pg_ok = true
  /\ forallb (accepts pg_ok) (metric_rows noon sensor_record) = true
  /\ exists rows : list (metric_row dfloat),
      tagrisense (save_to_db pg_ok noon (PDict sensor_record) worker0) = rows
      /\ List.map (fun r => (mr_node_id r, mr_metric r, mr_value r)) rows
         = [ (PStr (pystr "node-1"), pystr "temperature", PInt 21) ].
Proof.
  split; [reflexivity|]. split; [reflexivity|].
  destruct (save_to_db_stores_the_metrics pg_ok noon sensor_record worker0
              eq_refl eq_refl) as (rows & Ht & _).
  exists rows. split; [exact Ht|].
  vm_compute in Ht. subst rows. reflexivity.
Defined.

Lemma stamped_record_at_worker_witness :
  decode_message float_msg = Some float_reading
  /\ msg_topic float_msg <> ALARMS_TOPIC
  /\ exists (text : str) (b : bytes) (rows : list (metric_row dfloat)),
      cloud_published
        (_handle_local_message default_config net_ok noon
                               (online empty_queue) float_msg)
      = [(MQTT_TOPIC_SENSORS, text)]
      /\ str_encode text = Some b
      /\ tagrisense
           (on_message pg_ok noon_and_a_second worker0
              {| msg_topic := MQTT_TOPIC_SENSORS; msg_payload := b |})
         = rows
      /\ List.map (fun r => (mr_metric r, mr_value r)) rows
         = [ (pystr "temperature", PFloat (Dnum false 215 (-1)));
             (pystr "humidity", PFloat (Dnum false 4 1)) ].
Proof.
  assert (Hd : decode_message float_msg = Some float_reading)
    by (vm_compute; reflexivity).
  assert (Ht : msg_topic float_msg <> ALARMS_TOPIC).
  { intros H. vm_compute in H. discriminate H. }
  assert (Hrep : PyJson.representable
                   (PDict (edge_metadata_dict default_config noon
                                              float_record)) = true)
    by (vm_compute; reflexivity).
  assert (Hfl : PyJson.floats_read_back
                  (PDict (edge_metadata_dict default_config noon
                                             float_record))).
  { vm_compute. repeat split. }
  split; [exact Hd|]. split; [exact Ht|].
  destruct (stamped_record_at_worker default_config net_ok noon
              noon_and_a_second (online empty_queue) float_msg float_record
              pg_ok worker0 Hd Ht eq_refl eq_refl eq_refl Hrep Hfl
              eq_refl eq_refl)
    as (text & b & rows & Hp & He & Hw & Hm & _).
  exists text, b, rows.
  split; [exact Hp|]. split; [exact He|]. split; [exact Hw|exact Hm].
Defined.
End RunMore.
